(** * The quiz-solving agent: a shallow embedding of its control loop

    The Python sources embedded here are [solver/tools.py],
    [solver/planner.py], [solver/agent.py] and [main.py].  Python values are
    modelled by the types they have at run time ([str] as a list of code
    points, [float] as IEEE-754 binary64, [dict] as a finite map), effects
    by a state-and-exception monad over an arbitrary outside world whose
    requests are recorded in a trace. *)

From Stdlib Require Import ZArith NArith List Bool Lia.
From Stdlib Require Import Strings.String Strings.Ascii.
From Stdlib Require Import Floats.SpecFloat.
From Stdlib Require Strings.Byte.
From stdpp Require Import gmap list.

Set Warnings "-register-all".

Local Open Scope Z_scope.

(** ** Python strings *)

Module PyStr.

(** A [str] is a sequence of Unicode code points. *)
Definition pystr : Type := list N.

(** String literals of the sources, written as Rocq strings. *)
Definition lit (s : string) : pystr :=
  List.map N_of_ascii (list_ascii_of_string s).

Definition eqb (a b : pystr) : bool := bool_decide (a = b).

(** Truth value of a string: [if s:]. *)
Definition nonempty (s : pystr) : bool := match s with [] => false | _ => true end.

(** [c in s] for a one-character [c]. *)
Definition contains (c : N) (s : pystr) : bool := existsb (N.eqb c) s.

Fixpoint startswith (p s : pystr) : bool :=
  match p, s with
  | [], _ => true
  | _ :: _, [] => false
  | a :: p', b :: s' => N.eqb a b && startswith p' s'
  end.

Definition endswith (p s : pystr) : bool := startswith (rev p) (rev s).

(** The code points for which [str.isspace] holds; [str.strip()] without
    arguments removes exactly these. *)
Definition isspace (c : N) : bool :=
  ((9 <=? c) && (c <=? 13) || (28 <=? c) && (c <=? 32)
   || (c =? 133) || (c =? 160) || (c =? 5760)
   || (8192 <=? c) && (c <=? 8202)
   || (c =? 8232) || (c =? 8233) || (c =? 8239) || (c =? 8287)
   || (c =? 12288))%N.

Fixpoint lstrip_by (f : N -> bool) (s : pystr) : pystr :=
  match s with
  | [] => []
  | c :: s' => if f c then lstrip_by f s' else s
  end.

Definition rstrip_by (f : N -> bool) (s : pystr) : pystr :=
  rev (lstrip_by f (rev s)).

Definition strip (s : pystr) : pystr := rstrip_by isspace (lstrip_by isspace s).

(** [s.split(sep)] for a one-character separator: the pieces between the
    occurrences of [sep]; never empty. *)
Fixpoint split (sep : N) (s : pystr) : list pystr :=
  match s with
  | [] => [[]]
  | c :: s' =>
      if N.eqb c sep then [] :: split sep s'
      else match split sep s' with
           | [] => [[c]]
           | p :: ps => (c :: p) :: ps
           end
  end.

(** [sep.join(parts)]. *)
Fixpoint join (sep : pystr) (parts : list pystr) : pystr :=
  match parts with
  | [] => []
  | [p] => p
  | p :: ps => p ++ sep ++ join sep ps
  end.

(** [xs[-1]] of a non-empty list (the default stands for the [IndexError]
    that no caller below can meet). *)
Definition last_item (xs : list pystr) : pystr := List.last xs [].

(** [xs[0]]. *)
Definition first_item (xs : list pystr) : pystr := List.hd [] xs.

(** [s.find(c)] as the prefix before the first [c] and, when [c] occurs,
    the rest after it. *)
Fixpoint cut (c : N) (s : pystr) : pystr * option pystr :=
  match s with
  | [] => ([], None)
  | a :: s' =>
      if N.eqb a c then ([], Some s')
      else let '(p, r) := cut c s' in (a :: p, r)
  end.

Definition is_digit (c : N) : bool := ((48 <=? c) && (c <=? 57))%N.

(** [str(n)] for a natural number. *)
Fixpoint decimal_aux (fuel : nat) (n : N) (acc : pystr) : pystr :=
  match fuel with
  | O => acc
  | S fuel' =>
      let acc' := (48 + n mod 10)%N :: acc in
      if (n <? 10)%N then acc' else decimal_aux fuel' (n / 10)%N acc'
  end.

Definition decimal (n : N) : pystr := decimal_aux (S (N.to_nat (N.log2 n))) n [].

End PyStr.

Export PyStr.

(** ** Exceptions

    The exceptions of the model are those of classes derived from
    [Exception], the ones an [except Exception] clause catches. *)

Inductive exn_class :=
  | ValueError | TypeError | KeyError | IndexError | AttributeError
  | OverflowError | HTTPStatusError
  | HTTPException (status_code : Z)
  | OtherError (name : pystr).

(** An exception object: its class and the text [str(e)] gives; for an
    [HTTPException] that text is the status code, a colon and the detail. *)
Record exn := Exn { exn_cls : exn_class; exn_str : pystr }.

Definition is_ValueError (e : exn) : bool :=
  match exn_cls e with ValueError => true | _ => false end.

(** ** Python floats (IEEE-754 binary64, round to nearest even) *)

Module PyFloat.

Definition prec : Z := 53.
Definition emax : Z := 1024.

Abbreviation float := spec_float.

(** The float of an integer literal. *)
Definition of_Z (z : Z) : float := binary_normalize prec emax z 0 false.

Definition sub (a b : float) : float := SFsub prec emax a b.

(** [a > b]. *)
Definition gt (a b : float) : bool := SFltb b a.

(** The correctly rounded float of the fraction [n / d]. *)
Definition of_ratio (n : N) (d : positive) : float :=
  match n with
  | N0 => S754_zero false
  | Npos p => SFdiv prec emax (S754_finite false p 0) (S754_finite false d 0)
  end.

(** Value of a run of decimal digits. *)
Definition digits_value (s : pystr) : N :=
  fold_left (fun acc c => (10 * acc + (c - 48))%N) s 0%N.

(** [float(s)] for a text [s] of ASCII digits and dots, which is all that
    the answer clean-up leaves: a literal needs at least one digit and at
    most one dot; anything else is a [ValueError]. *)
Definition of_decimal (s : pystr) : exn + float :=
  let bad := inl (Exn ValueError (lit "could not convert string to float: " ++ s)) in
  let '(ip, r) := cut 46 s in
  let fp := default [] r in
  if forallb is_digit ip && forallb is_digit fp
     && negb (bool_decide (ip ++ fp = []))
  then inr (of_ratio (digits_value (ip ++ fp)) (Z.to_pos (10 ^ Z.of_nat (length fp))))
  else bad.

(** [int(f)]: truncation towards zero. *)
Definition to_int (f : float) : exn + Z :=
  match f with
  | S754_zero _ => inr 0
  | S754_infinity _ =>
      inl (Exn OverflowError (lit "cannot convert float infinity to integer"))
  | S754_nan => inl (Exn ValueError (lit "cannot convert float NaN to integer"))
  | S754_finite s m e =>
      let a := match e with
               | Z0 => Zpos m
               | Zpos p => Zpos m * 2 ^ Zpos p
               | Zneg p => Zpos m / 2 ^ Zpos p
               end in
      inr (if s then - a else a)
  end.

End PyFloat.


(** ** Python values

    The values [json.loads] and [response.json()] can produce, which are
    also those the loop passes around. *)

Inductive pyval :=
  | PNone
  | PBool (b : bool)
  | PInt (z : Z)
  | PFloat (f : PyFloat.float)
  | PStr (s : pystr)
  | PList (l : list pyval)
  | PDict (d : gmap pystr pyval).

(** Truth value of an object, as [if v:], [not v] and [while v:] test it. *)
Definition truthy (v : pyval) : bool :=
  match v with
  | PNone => false
  | PBool b => b
  | PInt z => negb (z =? 0)
  | PFloat f => match f with S754_zero _ => false | _ => true end
  | PStr s => match s with [] => false | _ => true end
  | PList l => match l with [] => false | _ => true end
  | PDict d => negb (Nat.eqb (size d) 0)
  end.

(** [d.get(key)] on a dict. *)
Definition dict_get (d : gmap pystr pyval) (key : pystr) : pyval :=
  default PNone (d !! key).

Definition type_name (v : pyval) : pystr :=
  match v with
  | PNone => lit "NoneType"
  | PBool _ => lit "bool"
  | PInt _ => lit "int"
  | PFloat _ => lit "float"
  | PStr _ => lit "str"
  | PList _ => lit "list"
  | PDict _ => lit "dict"
  end.

Definition no_attribute (v : pyval) (attr : string) : exn :=
  Exn AttributeError
    (lit "'" ++ type_name v ++ lit "' object has no attribute '" ++ lit attr ++ lit "'").

(** [v.get(key)]: only a dict has the method. *)
Definition py_get (v : pyval) (key : pystr) : exn + pyval :=
  match v with
  | PDict d => inr (dict_get d key)
  | _ => inl (no_attribute v "get")
  end.

(** [v[key]] for a string key. *)
Definition py_getitem (v : pyval) (key : pystr) : exn + pyval :=
  match v with
  | PDict d =>
      match d !! key with
      | Some x => inr x
      | None => inl (Exn KeyError (lit "'" ++ key ++ lit "'"))
      end
  | PStr _ => inl (Exn TypeError (lit "string indices must be integers, not 'str'"))
  | PList _ => inl (Exn TypeError (lit "list indices must be integers or slices, not str"))
  | _ => inl (Exn TypeError (lit "'" ++ type_name v ++ lit "' object is not subscriptable"))
  end.

(** [v[0]]. *)
Definition py_getitem0 (v : pyval) : exn + pyval :=
  match v with
  | PList (x :: _) => inr x
  | PList [] => inl (Exn IndexError (lit "list index out of range"))
  | PStr (c :: _) => inr (PStr [c])
  | PStr [] => inl (Exn IndexError (lit "string index out of range"))
  | PDict d => inl (Exn KeyError (lit "0"))
  | _ => inl (Exn TypeError (lit "'" ++ type_name v ++ lit "' object is not subscriptable"))
  end.

(** [v[:n]]: strings and lists can be sliced. *)
Definition py_slice_to (n : nat) (v : pyval) : exn + pyval :=
  match v with
  | PStr s => inr (PStr (take n s))
  | PList l => inr (PList (take n l))
  | PDict _ => inl (Exn TypeError (lit "unhashable type: 'slice'"))
  | _ => inl (Exn TypeError (lit "'" ++ type_name v ++ lit "' object is not subscriptable"))
  end.

(** [v.strip()]. *)
Definition py_strip (v : pyval) : exn + pystr :=
  match v with
  | PStr s => inr (strip s)
  | _ => inl (no_attribute v "strip")
  end.

(** [v == True]: [True] equals the numbers one. *)
Definition py_eq_True (v : pyval) : bool :=
  match v with
  | PBool b => b
  | PInt z => z =? 1
  | PFloat f => SFeqb f (PyFloat.of_Z 1)
  | _ => false
  end.

(** An entry [k: v] of a dict display. *)
Definition kv (k : string) (v : pyval) : string * pyval := (k, v).

(** A dict display [{k1: v1, ...}]. *)
Definition dict_of (kvs : list (string * pyval)) : gmap pystr pyval :=
  list_to_map (List.map (fun kv => (lit (fst kv), snd kv)) (rev kvs)).

(** ** [urllib.parse.urljoin]

    The agent resolves the plan's URLs with the standard library's
    [urljoin]; this is that function for [str] arguments, after
    [Lib/urllib/parse.py].  Two checks on the network location look things
    up in tables of the run-time system (IP-address syntax, Unicode NFKC
    normalisation); they are taken as given. *)

Class NetlocChecks := {
  (** [_check_bracketed_netloc] does not raise on this netloc. *)
  bracketed_netloc_ok : pystr -> bool;
  (** [_checknetloc] does not raise on this non-ASCII netloc. *)
  nfkc_netloc_ok : pystr -> bool
}.

Module Url.

Definition in_list (s : pystr) (l : list string) : bool :=
  existsb (fun x => eqb s (lit x)) l.

Definition uses_relative : list string :=
  [""; "ftp"; "http"; "gopher"; "nntp"; "imap"; "wais"; "file"; "https";
   "shttp"; "mms"; "prospero"; "rtsp"; "rtspu"; "sftp"; "svn"; "svn+ssh";
   "ws"; "wss"]%string.

Definition uses_netloc : list string :=
  [""; "ftp"; "http"; "gopher"; "nntp"; "telnet"; "imap"; "wais"; "file";
   "mms"; "https"; "shttp"; "snews"; "prospero"; "rtsp"; "rtspu"; "rsync";
   "svn"; "svn+ssh"; "sftp"; "nfs"; "git"; "git+ssh"; "ws"; "wss"]%string.

Definition uses_params : list string :=
  [""; "ftp"; "hdl"; "prospero"; "http"; "imap"; "https"; "shttp"; "rtsp";
   "rtspu"; "sip"; "sips"; "mms"; "sftp"; "tel"]%string.

Definition is_ascii_alpha (c : N) : bool :=
  ((65 <=? c) && (c <=? 90) || (97 <=? c) && (c <=? 122))%N.

(** Membership in [scheme_chars]. *)
Definition is_scheme_char (c : N) : bool :=
  is_ascii_alpha c || is_digit c || (c =? 43)%N || (c =? 45)%N || (c =? 46)%N.

Definition lower (c : N) : N :=
  if ((65 <=? c) && (c <=? 90))%N then (c + 32)%N else c.

(** Membership in [_WHATWG_C0_CONTROL_OR_SPACE]. *)
Definition is_c0_or_space (c : N) : bool := (c <=? 32)%N.

(** Membership in [_UNSAFE_URL_BYTES_TO_REMOVE]. *)
Definition is_unsafe (c : N) : bool := ((c =? 9) || (c =? 13) || (c =? 10))%N.

Definition remove_unsafe (s : pystr) : pystr :=
  List.filter (fun c => negb (is_unsafe c)) s.

Definition is_netloc_delim (c : N) : bool := ((c =? 47) || (c =? 63) || (c =? 35))%N.

(** [_splitnetloc(url, 2)] on the text after the two slashes. *)
Fixpoint splitnetloc (s : pystr) : pystr * pystr :=
  match s with
  | [] => ([], [])
  | c :: s' =>
      if is_netloc_delim c then ([], s)
      else let '(n, r) := splitnetloc s' in (c :: n, r)
  end.

(** The scheme test of [urlsplit]: a colon not at the start, before it an
    ASCII letter followed by scheme characters only. *)
Definition split_scheme (url dflt : pystr) : pystr * pystr :=
  match cut 58 url with
  | (c :: pre, Some rest) =>
      if is_ascii_alpha c && forallb is_scheme_char (c :: pre)
      then (List.map lower (c :: pre), rest)
      else (dflt, url)
  | _ => (dflt, url)
  end.

Definition is_ascii (s : pystr) : bool := forallb (fun c => (c <? 128)%N) s.

Definition invalid_ipv6 : exn := Exn ValueError (lit "Invalid IPv6 URL").

Record SplitResult := mkSplit {
  s_scheme : pystr; s_netloc : pystr; s_path : pystr;
  s_query : pystr; s_fragment : pystr }.

Record ParseResult := mkParse {
  scheme : pystr; netloc : pystr; path : pystr; params : pystr;
  query : pystr; fragment : pystr }.

Section Parse.
Context `{NetlocChecks}.

Definition urlsplit (url0 scheme0 : pystr) : exn + SplitResult :=
  let url := lstrip_by is_c0_or_space url0 in
  let scheme := rstrip_by is_c0_or_space (lstrip_by is_c0_or_space scheme0) in
  let url := remove_unsafe url in
  let scheme := remove_unsafe scheme in
  let '(scheme, url) := split_scheme url scheme in
  let '(netloc, url) :=
    if eqb (take 2 url) (lit "//") then splitnetloc (drop 2 url) else ([], url) in
  let lb := contains 91 netloc in
  let rb := contains 93 netloc in
  if lb && negb rb || rb && negb lb then inl invalid_ipv6
  else if lb && rb && negb (bracketed_netloc_ok netloc) then inl invalid_ipv6
  else
    let '(url, fragment) :=
      match cut 35 url with (u, Some f) => (u, f) | (u, None) => (u, []) end in
    let '(url, query) :=
      match cut 63 url with (u, Some q) => (u, q) | (u, None) => (u, []) end in
    if nonempty netloc && negb (is_ascii netloc)
       && negb (nfkc_netloc_ok netloc)
    then inl (Exn ValueError
                (lit "netloc '" ++ netloc
                 ++ lit "' contains invalid characters under NFKC normalization"))
    else inr (mkSplit scheme netloc url query fragment).

(** [s.rfind(c)] as the text before the last [c] and the text after it. *)
Definition rcut (c : N) (s : pystr) : option pystr * pystr :=
  let '(p, r) := cut c (rev s) in
  (match r with Some d => Some (rev d) | None => None end, rev p).

Definition splitparams (url : pystr) : pystr * pystr :=
  match rcut 47 url with
  | (Some dir, seg) =>
      match cut 59 seg with
      | (a, Some b) => (dir ++ [47%N] ++ a, b)
      | (_, None) => (url, [])
      end
  | (None, _) =>
      match cut 59 url with
      | (a, Some b) => (a, b)
      | (_, None) => (removelast url, url)
      end
  end.

Definition urlparse (url scheme0 : pystr) : exn + ParseResult :=
  match urlsplit url scheme0 with
  | inl e => inl e
  | inr r =>
      let '(url, params) :=
        if in_list (s_scheme r) uses_params && contains 59 (s_path r)
        then splitparams (s_path r) else (s_path r, []) in
      inr (mkParse (s_scheme r) (s_netloc r) url params (s_query r) (s_fragment r))
  end.

End Parse.

Definition urlunsplit (scheme netloc url query fragment : pystr) : pystr :=
  let url :=
    if nonempty netloc
       || nonempty scheme && in_list scheme uses_netloc
          && negb (eqb (take 2 url) (lit "//"))
    then lit "//" ++ netloc
         ++ (if nonempty url && negb (eqb (take 1 url) (lit "/"))
             then lit "/" ++ url else url)
    else url in
  let url := if nonempty scheme then scheme ++ lit ":" ++ url else url in
  let url := if nonempty query then url ++ lit "?" ++ query else url in
  if nonempty fragment then url ++ lit "#" ++ fragment else url.

Definition urlunparse (r : ParseResult) : pystr :=
  let url := if nonempty (params r) then path r ++ lit ";" ++ params r else path r in
  urlunsplit (scheme r) (netloc r) url (query r) (fragment r).

(** [segments[1:-1] = filter(None, segments[1:-1])]. *)
Definition filter_middle (segments : list pystr) : list pystr :=
  match segments with
  | [] => []
  | [s0] => [s0]
  | s0 :: rest => s0 :: List.filter nonempty (removelast rest) ++ [List.last rest []]
  end.

(** One turn of the loop over [segments], on [resolved_path]. *)
Definition resolve_step (resolved : list pystr) (seg : pystr) : list pystr :=
  if eqb seg (lit "..") then removelast resolved
  else if eqb seg (lit ".") then resolved
  else resolved ++ [seg].

Definition resolve_path (bpath path : pystr) : pystr :=
  let base_parts := split 47 bpath in
  let base_parts :=
    if nonempty (last_item base_parts) then removelast base_parts else base_parts in
  let segments :=
    if eqb (take 1 path) (lit "/") then split 47 path
    else filter_middle (base_parts ++ split 47 path) in
  let resolved := fold_left resolve_step segments [] in
  let resolved :=
    if eqb (last_item segments) (lit ".") || eqb (last_item segments) (lit "..")
    then resolved ++ [[]] else resolved in
  let joined := join (lit "/") resolved in
  if nonempty joined then joined else lit "/".

Section Join.
Context `{NetlocChecks}.

Definition urljoin (base url : pystr) : exn + pystr :=
  if negb (nonempty base) then inr url
  else if negb (nonempty url) then inr base
  else
    match urlparse base [] with
    | inl e => inl e
    | inr b =>
        match urlparse url (scheme b) with
        | inl e => inl e
        | inr u =>
            if negb (eqb (scheme u) (scheme b))
               || negb (in_list (scheme u) uses_relative)
            then inr url
            else if in_list (scheme u) uses_netloc && nonempty (netloc u)
            then inr (urlunparse u)
            else
              let netloc' :=
                if in_list (scheme u) uses_netloc then netloc b else netloc u in
              if negb (nonempty (path u)) && negb (nonempty (params u))
              then inr (urlunparse
                          (mkParse (scheme u) netloc' (path b) (params b)
                             (if nonempty (query u) then query u else query b)
                             (fragment u)))
              else inr (urlunparse
                          (mkParse (scheme u) netloc' (resolve_path (path b) (path u))
                             (params u) (query u) (fragment u)))
        end
    end.

End Join.

End Url.

(** ** The outside world *)

(** What an [httpx] response gives the program: the status code, the body
    and the outcome of [response.json()]. *)
Record response := Response {
  status_code : Z;
  content : list N;
  json : exn + pyval
}.

(** The requests the program makes to what lies outside of it. *)
Inductive io : Type -> Type :=
  (** [time.time()] *)
  | Time : io PyFloat.float
  (** [async with async_playwright() as p]: entering and leaving *)
  | PwStart : io unit
  | PwStop : io unit
  (** [p.chromium.launch()], [browser.new_page()] *)
  | PwLaunch : io unit
  | PwNewPage : io unit
  (** [page.goto(url, wait_until="networkidle")], [page.content()] *)
  | PwGoto (url : pyval) : io unit
  | PwContent : io pystr
  (** [browser.close()] *)
  | PwClose : io unit
  (** [client.post(url, headers=..., json=..., timeout=...)] *)
  | HttpPost (url : pyval) (headers : gmap pystr pystr) (body : pyval)
             (timeout : Z) : io response
  (** [client.get(url)] *)
  | HttpGet (url : pystr) : io response
  (** [os.makedirs(path, exist_ok=True)] *)
  | Makedirs (path : pystr) : io unit
  (** [with open(path, 'wb') as f: f.write(data)] *)
  | WriteFile (path : pystr) (data : list N) : io unit
  (** [pdfplumber.open(path)] and [extract_text()] of each page in turn *)
  | PdfPages (path : pystr) : io (list pystr)
  (** [pd.read_csv(path).to_string()] *)
  | CsvToString (path : pystr) : io pystr.

(** Everything the sources leave to their environment: the behaviour of the
    outside world, library functions the model does not open, the process
    environment and the two prompt texts. *)
Class Outside := {
  world : Type;
  (** A request either raises or returns, and the world moves on. *)
  perform : forall T, io T -> world -> (exn + T) * world;
  json_loads : pystr -> exn + pyval;
  (** [repr(v)] *)
  py_repr : pyval -> pystr;
  (** The text of the [HTTPStatusError] for a response. *)
  status_error_text : response -> pystr;
  (** [os.environ.get(...)] of the three variables *)
  AIPIPE_TOKEN : option pystr;
  MY_SECRET : option pystr;
  MY_EMAIL : option pystr;
  (** The system prompt of the planner, and that of the answerer around
      the question it interpolates. *)
  plan_system_prompt : pystr;
  answer_system_prompt : pystr -> pystr
}.

(** The [print] statements of the sources, each with the values it
    interpolates. *)
Inductive log_msg :=
  (* agent.py *)
  | LogTimeout                         (* Nearing 3-minute timeout. Stopping task. *)
  | LogNewTask                         (* --- New Task --- *)
  | LogProcessing (url : pyval)        (* Processing URL: {current_url} *)
  | LogScrapeFailed (page : pystr)     (* Failed to scrape: {page_context} *)
  | LogPlanFailed (err : pyval)        (* Failed to get plan: {plan['error']} *)
  | LogPlanReceived (question : pyval) (* Plan received: {plan.get('question')} *)
  | LogDataUrl (url : pyval)           (* Data URL found, downloading: {data_url} *)
  | LogFileFailed (e : exn)            (* Failed to process file: {e} *)
  | LogFinalAnswer (answer : pyval)    (* Final answer computed: {str(final_answer)[:50]}... *)
  | LogSubmitting (url : pyval)        (* Submitting answer to: {submit_url} *)
  | LogCorrect                         (* Answer was CORRECT. *)
  | LogQuizComplete                    (* Quiz complete! No new URL provided. *)
  | LogWrong (reason : pyval)          (* Answer was WRONG. Reason: {result_data.get('reason')} *)
  | LogEndedWrong                      (* Quiz ended on a wrong answer. *)
  | LogUnexpected                      (* ---!! An unexpected error occurred in the agent loop !!--- *)
  | LogError (e : exn)                 (* Error: {e} *)
  | LogFinished                        (* --- Quiz Run Finished --- *)
  (* planner.py *)
  | LogCallingPlanner                  (* Calling LLM to create a plan... *)
  | LogPlannerError (e : exn)          (* Error in LLM Planner: {e} *)
  | LogCallingAnswerer (q30 : pyval)   (* Calling LLM to get a specific answer for question: {question[:30]}... *)
  | LogAnswererError (e : exn)         (* Error in LLM Answerer: {e} *)
  (* tools.py *)
  | LogScraping (url : pyval)          (* Scraping: {url} *)
  | LogScrapeError (url : pyval) (e : exn) (* Error scraping {url}: {e} *)
  | LogDownloading (url : pyval)       (* Downloading: {url} *)
  | LogReadingPdf (path : pystr)       (* Reading PDF: {file_path} *)
  | LogReadingCsv (path : pystr)       (* Reading CSV: {file_path} *)
  (* main.py *)
  | LogInvalidSecret (secret : pystr)  (* Invalid secret attempt: {payload.secret} *)
  | LogInvalidEmail (email : pystr)    (* Invalid email attempt: {payload.email} *)
  | LogAccepted (email url : pystr).   (* Task accepted for {payload.email}, URL: {payload.url} *)

(** Entries into the components, recorded so that "this component is (not)
    called" is a statement about the trace. *)
Inductive call_mark :=
  | CallScrape (url : pyval)
  | CallPlan (page_context : pystr)
  | CallDownload (url : pyval) (save_path : pystr)
  | CallPdf (file_path : pystr)
  | CallCsv (file_path : pystr)
  | CallAnswer (question : pyval) (data_context : pystr).

Inductive event :=
  | EvIO {T : Type} (op : io T)
  | EvPrint (m : log_msg)
  | EvCall (c : call_mark).

(** A task handed to [BackgroundTasks.add_task]: the agent loop with its
    three arguments. *)
Inductive task :=
  | RunQuizSolver (email secret url : pystr).

(** ** The monad of the program: state of the world, trace, exceptions *)

Module Run.
Section Run.
Context `{Outside}.

(** The world outside, the requests and messages so far, and the
    [BackgroundTasks] queue of the request being served. *)
Record state := State {
  st_world : world;
  st_trace : list event;
  st_tasks : list task
}.

(** The state after some more events. *)
Definition log (evs : list event) (s : state) : state :=
  State (st_world s) (st_trace s ++ evs) (st_tasks s).

Definition set_world (w : world) (s : state) : state :=
  State w (st_trace s) (st_tasks s).

Definition M (A : Type) : Type := state -> (exn + A) * state.

Definition ret {A} (a : A) : M A := fun s => (inr a, s).

Definition bind {A B} (c : M A) (k : A -> M B) : M B :=
  fun s => match c s with
           | (inr a, s') => k a s'
           | (inl e, s') => (inl e, s')
           end.

Definition raise {A} (e : exn) : M A := fun s => (inl e, s).

(** A pure step that may raise. *)
Definition lift {A} (r : exn + A) : M A := fun s => (r, s).

(** [try: c  except Exception as e: h e], for the exceptions of the model,
    which all derive from [Exception]. *)
Definition try_ {A} (c : M A) (h : exn -> M A) : M A :=
  fun s => match c s with
           | (inr a, s') => (inr a, s')
           | (inl e, s') => h e s'
           end.

Definition emit (ev : event) : M unit :=
  fun s => (inr tt, log [ev] s).

(** [print(...)] of a message on a standard output that takes its text
    (see [printable] below). *)
Definition print (m : log_msg) : M unit := emit (EvPrint m).

Definition mark (c : call_mark) : M unit := emit (EvCall c).

(** A request to the outside world, recorded in the trace. *)
Definition call {T} (op : io T) : M T :=
  fun s => let '(r, w) := perform T op (st_world s) in
           (r, set_world w (log [EvIO op] s)).

(** [background_tasks.add_task(...)] *)
Definition add_task (t : task) : M unit :=
  fun s => (inr tt, State (st_world s) (st_trace s) (st_tasks s ++ [t])).

(** [with]: the exit runs on both ways out of the body, and an exception of
    the exit replaces the body's. *)
Definition with_ {A} (enter leave : M unit) (body : M A) : M A :=
  fun s => match enter s with
           | (inl e, s1) => (inl e, s1)
           | (inr _, s1) =>
               let '(r, s2) := body s1 in
               match leave s2 with
               | (inl e, s3) => (inl e, s3)
               | (inr _, s3) => (r, s3)
               end
           end.

End Run.
End Run.

Export Run.

Declare Scope run_scope.
Delimit Scope run_scope with run.
Notation "x <- c1 ;; c2" := (bind c1 (fun x => c2))
  (at level 100, c1 at next level, right associativity) : run_scope.
Notation "c1 ;; c2" := (bind c1 (fun _ => c2))
  (at level 100, right associativity) : run_scope.
Local Open Scope run_scope.

(** The f-string conversion [{v}]: a string as it is, anything else as its
    [repr]. *)
Definition py_format `{Outside} (v : pyval) : pystr :=
  match v with PStr s => s | _ => py_repr v end.

(** ** The standard output

    [print] encodes the text it is given for the standard output and
    raises [UnicodeEncodeError] when the text cannot be encoded.  A text
    without a surrogate code point (U+D800 to U+DFFF) can be encoded by
    every UTF-8 standard output; a string that [json.loads] made of an
    escape such as [\ud83d] holds such a code point. *)
Definition encodable (text : pystr) : bool :=
  forallb (fun c => (c <? 55296) || (57343 <? c))%N text.

(** The text of each message, as the f-string of its [print] writes it. *)
Definition msg_text `{Outside} (m : log_msg) : pystr :=
  match m with
  | LogTimeout => lit "Nearing 3-minute timeout. Stopping task."
  | LogNewTask => [10%N] ++ lit "--- New Task ---"
  | LogProcessing url => lit "Processing URL: " ++ py_format url
  | LogScrapeFailed page => lit "Failed to scrape: " ++ page
  | LogPlanFailed err => lit "Failed to get plan: " ++ py_format err
  | LogPlanReceived question => lit "Plan received: " ++ py_format question
  | LogDataUrl url => lit "Data URL found, downloading: " ++ py_format url
  | LogFileFailed e => lit "Failed to process file: " ++ exn_str e
  | LogFinalAnswer answer =>
      lit "Final answer computed: " ++ take 50 (py_format answer) ++ lit "..."
  | LogSubmitting url => lit "Submitting answer to: " ++ py_format url
  | LogCorrect => lit "Answer was CORRECT."
  | LogQuizComplete => lit "Quiz complete! No new URL provided."
  | LogWrong reason => lit "Answer was WRONG. Reason: " ++ py_format reason
  | LogEndedWrong => lit "Quiz ended on a wrong answer."
  | LogUnexpected => lit "---!! An unexpected error occurred in the agent loop !!---"
  | LogError e => lit "Error: " ++ exn_str e
  | LogFinished => [10%N] ++ lit "--- Quiz Run Finished ---"
  | LogCallingPlanner => lit "Calling LLM to create a plan..."
  | LogPlannerError e => lit "Error in LLM Planner: " ++ exn_str e
  | LogCallingAnswerer q30 =>
      lit "Calling LLM to get a specific answer for question: " ++ py_format q30
      ++ lit "..."
  | LogAnswererError e => lit "Error in LLM Answerer: " ++ exn_str e
  | LogScraping url => lit "Scraping: " ++ py_format url
  | LogScrapeError url e =>
      lit "Error scraping " ++ py_format url ++ lit ": " ++ exn_str e
  | LogDownloading url => lit "Downloading: " ++ py_format url
  | LogReadingPdf path => lit "Reading PDF: " ++ path
  | LogReadingCsv path => lit "Reading CSV: " ++ path
  | LogInvalidSecret secret => lit "Invalid secret attempt: " ++ secret
  | LogInvalidEmail email => lit "Invalid email attempt: " ++ email
  | LogAccepted email url => lit "Task accepted for " ++ email ++ lit ", URL: " ++ url
  end.

(** The standard output takes every message among these events. *)
Definition printable `{Outside} (evs : list event) : bool :=
  forallb (fun ev => match ev with
                     | EvPrint m => encodable (msg_text m)
                     | _ => true
                     end) evs.

Definition is_success (r : response) : bool :=
  (200 <=? status_code r) && (status_code r <=? 299).

(** [response.raise_for_status()] *)
Definition raise_for_status `{Outside} (r : response) : exn + unit :=
  if is_success r then inr tt else inl (Exn HTTPStatusError (status_error_text r)).

(** [json.loads(v)] *)
Definition py_json_loads `{Outside} (v : pyval) : exn + pyval :=
  match v with
  | PStr s => json_loads s
  | _ => inl (Exn TypeError
                (lit "the JSON object must be str, bytes or bytearray, not "
                 ++ type_name v))
  end.

(** [urljoin(base, url)] on arbitrary objects: only two strings can be
    joined. *)
Definition py_urljoin `{NetlocChecks} (base url : pyval) : exn + pyval :=
  if negb (truthy base) then inr url
  else if negb (truthy url) then inr base
  else match base, url with
       | PStr b, PStr u =>
           match Url.urljoin b u with inl e => inl e | inr r => inr (PStr r) end
       | PStr _, _ | _, PStr _ =>
           inl (Exn TypeError (lit "Cannot mix str and non-str arguments"))
       | _, _ => inl (no_attribute base "decode")
       end.

(** ** solver/tools.py *)

Section Tools.
Context `{Outside}.

Definition scrape_error_prefix : pystr := lit "Error: Could not scrape page. ".

Definition scrape_page_content (url : pyval) : M pystr :=
  mark (CallScrape url);;
  print (LogScraping url);;
  with_ (call PwStart) (call PwStop)
    (call PwLaunch;;
     call PwNewPage;;
     try_ (call (PwGoto url);;
           content <- call PwContent;;
           call PwClose;;
           ret content)
          (fun e =>
             call PwClose;;
             print (LogScrapeError url e);;
             ret (scrape_error_prefix ++ exn_str e))).

(** [url.split('/')[-1].split('?')[0]], then the fallback for a name
    without a dot. *)
Definition download_filename (url : pystr) : pystr :=
  let filename := first_item (split 63 (last_item (split 47 url))) in
  if negb (contains 46 filename)
  then lit "data_" ++ last_item (split 45 filename)
  else filename.

Definition download_filepath (url save_path : pystr) : pystr :=
  save_path ++ lit "/" ++ download_filename url.

Definition download_file (url : pyval) (save_path : pystr) : M pystr :=
  mark (CallDownload url save_path);;
  print (LogDownloading url);;
  call (Makedirs save_path);;
  match url with
  | PStr u =>
      let filepath := download_filepath u save_path in
      response <- call (HttpGet u);;
      call (WriteFile filepath (content response));;
      ret filepath
  | _ => raise (no_attribute url "split")
  end.

Fixpoint pdf_text (i : N) (pages : list pystr) : pystr :=
  match pages with
  | [] => []
  | text :: rest =>
      lit "--- PDF Page " ++ decimal (i + 1) ++ lit " ---" ++ [10%N]
      ++ text ++ [10%N; 10%N] ++ pdf_text (i + 1) rest
  end.

Definition get_text_from_pdf (file_path : pystr) : M pystr :=
  mark (CallPdf file_path);;
  print (LogReadingPdf file_path);;
  pages <- call (PdfPages file_path);;
  ret (pdf_text 0 pages).

Definition get_text_from_csv (file_path : pystr) : M pystr :=
  mark (CallCsv file_path);;
  print (LogReadingCsv file_path);;
  call (CsvToString file_path).

End Tools.

(** ** solver/planner.py *)

Section Planner.
Context `{Outside}.

Definition AIPIPE_URL : pystr := lit "https://aipipe.org/openrouter/v1/chat/completions".

Definition SENTINEL : pystr := lit "ANSWER_NOT_FOUND".

Definition llm_headers : gmap pystr pystr :=
  {[ lit "Authorization" :=
       lit "Bearer " ++ match AIPIPE_TOKEN with Some t => t | None => lit "None" end ]}.

Definition message (role : string) (text : pystr) : pyval :=
  PDict (dict_of [kv "role" (PStr (lit role)); kv "content" (PStr text)]).

Definition plan_payload (page_context : pystr) : pyval :=
  PDict (dict_of
    [kv "model" (PStr (lit "openai/gpt-4o"));
     kv "response_format" (PDict (dict_of [kv "type" (PStr (lit "json_object"))]));
     kv "messages"
      (PList [message "system" plan_system_prompt;
             message "user"
               (lit "Parse this HTML and return the JSON:" ++ [10%N; 10%N]
                ++ lit "---" ++ [10%N; 10%N] ++ page_context)])]).

(** [response.json()['choices'][0]['message']['content']] *)
Definition completion_content (r : response) : exn + pyval :=
  match json r with
  | inl e => inl e
  | inr body =>
      match py_getitem body (lit "choices") with
      | inl e => inl e
      | inr choices =>
          match py_getitem0 choices with
          | inl e => inl e
          | inr choice =>
              match py_getitem choice (lit "message") with
              | inl e => inl e
              | inr msg => py_getitem msg (lit "content")
              end
          end
      end
  end.

Definition missing_submit_url (plan_dict : pyval) : exn :=
  Exn ValueError (lit "LLM failed to find a submit_url. Plan: " ++ py_repr plan_dict).

(** The body of the planner's [try]. *)
Definition plan_attempt (page_context : pystr) : M (gmap pystr pyval) :=
  response <- call (HttpPost (PStr AIPIPE_URL) llm_headers (plan_payload page_context) 60);;
  lift (raise_for_status response);;
  llm_response_str <- lift (completion_content response);;
  plan_dict <- lift (py_json_loads llm_response_str);;
  submit_url <- lift (py_get plan_dict (lit "submit_url"));;
  if negb (truthy submit_url) then raise (missing_submit_url plan_dict)
  else match plan_dict with
       | PDict d => ret d
       | _ => raise (no_attribute plan_dict "get")
       end.

Definition get_plan_from_llm (page_context : pystr) : M (gmap pystr pyval) :=
  mark (CallPlan page_context);;
  print LogCallingPlanner;;
  try_ (plan_attempt page_context)
       (fun e =>
          print (LogPlannerError e);;
          ret {[ lit "error" := PStr (exn_str e) ]}).

Definition answer_payload (question : pyval) (data_context : pystr) : pyval :=
  PDict (dict_of
    [kv "model" (PStr (lit "openai/gpt-4o"));
     kv "messages"
      (PList [message "system" (answer_system_prompt (py_format question));
             message "user" (lit "Data Context:" ++ [10%N] ++ data_context)])]).

(** [re.sub(r"[^0-9.]", "", answer)] *)
Definition clean_answer (answer : pystr) : pystr :=
  List.filter (fun c => is_digit c || (c =? 46)%N) answer.

(** What the answerer makes of the completion text: the lines from
    [.strip()] to [return answer]. *)
Definition normalize_answer (raw : pyval) : exn + pyval :=
  match py_strip raw with
  | inl e => inl e
  | inr answer =>
      if negb (nonempty answer) || eqb answer SENTINEL then inr (PStr SENTINEL)
      else
        let cleaned_answer := clean_answer answer in
        if nonempty cleaned_answer then
          match PyFloat.of_decimal cleaned_answer with
          | inl e => if is_ValueError e then inr (PStr answer) else inl e
          | inr f =>
              match PyFloat.to_int f with
              | inl e => if is_ValueError e then inr (PStr answer) else inl e
              | inr z => inr (PInt z)
              end
          end
        else inr (PStr answer)
  end.

Definition get_answer_from_llm (question : pyval) (data_context : pystr) : M pyval :=
  mark (CallAnswer question data_context);;
  q30 <- lift (py_slice_to 30 question);;
  print (LogCallingAnswerer q30);;
  try_ (response <- call (HttpPost (PStr AIPIPE_URL) llm_headers
                            (answer_payload question data_context) 60);;
        lift (raise_for_status response);;
        raw <- lift (completion_content response);;
        lift (normalize_answer raw))
       (fun e =>
          print (LogAnswererError e);;
          ret (PStr (lit "Error: " ++ exn_str e))).

End Planner.

(** ** solver/agent.py *)

(** How one turn of [while current_url:] ends: by [break], or at the end of
    the body with the new value of [current_url]. *)
Inductive ctl :=
  | Break
  | Continue (current_url : pyval).

(** How the loop ends: the [while] is left, or the model ran out of the
    turns it was given. *)
Inductive loop_end :=
  | Finished
  | OutOfFuel.

Section Agent.
Context `{NetlocChecks} `{Outside}.

(** The budget of the timeout check. *)
Definition budget : PyFloat.float := PyFloat.of_Z 170.

(** [# 6. Process the result] *)
Definition process_result (result_data : pyval) : M ctl :=
  correct <- lift (py_get result_data (lit "correct"));;
  if py_eq_True correct then
    print LogCorrect;;
    current_url <- lift (py_get result_data (lit "url"));;
    (if negb (truthy current_url) then print LogQuizComplete else ret tt);;
    ret (Continue current_url)
  else
    reason <- lift (py_get result_data (lit "reason"));;
    print (LogWrong reason);;
    current_url <- lift (py_get result_data (lit "url"));;
    (if negb (truthy current_url) then print LogEndedWrong else ret tt);;
    ret (Continue current_url).

Definition submission_payload (email secret : pystr) (current_url final_answer : pyval)
  : pyval :=
  PDict (dict_of [kv "email" (PStr email); kv "secret" (PStr secret);
                  kv "url" current_url; kv "answer" final_answer]).

(** [# 5. Submit the answer] and on to step 6. *)
Definition submit_answer (email secret : pystr)
    (current_url submit_url final_answer : pyval) : M ctl :=
  print (LogSubmitting submit_url);;
  submit_response <-
    call (HttpPost submit_url ∅
            (submission_payload email secret current_url final_answer) 30);;
  lift (raise_for_status submit_response);;
  result_data <- lift (json submit_response);;
  process_result result_data.

(** [# 4. Get the answer] and on to step 5. *)
Definition answer_and_submit (email secret : pystr)
    (current_url question submit_url : pyval) (data_context : pystr) : M ctl :=
  final_answer <- get_answer_from_llm question data_context;;
  print (LogFinalAnswer final_answer);;
  submit_answer email secret current_url submit_url final_answer.

(** The choice of an extractor by the suffix of the saved path. *)
Definition extract_text (file_path : pystr) : M pystr :=
  if endswith (lit ".pdf") file_path then get_text_from_pdf file_path
  else if endswith (lit ".csv") file_path then get_text_from_csv file_path
  else ret (lit "File downloaded to: " ++ file_path).

(** The handler of the [try] around download and extraction. *)
Definition file_failed (e : exn) : M pystr :=
  print (LogFileFailed e);;
  ret (lit "Error processing file: " ++ exn_str e).

(** [# 3. Execute the plan (Get Data)]: the value of [data_context]. *)
Definition acquire_data (page_context : pystr) (data_url : pyval) : M pystr :=
  if truthy data_url then
    print (LogDataUrl data_url);;
    try_ (file_path <- download_file data_url (lit "temp_data");;
          extract_text file_path)
         file_failed
  else ret page_context.

(** [if url: url = urljoin(current_url, url)] *)
Definition resolve_url (current_url url : pyval) : exn + pyval :=
  if truthy url then py_urljoin current_url url else inr url.

(** From [question = plan.get("question")] to the end of the body. *)
Definition execute_plan (email secret : pystr) (current_url : pyval)
    (page_context : pystr) (plan : gmap pystr pyval) : M ctl :=
  print (LogPlanReceived (dict_get plan (lit "question")));;
  let question := dict_get plan (lit "question") in
  let data_url := dict_get plan (lit "data_url") in
  let submit_url := dict_get plan (lit "submit_url") in
  data_url <- lift (resolve_url current_url data_url);;
  submit_url <- lift (resolve_url current_url submit_url);;
  data_context <- acquire_data page_context data_url;;
  answer_and_submit email secret current_url question submit_url data_context.

(** [# 2. Get a plan from the LLM] and what follows. *)
Definition plan_and_execute (email secret : pystr) (current_url : pyval)
    (page_context : pystr) : M ctl :=
  plan <- get_plan_from_llm page_context;;
  match plan !! lit "error" with
  | Some err => print (LogPlanFailed err);; ret Break
  | None => execute_plan email secret current_url page_context plan
  end.

(** The body of the [try] of one turn. *)
Definition attempt_task (email secret : pystr) (current_url : pyval) : M ctl :=
  page_context <- scrape_page_content current_url;;
  if startswith (lit "Error:") page_context then
    print (LogScrapeFailed page_context);; ret Break
  else plan_and_execute email secret current_url page_context.

(** The handler of the [try] around a turn: [current_url = None]. *)
Definition unexpected (e : exn) : M ctl :=
  print LogUnexpected;;
  print (LogError e);;
  ret (Continue PNone).

(** The body of [while current_url:]. *)
Definition loop_body (email secret : pystr) (start_time : PyFloat.float)
    (current_url : pyval) : M ctl :=
  now <- call Time;;
  if PyFloat.gt (PyFloat.sub now start_time) budget then
    print LogTimeout;; ret Break
  else
    print LogNewTask;;
    print (LogProcessing current_url);;
    try_ (attempt_task email secret current_url) unexpected.

(** [while current_url:], for at most [fuel] turns. *)
Fixpoint quiz_loop (fuel : nat) (email secret : pystr) (start_time : PyFloat.float)
    (current_url : pyval) : M loop_end :=
  if truthy current_url then
    match fuel with
    | O => ret OutOfFuel
    | S fuel' =>
        c <- loop_body email secret start_time current_url;;
        match c with
        | Break => ret Finished
        | Continue next_url => quiz_loop fuel' email secret start_time next_url
        end
    end
  else ret Finished.

Definition run_quiz_solver_background (fuel : nat) (email secret initial_url : pystr)
  : M loop_end :=
  start_time <- call Time;;
  r <- quiz_loop fuel email secret start_time (PStr initial_url);;
  match r with
  | Finished => print LogFinished;; ret Finished
  | OutOfFuel => ret OutOfFuel
  end.

End Agent.

(** ** main.py *)

Record QuizPayload := {
  p_email : pystr;
  p_secret : pystr;
  p_url : pystr
}.


Section Main.
Context `{Outside}.

Definition accepted : gmap pystr pyval :=
  dict_of [kv "status" (PStr (lit "accepted"));
           kv "message"
             (PStr (lit "Quiz task accepted and is processing in the background."))].

(** The handler of [POST /quiz-endpoint]. *)
Definition start_quiz (payload : QuizPayload) : M (gmap pystr pyval) :=
  if negb (bool_decide (Some (p_secret payload) = MY_SECRET)) then
    print (LogInvalidSecret (p_secret payload));;
    raise (Exn (HTTPException 403) (lit "403: Invalid secret provided."))
  else if negb (bool_decide (Some (p_email payload) = MY_EMAIL)) then
    print (LogInvalidEmail (p_email payload));;
    raise (Exn (HTTPException 403) (lit "403: Invalid email provided."))
  else
    print (LogAccepted (p_email payload) (p_url payload));;
    add_task (RunQuizSolver (p_email payload) (p_secret payload) (p_url payload));;
    ret accepted.

End Main.

(** ** A scripted outside world

    A small world to run the program in: the clock follows a list of
    readings, the browser, the completion service, the download and the
    grader answer as a scenario says. *)

Module Demo.

Record scenario := {
  (** successive readings of the clock *)
  sc_clock : list PyFloat.float;
  (** what [page.goto] does and what [page.content()] returns *)
  sc_goto : exn + unit;
  sc_page : pystr;
  (** the planner's completion, and what [json.loads] makes of its text *)
  sc_plan_response : exn + response;
  sc_plan : exn + pyval;
  (** the answerer's completion *)
  sc_answer_response : exn + response;
  (** the download and the extractors *)
  sc_download : exn + response;
  sc_write : exn + unit;
  sc_pdf : exn + list pystr;
  sc_csv : exn + pystr;
  (** the grader *)
  sc_submit : exn + response;
  (** the configured secret and email *)
  sc_secret : option pystr;
  sc_email : option pystr
}.

(** A chat completion whose message content is [text]. *)
Definition completion (text : pyval) : response :=
  Response 200 []
    (inr (PDict (dict_of
       [kv "choices"
          (PList [PDict (dict_of
             [kv "message" (PDict (dict_of [kv "content" text]))])])]))).

(** The state of the scripted world: the number of clock readings taken so
    far, and whether the completion service has been asked for the plan of
    the turn. *)
Record demo_world := At { clock_readings : nat; plan_asked : bool }.

Definition demo_perform (sc : scenario) (T : Type) (op : io T) (w : demo_world)
  : (exn + T) * demo_world :=
  match op in io T return (exn + T) * demo_world with
  | Time =>
      (inr (nth (clock_readings w) (sc_clock sc) (S754_zero false)),
       At (S (clock_readings w)) (plan_asked w))
  | PwStart | PwStop | PwLaunch | PwNewPage | PwClose => (inr tt, w)
  | PwGoto _ => (sc_goto sc, w)
  | PwContent => (inr (sc_page sc), w)
  | HttpPost url _ body timeout =>
      if timeout =? 30 then (sc_submit sc, At (clock_readings w) false)
      else if plan_asked w then (sc_answer_response sc, w)
      else (sc_plan_response sc, At (clock_readings w) true)
  | HttpGet _ => (sc_download sc, w)
  | Makedirs _ => (inr tt, w)
  | WriteFile _ _ => (sc_write sc, w)
  | PdfPages _ => (sc_pdf sc, w)
  | CsvToString _ => (sc_csv sc, w)
  end.

Definition outside (sc : scenario) : Outside := {|
  world := demo_world;
  perform := demo_perform sc;
  json_loads := fun _ => sc_plan sc;
  py_repr := fun v => lit "<" ++ type_name v ++ lit ">";
  status_error_text := fun _ => lit "HTTP status error";
  AIPIPE_TOKEN := Some (lit "token");
  MY_SECRET := sc_secret sc;
  MY_EMAIL := sc_email sc;
  plan_system_prompt := lit "You are an automated HTML parser.";
  answer_system_prompt := fun q => lit "You are a specialist bot. Question: " ++ q
|}.

Definition checks : NetlocChecks := {|
  bracketed_netloc_ok := fun _ => true;
  nfkc_netloc_ok := fun _ => true
|}.

Definition refused : exn := Exn (OtherError (lit "ConnectError")) (lit "connection refused").

(** The end-to-end scenario of the secret-code page: no data file, the
    answer [29172], and a grader that accepts it and names no next page. *)
Definition secret_code : scenario := {|
  sc_clock := List.map PyFloat.of_Z [1000; 1001; 1030];
  sc_goto := inr tt;
  sc_page := lit "<html>Q. Get the secret code from this page. POST to /submit</html>";
  sc_plan_response := inr (completion (PStr (lit "{...}")));
  sc_plan := inr (PDict (dict_of
    [kv "question" (PStr (lit "Q. Get the secret code from this page."));
     kv "data_url" PNone;
     kv "analysis_plan" (PStr (lit "Get the secret code."));
     kv "submit_url" (PStr (lit "/submit"))]));
  sc_answer_response := inr (completion (PStr (lit "29172")));
  sc_download := inl refused;
  sc_write := inr tt;
  sc_pdf := inr [];
  sc_csv := inr [];
  sc_submit := inr (Response 200 []
    (inr (PDict (dict_of [kv "correct" (PBool true); kv "url" PNone]))));
  sc_secret := Some (lit "s3cret");
  sc_email := Some (lit "me@example.org")
|}.


(** The same scenario with a browser that fails to load the page. *)
Definition with_goto (r : exn + unit) (sc : scenario) : scenario := {|
  sc_clock := sc_clock sc;
  sc_goto := r; sc_page := sc_page sc;
  sc_plan_response := sc_plan_response sc; sc_plan := sc_plan sc;
  sc_answer_response := sc_answer_response sc;
  sc_download := sc_download sc; sc_write := sc_write sc;
  sc_pdf := sc_pdf sc; sc_csv := sc_csv sc;
  sc_submit := sc_submit sc;
  sc_secret := sc_secret sc; sc_email := sc_email sc
|}.

(** The same scenario with another plan from the completion service. *)
Definition with_plan (plan : list (string * pyval)) (sc : scenario) : scenario := {|
  sc_clock := sc_clock sc;
  sc_goto := sc_goto sc; sc_page := sc_page sc;
  sc_plan_response := sc_plan_response sc;
  sc_plan := inr (PDict (dict_of plan));
  sc_answer_response := sc_answer_response sc;
  sc_download := sc_download sc; sc_write := sc_write sc;
  sc_pdf := sc_pdf sc; sc_csv := sc_csv sc;
  sc_submit := sc_submit sc;
  sc_secret := sc_secret sc; sc_email := sc_email sc
|}.

(** The same scenario with another download and other extractors. *)
Definition with_download (download : exn + response) (pdf : exn + list pystr)
    (csv : exn + pystr) (sc : scenario) : scenario := {|
  sc_clock := sc_clock sc;
  sc_goto := sc_goto sc; sc_page := sc_page sc;
  sc_plan_response := sc_plan_response sc; sc_plan := sc_plan sc;
  sc_answer_response := sc_answer_response sc;
  sc_download := download; sc_write := sc_write sc;
  sc_pdf := pdf; sc_csv := csv;
  sc_submit := sc_submit sc;
  sc_secret := sc_secret sc; sc_email := sc_email sc
|}.

(** The same scenario with another answer of the grader. *)
Definition with_submit (r : exn + response) (sc : scenario) : scenario := {|
  sc_clock := sc_clock sc;
  sc_goto := sc_goto sc; sc_page := sc_page sc;
  sc_plan_response := sc_plan_response sc; sc_plan := sc_plan sc;
  sc_answer_response := sc_answer_response sc;
  sc_download := sc_download sc; sc_write := sc_write sc;
  sc_pdf := sc_pdf sc; sc_csv := sc_csv sc;
  sc_submit := r;
  sc_secret := sc_secret sc; sc_email := sc_email sc
|}.

Definition page_url : pyval := PStr (lit "https://h/p/q").

Definition T1000 : PyFloat.float := PyFloat.of_Z 1000.

(** A state of the scripted world: the clock position, nothing traced or
    queued yet. *)
Definition initial (sc : scenario) (w : nat) : @state (outside sc) :=
  @State (outside sc) (At w false) [] [].

(** The states a turn on [page_url] goes through when it begins at the
    second clock reading: after the timeout check, after the Content
    Fetcher, after the Plan Resolver, after the data step and after the
    Answer Resolver. *)
Definition started (sc : scenario) : @state (outside sc) :=
  @log (outside sc) [EvPrint LogNewTask; EvPrint (LogProcessing page_url)]
    (@set_world (outside sc) (At 2 false)
       (@log (outside sc) [EvIO Time] (initial sc 1))).

Definition fetched (sc : scenario) : @state (outside sc) :=
  snd (@scrape_page_content (outside sc) page_url (started sc)).

Definition planned (sc : scenario) : @state (outside sc) :=
  snd (@get_plan_from_llm (outside sc) (sc_page sc) (fetched sc)).

Definition the_plan (sc : scenario) : gmap pystr pyval :=
  match sc_plan sc with inr (PDict d) => d | _ => ∅ end.

Definition the_question (sc : scenario) : pyval :=
  dict_get (the_plan sc) (lit "question").

Definition resolved (sc : scenario) (key : string) : pyval :=
  match @resolve_url checks page_url (dict_get (the_plan sc) (lit key)) with
  | inr u => u
  | inl _ => PNone
  end.

Definition acquisition (sc : scenario) : (exn + pystr) * @state (outside sc) :=
  @acquire_data (outside sc) (sc_page sc) (resolved sc "data_url")
    (@log (outside sc) [EvPrint (LogPlanReceived (the_question sc))] (planned sc)).

Definition the_context (sc : scenario) : pystr :=
  match fst (acquisition sc) with inr c => c | inl _ => [] end.

Definition answering (sc : scenario) : (exn + pyval) * @state (outside sc) :=
  @get_answer_from_llm (outside sc) (the_question sc) (the_context sc)
    (snd (acquisition sc)).

Definition the_answer (sc : scenario) : pyval :=
  match fst (answering sc) with inr a => a | inl _ => PNone end.

Definition answered (sc : scenario) : @state (outside sc) :=
  @log (outside sc) [EvPrint (LogFinalAnswer (the_answer sc))] (snd (answering sc)).

End Demo.

(** ** Vocabulary of the properties *)

(** Classes of events. *)
Definition is_answer_call (ev : event) : Prop :=
  match ev with EvCall (CallAnswer _ _) => True | _ => False end.

Definition is_plan_call (ev : event) : Prop :=
  match ev with EvCall (CallPlan _) => True | _ => False end.

Definition is_scrape_call (ev : event) : Prop :=
  match ev with EvCall (CallScrape _) => True | _ => False end.

(** A request to an HTTP endpoint by POST; the calls to the completion
    service are of this kind. *)
Definition is_post (ev : event) : Prop :=
  match ev with
  | EvIO op => match op with HttpPost _ _ _ _ => True | _ => False end
  | _ => False
  end.

Definition is_plan_failure (ev : event) : Prop :=
  match ev with EvPrint (LogPlanFailed _) => True | _ => False end.

Definition is_unexpected_error (ev : event) : Prop :=
  match ev with EvPrint LogUnexpected => True | _ => False end.

(** What the Content Fetcher can emit. *)
Definition scrape_event (ev : event) : Prop :=
  match ev with
  | EvCall (CallScrape _) => True
  | EvPrint (LogScraping _) | EvPrint (LogScrapeError _ _) => True
  | EvIO op =>
      match op with
      | PwStart | PwStop | PwLaunch | PwNewPage | PwGoto _ | PwContent | PwClose => True
      | _ => False
      end
  | _ => False
  end.

(** What the Plan Resolver can emit. *)
Definition plan_event (ev : event) : Prop :=
  match ev with
  | EvCall (CallPlan _) => True
  | EvPrint LogCallingPlanner | EvPrint (LogPlannerError _) => True
  | EvIO op => match op with HttpPost _ _ _ _ => True | _ => False end
  | _ => False
  end.

(** What the agent loop can emit once it holds a plan without an error. *)
Definition execute_event (ev : event) : Prop :=
  match ev with
  | EvCall (CallDownload _ _) | EvCall (CallPdf _) | EvCall (CallCsv _)
  | EvCall (CallAnswer _ _) => True
  | EvPrint m =>
      match m with
      | LogPlanReceived _ | LogDataUrl _ | LogFileFailed _ | LogFinalAnswer _
      | LogSubmitting _ | LogCorrect | LogQuizComplete | LogWrong _
      | LogEndedWrong | LogCallingAnswerer _ | LogAnswererError _
      | LogDownloading _ | LogReadingPdf _ | LogReadingCsv _ => True
      | _ => False
      end
  | EvIO op =>
      match op with
      | HttpPost _ _ _ _ | HttpGet _ | Makedirs _ | WriteFile _ _
      | PdfPages _ | CsvToString _ => True
      | _ => False
      end
  | _ => False
  end.

Section Vocabulary.
Context `{NetlocChecks} `{Outside}.

(** A computation only adds events, all of them in [P]. *)
Definition footprint {A} (P : event -> Prop) (c : M A) : Prop :=
  forall s, exists evs,
    st_trace (snd (c s)) = st_trace s ++ evs /\ Forall P evs.

(** The first thing a computation does is to emit [ev]. *)
Definition starts_with {A} (ev : event) (c : M A) : Prop :=
  forall s, exists rest, st_trace (snd (c s)) = st_trace s ++ ev :: rest.

(** The turn that begins in [s0] passes the timeout check and is about to
    fetch the page in [s1]. *)
Definition task_started (start_time : PyFloat.float) (current_url : pyval)
    (s0 s1 : state) : Prop :=
  exists now w,
    perform _ Time (st_world s0) = (inr now, w)
    /\ PyFloat.gt (PyFloat.sub now start_time) budget = false
    /\ s1 = log [EvPrint LogNewTask; EvPrint (LogProcessing current_url)]
              (set_world w (log [EvIO Time] s0)).

(** ... and the Content Fetcher has returned the page, not an error text,
    in [s2]. *)
Definition page_fetched (start_time : PyFloat.float) (current_url : pyval)
    (s0 : state) (page_context : pystr) (s2 : state) : Prop :=
  exists s1,
    task_started start_time current_url s0 s1
    /\ scrape_page_content current_url s1 = (inr page_context, s2)
    /\ startswith (lit "Error:") page_context = false.

(** ... and the Plan Resolver has returned [plan] in [s3]. *)
Definition plan_received (start_time : PyFloat.float) (current_url : pyval)
    (s0 : state) (page_context : pystr) (plan : gmap pystr pyval) (s3 : state)
  : Prop :=
  exists s2,
    page_fetched start_time current_url s0 page_context s2
    /\ get_plan_from_llm page_context s2 = (inr plan, s3).

(** ... the plan carries no error, its two URLs have been resolved, and
    the data context has been acquired in [s4]. *)
Definition data_acquired (start_time : PyFloat.float) (current_url : pyval)
    (s0 : state) (plan : gmap pystr pyval) (submit_url : pyval)
    (data_context : pystr) (s4 : state) : Prop :=
  exists page_context s3 data_url,
    plan_received start_time current_url s0 page_context plan s3
    /\ plan !! lit "error" = None
    /\ resolve_url current_url (dict_get plan (lit "data_url")) = inr data_url
    /\ resolve_url current_url (dict_get plan (lit "submit_url")) = inr submit_url
    /\ acquire_data page_context data_url
         (log [EvPrint (LogPlanReceived (dict_get plan (lit "question")))] s3)
       = (inr data_context, s4).

(** ... and the Answer Resolver has returned [final_answer]; the submission
    starts in [s5]. *)
Definition answer_computed (start_time : PyFloat.float) (current_url : pyval)
    (s0 : state) (submit_url final_answer : pyval) (s5 : state) : Prop :=
  exists plan data_context s4 s,
    data_acquired start_time current_url s0 plan submit_url data_context s4
    /\ get_answer_from_llm (dict_get plan (lit "question")) data_context s4
       = (inr final_answer, s)
    /\ s5 = log [EvPrint (LogFinalAnswer final_answer)] s.

(** The messages of step 6 for the grader's verdict [d]. *)
Definition verdict_messages (d : gmap pystr pyval) : list event :=
  let next_url := dict_get d (lit "url") in
  if py_eq_True (dict_get d (lit "correct")) then
    EvPrint LogCorrect
    :: (if truthy next_url then [] else [EvPrint LogQuizComplete])
  else
    EvPrint (LogWrong (dict_get d (lit "reason")))
    :: (if truthy next_url then [] else [EvPrint LogEndedWrong]).

(** The events a turn added. *)
Definition added (s s' : state) (evs : list event) : Prop :=
  st_trace s' = st_trace s ++ evs.

End Vocabulary.

(** ** Vocabulary of URL resolution *)

(** [c] does not occur in [s]. *)
Definition free (c : N) (s : pystr) : Prop := Forall (fun x => x <> c) s.

(** No tab, carriage return or line feed occurs in [s]. *)
Definition safe (s : pystr) : Prop := Forall (fun x => Url.is_unsafe x = false) s.

(** A scheme as [urlsplit] returns it: an ASCII letter, then scheme
    characters, all in lower case. *)
Definition valid_scheme (s : pystr) : Prop :=
  match s with [] => False | c :: _ => Url.is_ascii_alpha c = true end
  /\ Forall (fun c => Url.is_scheme_char c = true /\ Url.lower c = c) s.

(** The checks of [urlsplit] on a network location let it pass. *)
Definition netloc_passes `{NetlocChecks} (n : pystr) : bool :=
  let lb := contains 91 n in
  let rb := contains 93 n in
  negb (lb && negb rb || rb && negb lb)
  && negb (lb && rb && negb (bracketed_netloc_ok n))
  && negb (nonempty n && negb (Url.is_ascii n) && negb (nfkc_netloc_ok n)).

(** The slash [urlunsplit] puts before a path that follows a network
    location. *)
Definition lead (u : pystr) : pystr :=
  if nonempty u && negb (eqb (take 1 u) (lit "/")) then lit "/" ++ u else u.

(** Path and parameters as [urlunparse] puts them together. *)
Definition rejoin (p pa : pystr) : pystr :=
  if nonempty pa then p ++ lit ";" ++ pa else p.

(** The text after the last slash. *)
Definition last_segment (u : pystr) : pystr := snd (Url.rcut 47 u).

(** The URL [urlunsplit] writes for a non-empty network location. *)
Definition written (sch n u q f : pystr) : pystr :=
  (if nonempty sch then sch ++ lit ":" else [])
  ++ lit "//" ++ n ++ lead u
  ++ (if nonempty q then lit "?" ++ q else [])
  ++ (if nonempty f then lit "#" ++ f else []).

(** The segments of a relative reference, as [urljoin] lays them out, and
    the segments it resolves them to. *)
Definition segments_of (bpath path : pystr) : list pystr :=
  if eqb (take 1 path) (lit "/") then split 47 path
  else Url.filter_middle
         ((if nonempty (last_item (split 47 bpath)) then removelast (split 47 bpath)
           else split 47 bpath) ++ split 47 path).

Definition resolved_of (segments : list pystr) : list pystr :=
  if eqb (last_item segments) (lit ".") || eqb (last_item segments) (lit "..")
  then fold_left Url.resolve_step segments [] ++ [[]]
  else fold_left Url.resolve_step segments [].

(** What holds of every result of [urlparse], for a default scheme that is
    empty or valid. *)
Record parsed `{NetlocChecks} (r : Url.ParseResult) : Prop := {
  parsed_scheme : Url.scheme r = [] \/ valid_scheme (Url.scheme r);
  parsed_netloc :
    Forall (fun c => Url.is_netloc_delim c = false) (Url.netloc r)
    /\ safe (Url.netloc r) /\ netloc_passes (Url.netloc r) = true;
  parsed_path :
    free 63 (Url.path r) /\ free 35 (Url.path r) /\ safe (Url.path r);
  parsed_params :
    free 47 (Url.params r) /\ free 63 (Url.params r) /\ free 35 (Url.params r)
    /\ safe (Url.params r);
  parsed_query : free 35 (Url.query r) /\ safe (Url.query r);
  parsed_fragment : safe (Url.fragment r);
  parsed_split :
    if Url.in_list (Url.scheme r) Url.uses_params
    then free 59 (last_segment (Url.path r))
    else Url.params r = []
}.

(** The URL a download is asked for, and the URL a submission is posted
    to (the POST with the timeout of 30 seconds). *)
Definition download_target (ev : event) : option pyval :=
  match ev with
  | EvCall (CallDownload u _) => Some u
  | _ => None
  end.

Definition submission_target (ev : event) : option pyval :=
  match ev with
  | EvIO op =>
      match op with
      | HttpPost u _ _ timeout => if timeout =? 30 then Some u else None
      | _ => None
      end
  | _ => None
  end.

(** ** [generate_visualization] of solver/tools.py *)

(** [base64.b64encode(data).decode('utf-8')]: the standard alphabet, three
    bytes to four characters, padded with [=]. *)
Module Base64.

(** The character of a six-bit value. *)
Definition digit (n : N) : N :=
  (if n <? 26 then n + 65
   else if n <? 52 then n + 71
   else if n <? 62 then n - 4
   else if n =? 62 then 43 else 47)%N.

Fixpoint encode (data : list Byte.byte) : pystr :=
  match data with
  | [] => []
  | [a] =>
      let a := Byte.to_N a in
      [digit (a / 4); digit (a mod 4 * 16); 61; 61]%N
  | [a; b] =>
      let a := Byte.to_N a in
      let b := Byte.to_N b in
      [digit (a / 4); digit (a mod 4 * 16 + b / 16); digit (b mod 16 * 4); 61]%N
  | a :: b :: c :: rest =>
      let a := Byte.to_N a in
      let b := Byte.to_N b in
      let c := Byte.to_N c in
      [digit (a / 4); digit (a mod 4 * 16 + b / 16);
       digit (b mod 16 * 4 + c / 64); digit (c mod 64)]%N
      ++ encode rest
  end.

End Base64.

(** The requests of the chart to [matplotlib]. *)
Inductive plot_io : Type -> Type :=
  (** [fig, ax = plt.subplots()] *)
  | PltSubplots : plot_io unit
  (** [ax.bar(keys, values)] *)
  | AxBar (keys values : list pyval) : plot_io unit
  (** [ax.set_title(...)], [ax.set_ylabel(...)] *)
  | AxSetTitle (text : pystr) : plot_io unit
  | AxSetYlabel (text : pystr) : plot_io unit
  (** [plt.savefig(buf, format='png')] into a fresh [BytesIO], and the
      bytes [buf.getvalue()] then holds *)
  | PltSavefigPng : plot_io (list Byte.byte)
  (** [plt.close(fig)] *)
  | PltClose : plot_io unit.

Class Plotting := {
  canvas : Type;
  plot : forall T, plot_io T -> canvas -> (exn + T) * canvas
}.

Inductive plot_msg :=
  | LogGenerating              (* Generating visualization... *)
  | LogChartError (e : exn).   (* Error generating chart: {e} *)

Inductive plot_event :=
  | PlotIO {T : Type} (op : plot_io T)
  | PlotPrint (m : plot_msg).

(** The monad of the chart: the state of the plotting library, the trace,
    exceptions. *)
Module Plot.
Section Plot.
Context `{Plotting}.

Record state := State {
  st_canvas : canvas;
  st_trace : list plot_event
}.

Definition M (A : Type) : Type := state -> (exn + A) * state.

Definition ret {A} (a : A) : M A := fun s => (inr a, s).

Definition bind {A B} (c : M A) (k : A -> M B) : M B :=
  fun s => match c s with
           | (inr a, s') => k a s'
           | (inl e, s') => (inl e, s')
           end.

Definition try_ {A} (c : M A) (h : exn -> M A) : M A :=
  fun s => match c s with
           | (inr a, s') => (inr a, s')
           | (inl e, s') => h e s'
           end.

Definition print (m : plot_msg) : M unit :=
  fun s => (inr tt, State (st_canvas s) (st_trace s ++ [PlotPrint m])).

Definition call {T} (op : plot_io T) : M T :=
  fun s => let '(r, c) := plot T op (st_canvas s) in
           (r, State c (st_trace s ++ [PlotIO op])).

End Plot.
End Plot.

Declare Scope plot_scope.
Delimit Scope plot_scope with plot.
Notation "x <- c1 ;; c2" := (Plot.bind c1 (fun x => c2))
  (at level 100, c1 at next level, right associativity) : plot_scope.
Notation "c1 ;; c2" := (Plot.bind c1 (fun _ => c2))
  (at level 100, right associativity) : plot_scope.

(** The argument is the dict as the sequence of its items, in the order
    [keys()] and [values()] list them. *)
Definition generate_visualization `{Plotting} (data_dict : list (pyval * pyval))
  : Plot.M pystr :=
  (Plot.print LogGenerating;;
   Plot.try_
     (let keys := List.map fst data_dict in
      let values := List.map snd data_dict in
      Plot.call PltSubplots;;
      Plot.call (AxBar keys values);;
      Plot.call (AxSetTitle (lit "Analysis Result"));;
      Plot.call (AxSetYlabel (lit "Value"));;
      png <- Plot.call PltSavefigPng;;
      let img_base64 := Base64.encode png in
      Plot.call PltClose;;
      Plot.ret img_base64)
     (fun e =>
        Plot.print (LogChartError e);;
        Plot.ret (lit "Error: " ++ exn_str e)))%plot.

(** A scripted plotting library: each request answers as the script says. *)
Module DemoPlot.

Record script := {
  sp_bar : exn + unit;
  sp_png : exn + list Byte.byte
}.

Definition plotting (sp : script) : Plotting := {|
  canvas := unit;
  plot := fun T (op : plot_io T) (c : unit) =>
    match op in plot_io T return (exn + T) * unit with
    | PltSubplots | AxSetTitle _ | AxSetYlabel _ | PltClose => (inr tt, c)
    | AxBar _ _ => (sp_bar sp, c)
    | PltSavefigPng => (sp_png sp, c)
    end
|}.

End DemoPlot.

(** What the chart asks of the plotting library. *)
Definition is_plot_close (ev : plot_event) : Prop :=
  match ev with
  | PlotIO op => match op with PltClose => True | _ => False end
  | _ => False
  end.

(** ** Vocabulary of the further properties *)

(** A request that never raises in this world. *)
Definition reliable `{Outside} {T} (op : io T) : Prop :=
  forall w, exists t w', perform T op w = (inr t, w').

Definition is_close (ev : event) : bool :=
  match ev with
  | EvIO op => match op with PwClose => true | _ => false end
  | _ => false
  end.

Definition is_clock_reading (ev : event) : Prop :=
  match ev with
  | EvIO op => match op with Time => True | _ => False end
  | _ => False
  end.

(** The body of a submission (the POST with the timeout of 30 seconds). *)
Definition submission_body (ev : event) : option pyval :=
  match ev with
  | EvIO op =>
      match op with
      | HttpPost _ _ body timeout => if timeout =? 30 then Some body else None
      | _ => None
      end
  | _ => None
  end.

(** Where a POST goes and the headers it carries. *)
Definition post_headers (ev : event) : option (pyval * gmap pystr pystr) :=
  match ev with
  | EvIO op =>
      match op with
      | HttpPost url headers _ _ => Some (url, headers)
      | _ => None
      end
  | _ => None
  end.

(** What a turn on [current_url] can emit after its reading of the clock:
    no other reading of the clock, and of POSTs only those to the
    completion service and the submission of the turn. *)
Definition turn_event `{Outside} (email secret : pystr) (current_url : pyval)
    (ev : event) : Prop :=
  match ev with
  | EvIO op =>
      match op with
      | Time => False
      | HttpPost url headers body timeout =>
          (url = PStr AIPIPE_URL /\ headers = llm_headers /\ timeout = 60)
          \/ (headers = ∅ /\ timeout = 30
              /\ exists answer,
                   body = submission_payload email secret current_url answer)
      | _ => True
      end
  | _ => True
  end.

(** What a run can emit. *)
Definition run_event `{Outside} (email secret : pystr) (ev : event) : Prop :=
  is_clock_reading ev \/ exists current_url, turn_event email secret current_url ev.

(** [BackgroundTasks] at work: after the response it calls the function it
    was handed with the arguments it was handed. *)
Definition run_task `{NetlocChecks} `{Outside} (fuel : nat) (t : task) : M loop_end :=
  match t with
  | RunQuizSolver email secret url => run_quiz_solver_background fuel email secret url
  end.

(** The scripted world without the configured secret. *)
Definition unconfigured : Demo.scenario := {|
  Demo.sc_clock := Demo.sc_clock Demo.secret_code;
  Demo.sc_goto := Demo.sc_goto Demo.secret_code;
  Demo.sc_page := Demo.sc_page Demo.secret_code;
  Demo.sc_plan_response := Demo.sc_plan_response Demo.secret_code;
  Demo.sc_plan := Demo.sc_plan Demo.secret_code;
  Demo.sc_answer_response := Demo.sc_answer_response Demo.secret_code;
  Demo.sc_download := Demo.sc_download Demo.secret_code;
  Demo.sc_write := Demo.sc_write Demo.secret_code;
  Demo.sc_pdf := Demo.sc_pdf Demo.secret_code;
  Demo.sc_csv := Demo.sc_csv Demo.secret_code;
  Demo.sc_submit := Demo.sc_submit Demo.secret_code;
  Demo.sc_secret := None;
  Demo.sc_email := Demo.sc_email Demo.secret_code
|}.


(** The scripted world with a browser that does not start. *)
Definition no_browser (sc : Demo.scenario) : Outside := {|
  world := Demo.demo_world;
  perform := fun T (op : io T) (w : Demo.demo_world) =>
    match op in io T return (exn + T) * Demo.demo_world with
    | PwLaunch => (inl Demo.refused, w)
    | op' => Demo.demo_perform sc _ op' w
    end;
  json_loads := @json_loads (Demo.outside sc);
  py_repr := @py_repr (Demo.outside sc);
  status_error_text := @status_error_text (Demo.outside sc);
  AIPIPE_TOKEN := @AIPIPE_TOKEN (Demo.outside sc);
  MY_SECRET := @MY_SECRET (Demo.outside sc);
  MY_EMAIL := @MY_EMAIL (Demo.outside sc);
  plan_system_prompt := @plan_system_prompt (Demo.outside sc);
  answer_system_prompt := @answer_system_prompt (Demo.outside sc)
|}.

(** Kinds of requests a turn makes. *)
Definition is_page_load (ev : event) : bool :=
  match ev with
  | EvIO op => match op with PwGoto _ => true | _ => false end
  | _ => false
  end.

Definition is_download (ev : event) : bool :=
  match ev with
  | EvIO op => match op with HttpGet _ => true | _ => false end
  | _ => false
  end.

(** The POSTs to the completion service have the timeout of 60 seconds,
    the submissions that of 30 seconds. *)
Definition is_completion (ev : event) : bool :=
  match ev with
  | EvIO op => match op with HttpPost _ _ _ timeout => timeout =? 60 | _ => false end
  | _ => false
  end.

Definition is_submission (ev : event) : bool :=
  match ev with
  | EvIO op => match op with HttpPost _ _ _ timeout => timeout =? 30 | _ => false end
  | _ => false
  end.

(** A computation only adds events, at most [n] of them in [Q]. *)
Definition at_most `{Outside} {A} (Q : event -> bool) (n : nat) (c : M A) : Prop :=
  forall s, exists evs,
    st_trace (snd (c s)) = st_trace s ++ evs
    /\ (length (List.filter Q evs) <= n)%nat.

(** * Properties *)

(** ** Answer normalisation *)

Lemma of_decimal_error (s : pystr) (e : exn) :
  PyFloat.of_decimal s = inl e -> is_ValueError e = true.
Proof.
  unfold PyFloat.of_decimal.
  destruct (cut 46 s) as [ip r].
  destruct (_ && _); [discriminate|].
  intros [= <-]. reflexivity.
Qed.

Lemma normalize_answer_str (raw : pystr) :
  normalize_answer (PStr raw) =
  let answer := strip raw in
  if negb (nonempty answer) || eqb answer SENTINEL then inr (PStr SENTINEL)
  else if nonempty (clean_answer answer) then
    match PyFloat.of_decimal (clean_answer answer) with
    | inl e => if is_ValueError e then inr (PStr answer) else inl e
    | inr f =>
        match PyFloat.to_int f with
        | inl e => if is_ValueError e then inr (PStr answer) else inl e
        | inr z => inr (PInt z)
        end
    end
  else inr (PStr answer).
Proof. reflexivity. Qed.

Lemma nonempty_false (s : pystr) : nonempty s = false <-> s = [].
Proof. destruct s; simpl; split; congruence. Qed.

Lemma eqb_true (a b : pystr) : eqb a b = true <-> a = b.
Proof. unfold eqb. apply bool_decide_eq_true. Qed.

Lemma eqb_false (a b : pystr) : eqb a b = false <-> a <> b.
Proof. unfold eqb. apply bool_decide_eq_false. Qed.

(** C1 (as amended): the normalisation of a completion text.  The text is
    trimmed first.  If the trimmed text is empty or is the sentinel, the
    result is the sentinel.  Otherwise every character other than an ASCII
    digit or a dot is removed; if what remains is a float literal whose
    float has an integer part, that integer is the result (so "29172" gives
    29172 and "The sum is 450123." gives 450123); if nothing remains or the
    rest is no float literal, the result is the trimmed text (so "unknown"
    comes back as it is). *)
Theorem C1_answer_normalization (raw : pystr) :
  let answer := strip raw in
  let cleaned := clean_answer answer in
  (answer = [] \/ answer = SENTINEL ->
   normalize_answer (PStr raw) = inr (PStr SENTINEL))
  /\ (answer <> [] -> answer <> SENTINEL ->
      (forall f z,
          cleaned <> [] ->
          PyFloat.of_decimal cleaned = inr f -> PyFloat.to_int f = inr z ->
          normalize_answer (PStr raw) = inr (PInt z))
      /\ (cleaned = [] \/ (exists e, PyFloat.of_decimal cleaned = inl e) ->
          normalize_answer (PStr raw) = inr (PStr answer)))
  /\ normalize_answer (PStr (lit "29172")) = inr (PInt 29172)
  /\ normalize_answer (PStr (lit "The sum is 450123.")) = inr (PInt 450123)
  /\ normalize_answer (PStr (lit "ANSWER_NOT_FOUND")) = inr (PStr SENTINEL)
  /\ normalize_answer (PStr (lit "unknown")) = inr (PStr (lit "unknown")).
Proof.
  intros answer cleaned. rewrite normalize_answer_str. fold answer. cbv zeta.
  fold cleaned.
  split; [|split; [|repeat split; vm_compute; reflexivity]].
  - intros [He | Hs].
    + rewrite He. reflexivity.
    + apply eqb_true in Hs. rewrite Hs, orb_true_r. reflexivity.
  - intros Hne Hns.
    assert (Hg : negb (nonempty answer) || eqb answer SENTINEL = false).
    { apply orb_false_iff. split.
      - destruct answer; [congruence | reflexivity].
      - apply eqb_false. exact Hns. }
    rewrite Hg. split.
    + intros f z Hc Hf Hz.
      destruct cleaned; [congruence|]. simpl nonempty. cbv iota.
      rewrite Hf, Hz. reflexivity.
    + intros [Hc | [e He]].
      * rewrite Hc. reflexivity.
      * destruct (nonempty cleaned); [|reflexivity].
        rewrite He, (of_decimal_error _ _ He). reflexivity.
Qed.

Lemma C1_answer_normalization_witness :
  normalize_answer (PStr (lit "  The sum is 450123.  ")) = inr (PInt 450123)
  /\ normalize_answer (PStr (lit " version 1.2.3 ")) = inr (PStr (lit "version 1.2.3")).
Proof.
  pose proof (C1_answer_normalization (lit "  The sum is 450123.  ")) as H1.
  pose proof (C1_answer_normalization (lit " version 1.2.3 ")) as H2.
  cbv zeta in H1, H2.
  destruct H1 as (_ & H1 & _). destruct H2 as (_ & H2 & _).
  split.
  - refine (proj1 (H1 _ _) (PyFloat.of_Z 450123) 450123 _ _ _);
      vm_compute; try reflexivity; discriminate.
  - refine (proj2 (H2 _ _) _); [vm_compute; discriminate .. |].
    right. eexists. vm_compute. reflexivity.
Defined.

(** C1 as stated fails where it says that the original text comes back
    unmodified: the text that comes back has been trimmed. *)
Lemma C1_raw_text_is_trimmed :
  let raw := lit " unknown" in
  strip raw <> [] /\ strip raw <> SENTINEL
  /\ clean_answer (strip raw) = []
  /\ normalize_answer (PStr raw) <> inr (PStr raw).
Proof. vm_compute. repeat split; discriminate. Qed.

(** A text of more than 308 digits has the float infinity, which [int]
    refuses with an [OverflowError]; the [except ValueError] lets it
    through. *)
Example normalize_answer_overflow :
  normalize_answer (PStr (repeat 57%N 400))
  = inl (Exn OverflowError (lit "cannot convert float infinity to integer")).
Proof. vm_compute. reflexivity. Qed.

(** ** The monad and its traces *)

Section MonadFacts.
Context `{Outside}.

Lemma log_log (a b : list event) (s : state) : log b (log a s) = log (a ++ b) s.
Proof. unfold log. simpl. rewrite <- app_assoc. reflexivity. Qed.

Lemma log_set_world (a : list event) (w : world) (s : state) :
  log a (set_world w s) = set_world w (log a s).
Proof. reflexivity. Qed.

Lemma bind_ok {A B} (c : M A) (k : A -> M B) s a s' :
  c s = (inr a, s') -> bind c k s = k a s'.
Proof. unfold bind. intros ->. reflexivity. Qed.

Lemma bind_raise {A B} (c : M A) (k : A -> M B) s e s' :
  c s = (inl e, s') -> bind c k s = (inl e, s').
Proof. unfold bind. intros ->. reflexivity. Qed.

Lemma try_ok {A} (c : M A) h s a s' :
  c s = (inr a, s') -> try_ c h s = (inr a, s').
Proof. unfold try_. intros ->. reflexivity. Qed.

Lemma try_raise {A} (c : M A) h s e s' :
  c s = (inl e, s') -> try_ c h s = h e s'.
Proof. unfold try_. intros ->. reflexivity. Qed.

Lemma print_run (m : log_msg) s : print m s = (inr tt, log [EvPrint m] s).
Proof. reflexivity. Qed.

Lemma mark_run (c : call_mark) s : mark c s = (inr tt, log [EvCall c] s).
Proof. reflexivity. Qed.

Lemma call_run {T} (op : io T) s r w :
  perform T op (st_world s) = (r, w) ->
  call op s = (r, set_world w (log [EvIO op] s)).
Proof. unfold call. intros ->. reflexivity. Qed.

Lemma footprint_weaken {A} (P Q : event -> Prop) (c : M A) :
  (forall ev, P ev -> Q ev) -> footprint P c -> footprint Q c.
Proof.
  intros HPQ Hc s. destruct (Hc s) as (evs & Ht & Hall).
  exists evs. split; [exact Ht|]. eapply Forall_impl; eauto.
Qed.

Lemma footprint_ret {A} P (a : A) : footprint P (ret a).
Proof. intros s. exists []. simpl. rewrite app_nil_r. auto. Qed.

Lemma footprint_raise {A} P e : footprint P (raise (A:=A) e).
Proof. intros s. exists []. simpl. rewrite app_nil_r. auto. Qed.

Lemma footprint_lift {A} P (r : exn + A) : footprint P (lift r).
Proof. intros s. exists []. simpl. rewrite app_nil_r. auto. Qed.

Lemma footprint_emit P ev : P ev -> footprint P (emit ev).
Proof. intros Hp s. exists [ev]. simpl. auto. Qed.

Lemma footprint_call {T} P (op : io T) : P (EvIO op) -> footprint P (call op).
Proof.
  intros Hp s. exists [EvIO op]. unfold call.
  destruct (perform T op (st_world s)). simpl. auto.
Qed.

Lemma footprint_bind {A B} P (c : M A) (k : A -> M B) :
  footprint P c -> (forall a, footprint P (k a)) -> footprint P (bind c k).
Proof.
  intros Hc Hk s. unfold bind.
  destruct (Hc s) as (e1 & Ht1 & Hp1).
  destruct (c s) as [[e | a] s1]; simpl in *.
  - exists e1. auto.
  - destruct (Hk a s1) as (e2 & Ht2 & Hp2).
    exists (e1 ++ e2). rewrite Ht2, Ht1, app_assoc.
    split; [reflexivity | apply Forall_app; auto].
Qed.

Lemma footprint_try {A} P (c : M A) h :
  footprint P c -> (forall e, footprint P (h e)) -> footprint P (try_ c h).
Proof.
  intros Hc Hh s. unfold try_.
  destruct (Hc s) as (e1 & Ht1 & Hp1).
  destruct (c s) as [[e | a] s1]; simpl in *.
  - destruct (Hh e s1) as (e2 & Ht2 & Hp2).
    exists (e1 ++ e2). rewrite Ht2, Ht1, app_assoc.
    split; [reflexivity | apply Forall_app; auto].
  - exists e1. auto.
Qed.

Lemma footprint_with {A} P enter leave (body : M A) :
  footprint P enter -> footprint P leave -> footprint P body ->
  footprint P (with_ enter leave body).
Proof.
  intros He Hl Hb s. unfold with_.
  destruct (He s) as (e1 & Ht1 & Hp1).
  destruct (enter s) as [[e | []] s1]; simpl in *.
  - exists e1. auto.
  - destruct (Hb s1) as (e2 & Ht2 & Hp2).
    destruct (body s1) as [r s2]; simpl in *.
    destruct (Hl s2) as (e3 & Ht3 & Hp3).
    exists (e1 ++ e2 ++ e3).
    split.
    + destruct (leave s2) as [[e | []] s3]; simpl in *;
        rewrite Ht3, Ht2, Ht1, <- !app_assoc; reflexivity.
    + repeat (apply Forall_app; split); auto.
Qed.

Lemma starts_with_emit {A} ev (k : unit -> M A) :
  footprint (fun _ => True) (k tt) -> starts_with ev (bind (emit ev) k).
Proof.
  intros Hk s. destruct (Hk (log [ev] s)) as (rest & Ht & _).
  exists rest. unfold bind, emit. rewrite Ht. simpl.
  rewrite <- app_assoc. reflexivity.
Qed.

Lemma starts_with_bind {A B} ev (c : M A) (k : A -> M B) :
  starts_with ev c -> (forall a, footprint (fun _ => True) (k a)) ->
  starts_with ev (bind c k).
Proof.
  intros Hc Hk s. unfold bind. destruct (Hc s) as (r1 & Ht1).
  destruct (c s) as [[e | a] s1]; simpl in *.
  - exists r1. exact Ht1.
  - destruct (Hk a s1) as (r2 & Ht2 & _).
    exists (r1 ++ r2). rewrite Ht2, Ht1, <- app_assoc. reflexivity.
Qed.

Lemma starts_with_try {A} ev (c : M A) h :
  starts_with ev c -> (forall e, footprint (fun _ => True) (h e)) ->
  starts_with ev (try_ c h).
Proof.
  intros Hc Hh s. unfold try_. destruct (Hc s) as (r1 & Ht1).
  destruct (c s) as [[e | a] s1]; simpl in *.
  - destruct (Hh e s1) as (r2 & Ht2 & _).
    exists (r1 ++ r2). rewrite Ht2, Ht1, <- app_assoc. reflexivity.
  - exists r1. exact Ht1.
Qed.

End MonadFacts.

Ltac footprint_step :=
  match goal with
  | |- footprint _ (bind _ _) => apply footprint_bind; [|intros]
  | |- footprint _ (ret _) => apply footprint_ret
  | |- footprint _ (raise _) => apply footprint_raise
  | |- footprint _ (lift _) => apply footprint_lift
  | |- footprint _ (try_ _ _) => apply footprint_try; [|intros]
  | |- footprint _ (with_ _ _ _) => apply footprint_with
  | |- footprint _ (print _) => apply footprint_emit
  | |- footprint _ (mark _) => apply footprint_emit
  | |- footprint _ (call _) => apply footprint_call
  | |- footprint _ (if ?b then _ else _) => destruct b
  | |- footprint _ (match ?x with _ => _ end) => destruct x
  end.

Ltac footprint_auto := repeat footprint_step; try (simpl; tauto).

Section Footprints.
Context `{NetlocChecks} `{Outside}.

Lemma scrape_footprint P url :
  (forall ev, scrape_event ev -> P ev) ->
  footprint P (scrape_page_content url).
Proof.
  intros HP. apply (footprint_weaken scrape_event); [exact HP|].
  unfold scrape_page_content. footprint_auto.
Qed.

Lemma plan_footprint P page :
  (forall ev, plan_event ev -> P ev) ->
  footprint P (get_plan_from_llm page).
Proof.
  intros HP. apply (footprint_weaken plan_event); [exact HP|].
  unfold get_plan_from_llm, plan_attempt. footprint_auto.
Qed.

Lemma execute_footprint P email secret current_url page plan :
  (forall ev, execute_event ev -> P ev) ->
  footprint P (execute_plan email secret current_url page plan).
Proof.
  intros HP. apply (footprint_weaken execute_event); [exact HP|].
  unfold execute_plan, acquire_data, file_failed, answer_and_submit, submit_answer,
    process_result, extract_text, download_file, get_text_from_pdf,
    get_text_from_csv, get_answer_from_llm.
  footprint_auto.
Qed.

Lemma plan_and_execute_footprint email secret url page :
  footprint (fun _ => True) (plan_and_execute email secret url page).
Proof.
  unfold plan_and_execute. apply footprint_bind.
  - apply plan_footprint. auto.
  - intros plan. destruct (plan !! _); [footprint_auto|].
    apply execute_footprint. auto.
Qed.

Lemma unexpected_footprint e : footprint (fun _ => True) (unexpected e).
Proof. unfold unexpected. footprint_auto. Qed.

Lemma submit_answer_footprint email secret url submit_url final_answer :
  footprint (fun _ => True) (submit_answer email secret url submit_url final_answer).
Proof. unfold submit_answer, process_result. footprint_auto. Qed.

(** The Content Fetcher begins by recording its call. *)
Lemma scrape_starts url : starts_with (EvCall (CallScrape url)) (scrape_page_content url).
Proof. unfold scrape_page_content. apply starts_with_emit. footprint_auto. Qed.

(** The Answer Resolver begins by recording its call. *)
Lemma answer_starts question ctx :
  starts_with (EvCall (CallAnswer question ctx)) (get_answer_from_llm question ctx).
Proof. unfold get_answer_from_llm. apply starts_with_emit. footprint_auto. Qed.

End Footprints.

(** ** The loop and its turns *)

Section Loop.
Context `{NetlocChecks} `{Outside}.
Variables (email secret : pystr) (T0 : PyFloat.float).

Lemma quiz_loop_stop fuel url s :
  truthy url = false -> quiz_loop fuel email secret T0 url s = (inr Finished, s).
Proof. intros Hu. destruct fuel; simpl; rewrite Hu; reflexivity. Qed.

Lemma quiz_loop_break fuel url s s' :
  truthy url = true ->
  loop_body email secret T0 url s = (inr Break, s') ->
  quiz_loop (S fuel) email secret T0 url s = (inr Finished, s').
Proof. intros Hu Hb. simpl. rewrite Hu. unfold bind. rewrite Hb. reflexivity. Qed.

Lemma quiz_loop_continue fuel url s next s' :
  truthy url = true ->
  loop_body email secret T0 url s = (inr (Continue next), s') ->
  quiz_loop (S fuel) email secret T0 url s = quiz_loop fuel email secret T0 next s'.
Proof. intros Hu Hb. simpl. rewrite Hu. unfold bind at 1. rewrite Hb. reflexivity. Qed.


Lemma loop_body_started url s0 s1 :
  task_started T0 url s0 s1 ->
  loop_body email secret T0 url s0
  = try_ (attempt_task email secret url) unexpected s1.
Proof.
  intros (now & w & Hp & Hg & ->). unfold loop_body.
  rewrite (bind_ok _ _ _ _ _ (call_run Time s0 _ _ Hp)), Hg.
  unfold bind, print, emit. simpl. rewrite log_log. reflexivity.
Qed.

Lemma task_started_added url s0 s1 :
  task_started T0 url s0 s1 ->
  added s0 s1 [EvIO Time; EvPrint LogNewTask; EvPrint (LogProcessing url)].
Proof.
  intros (now & w & _ & _ & ->). unfold added. simpl.
  rewrite <- app_assoc. reflexivity.
Qed.

Lemma loop_body_fetched url s0 page s2 :
  page_fetched T0 url s0 page s2 ->
  loop_body email secret T0 url s0
  = try_ (plan_and_execute email secret url page) unexpected s2.
Proof.
  intros (s1 & Hs & Hf & He). rewrite (loop_body_started _ _ _ Hs).
  unfold try_, attempt_task. rewrite (bind_ok _ _ _ _ _ Hf), He. reflexivity.
Qed.

Lemma loop_body_planned url s0 page plan s3 :
  plan_received T0 url s0 page plan s3 ->
  loop_body email secret T0 url s0
  = try_ (match plan !! lit "error" with
          | Some err => print (LogPlanFailed err);; ret Break
          | None => execute_plan email secret url page plan
          end) unexpected s3.
Proof.
  intros (s2 & Hf & Hp). rewrite (loop_body_fetched _ _ _ _ Hf).
  unfold try_, plan_and_execute. rewrite (bind_ok _ _ _ _ _ Hp). reflexivity.
Qed.

(** The events between the start of a turn and the state in which the page
    is there are those of the preamble and of the Content Fetcher. *)
Lemma page_fetched_added url s0 page s2 :
  page_fetched T0 url s0 page s2 ->
  exists evs, added s0 s2 evs
    /\ Forall (fun ev => scrape_event ev \/ In ev [EvIO Time; EvPrint LogNewTask;
                                                  EvPrint (LogProcessing url)]) evs.
Proof.
  intros (s1 & Hs & Hf & _).
  destruct (scrape_footprint scrape_event url (fun _ h => h) s1) as (evs & Ht & Hall).
  rewrite Hf in Ht. simpl in Ht.
  pose proof (task_started_added _ _ _ Hs) as Ha. unfold added in *.
  eexists. split.
  - rewrite Ht, Ha, <- app_assoc. reflexivity.
  - apply Forall_app. split.
    + repeat (constructor; [right; simpl; auto|]). constructor.
    + eapply Forall_impl; [exact Hall | simpl; tauto].
Qed.

Lemma plan_received_added url s0 page plan s3 :
  plan_received T0 url s0 page plan s3 ->
  exists evs, added s0 s3 evs
    /\ Forall (fun ev => scrape_event ev \/ plan_event ev
                         \/ In ev [EvIO Time; EvPrint LogNewTask;
                                   EvPrint (LogProcessing url)]) evs.
Proof.
  intros (s2 & Hf & Hp).
  destruct (page_fetched_added _ _ _ _ Hf) as (e1 & Ha & Hall1).
  destruct (plan_footprint plan_event page (fun _ h => h) s2) as (e2 & Ht & Hall2).
  rewrite Hp in Ht. simpl in Ht. unfold added in *.
  exists (e1 ++ e2). split.
  - rewrite Ht, Ha, <- app_assoc. reflexivity.
  - apply Forall_app. split.
    + eapply Forall_impl; [exact Hall1 | simpl; tauto].
    + eapply Forall_impl; [exact Hall2 | simpl; tauto].
Qed.

End Loop.

(** ** The timeout *)

Section Timeout.
Context `{NetlocChecks} `{Outside}.

(** Within the budget a turn goes on to fetch the page. *)
Lemma proceeds_within_budget email secret T0 url s now w :
  perform _ Time (st_world s) = (inr now, w) ->
  PyFloat.gt (PyFloat.sub now T0) budget = false ->
  exists r s' rest,
    loop_body email secret T0 url s = (r, s')
    /\ added s s' ([EvIO Time; EvPrint LogNewTask; EvPrint (LogProcessing url);
                    EvCall (CallScrape url)] ++ rest).
Proof.
  intros Hp Hg.
  set (s1 := log [EvPrint LogNewTask; EvPrint (LogProcessing url)]
               (set_world w (log [EvIO Time] s))).
  assert (Hs : task_started T0 url s s1) by (exists now, w; auto).
  rewrite (loop_body_started email secret T0 url s s1 Hs).
  assert (Hst : starts_with (EvCall (CallScrape url))
                  (try_ (attempt_task email secret url) unexpected)).
  { apply starts_with_try; [|apply unexpected_footprint].
    unfold attempt_task. apply starts_with_bind; [apply scrape_starts|].
    intros page. destruct (startswith _ page); [footprint_auto|].
    apply plan_and_execute_footprint. }
  destruct (Hst s1) as (rest & Ht).
  destruct (try_ _ _ s1) as [r s']. simpl in Ht.
  exists r, s', rest. split; [reflexivity|].
  unfold added. rewrite Ht. unfold s1. simpl.
  rewrite <- !app_assoc. reflexivity.
Qed.


End Timeout.


(** ** Failures that end the run *)

Section Failures.
Context `{NetlocChecks} `{Outside}.

Lemma scrape_event_not_plan ev : scrape_event ev -> ~ is_plan_call ev /\ ~ is_post ev.
Proof.
  destruct ev as [T op | m | c]; simpl; [destruct op | destruct m | destruct c];
    simpl; tauto.
Qed.

Lemma scrape_event_not_answer ev : scrape_event ev -> ~ is_answer_call ev.
Proof. destruct ev as [T op | m | c]; simpl; [| | destruct c]; tauto. Qed.

Lemma plan_event_not_answer ev : plan_event ev -> ~ is_answer_call ev.
Proof. destruct ev as [T op | m | c]; simpl; [| | destruct c]; tauto. Qed.

(** C4: when the Content Fetcher returns a text that begins with "Error:",
    the turn ends by [break] with the scrape-failure message and the run
    finishes; among the events of the turn there is no call of the Plan
    Resolver and no request to the completion service. *)
Theorem C4_scrape_error_stops fuel email secret T0 url s0 s1 page s2 :
  truthy url = true ->
  task_started T0 url s0 s1 ->
  scrape_page_content url s1 = (inr page, s2) ->
  startswith (lit "Error:") page = true ->
  let s' := log [EvPrint (LogScrapeFailed page)] s2 in
  loop_body email secret T0 url s0 = (inr Break, s')
  /\ quiz_loop (S fuel) email secret T0 url s0 = (inr Finished, s')
  /\ exists evs, added s0 s' evs
       /\ Forall (fun ev => ~ is_plan_call ev /\ ~ is_post ev) evs.
Proof.
  intros Hu Hs Hf He s'.
  assert (Hb : loop_body email secret T0 url s0 = (inr Break, s')).
  { rewrite (loop_body_started _ _ _ _ _ _ Hs).
    unfold try_, attempt_task. rewrite (bind_ok _ _ _ _ _ Hf), He. reflexivity. }
  split; [exact Hb|]. split; [apply quiz_loop_break; assumption|].
  destruct (scrape_footprint scrape_event url (fun _ h => h) s1) as (evs & Ht & Hall).
  rewrite Hf in Ht. simpl in Ht.
  pose proof (task_started_added _ _ _ _ Hs) as Ha. unfold added in *.
  exists ([EvIO Time; EvPrint LogNewTask; EvPrint (LogProcessing url)]
          ++ evs ++ [EvPrint (LogScrapeFailed page)]).
  split.
  - unfold s'. simpl. rewrite Ht, Ha, <- !app_assoc. reflexivity.
  - apply Forall_app. split; [repeat constructor; simpl; tauto|].
    apply Forall_app. split; [|repeat constructor; simpl; tauto].
    eapply Forall_impl; [exact Hall | apply scrape_event_not_plan].
Qed.

(** The Plan Resolver on a completion whose JSON object has no usable
    [submit_url]. *)
Lemma get_plan_without_submit_url page s resp w content d :
  perform _ (HttpPost (PStr AIPIPE_URL) llm_headers (plan_payload page) 60) (st_world s)
  = (inr resp, w) ->
  is_success resp = true ->
  completion_content resp = inr content ->
  py_json_loads content = inr (PDict d) ->
  truthy (dict_get d (lit "submit_url")) = false ->
  let e := missing_submit_url (PDict d) in
  get_plan_from_llm page s
  = (inr {[ lit "error" := PStr (exn_str e) ]},
     log [EvPrint (LogPlannerError e)]
       (set_world w (log [EvCall (CallPlan page); EvPrint LogCallingPlanner;
                          EvIO (HttpPost (PStr AIPIPE_URL) llm_headers
                                  (plan_payload page) 60)] s))).
Proof.
  intros Hp Hok Hc Hj Ht e.
  unfold get_plan_from_llm, plan_attempt, raise_for_status.
  unfold bind at 1 2. simpl. unfold try_, bind, call, lift. simpl.
  rewrite Hp, Hok, Hc, Hj. simpl. rewrite Ht. simpl.
  unfold log, set_world. simpl. rewrite <- !app_assoc. reflexivity.
Qed.

(** C3: when the plan that comes back from the completion service has no
    [submit_url], or an empty one, the Plan Resolver returns the error
    marker, the turn ends by [break] with the planning-failure message, the
    run finishes, and no event of the turn is a call of the Answer
    Resolver. *)
Theorem C3_missing_submit_url fuel email secret T0 url s0 page s2 resp w content d :
  truthy url = true ->
  page_fetched T0 url s0 page s2 ->
  perform _ (HttpPost (PStr AIPIPE_URL) llm_headers (plan_payload page) 60) (st_world s2)
  = (inr resp, w) ->
  is_success resp = true ->
  completion_content resp = inr content ->
  py_json_loads content = inr (PDict d) ->
  (d !! lit "submit_url" = None \/ d !! lit "submit_url" = Some (PStr [])) ->
  exists msg s3,
    get_plan_from_llm page s2 = (inr {[ lit "error" := PStr msg ]}, s3)
    /\ let s' := log [EvPrint (LogPlanFailed (PStr msg))] s3 in
       loop_body email secret T0 url s0 = (inr Break, s')
       /\ quiz_loop (S fuel) email secret T0 url s0 = (inr Finished, s')
       /\ exists evs, added s0 s' evs /\ Forall (fun ev => ~ is_answer_call ev) evs.
Proof.
  intros Hu Hf Hp Hok Hc Hj Hd.
  assert (Ht : truthy (dict_get d (lit "submit_url")) = false).
  { unfold dict_get. destruct Hd as [-> | ->]; reflexivity. }
  pose proof (get_plan_without_submit_url page s2 resp w content d Hp Hok Hc Hj Ht) as Hg.
  cbv zeta in Hg.
  eexists _, _. split; [exact Hg|]. intros s'.
  assert (Hr : plan_received T0 url s0 page
                 {[ lit "error" := PStr (exn_str (missing_submit_url (PDict d))) ]}
                 (log [EvPrint (LogPlannerError (missing_submit_url (PDict d)))]
                    (set_world w (log [EvCall (CallPlan page); EvPrint LogCallingPlanner;
                          EvIO (HttpPost (PStr AIPIPE_URL) llm_headers
                                  (plan_payload page) 60)] s2))))
    by (exists s2; split; assumption).
  assert (Hb : loop_body email secret T0 url s0 = (inr Break, s')).
  { rewrite (loop_body_planned _ _ _ _ _ _ _ _ Hr), lookup_singleton_eq. reflexivity. }
  split; [exact Hb|]. split; [apply quiz_loop_break; assumption|].
  destruct (plan_received_added _ _ _ _ _ _ Hr) as (evs & Ha & Hall).
  exists (evs ++ [EvPrint (LogPlanFailed (PStr (exn_str (missing_submit_url (PDict d)))))]).
  unfold added in *. split.
  - unfold s'. simpl. simpl in Ha. rewrite Ha, <- !app_assoc. reflexivity.
  - apply Forall_app. split; [|repeat constructor; simpl; tauto].
    eapply Forall_impl; [exact Hall|]. intros ev [Hs | [Hpl | Hin]].
    + apply scrape_event_not_answer, Hs.
    + apply plan_event_not_answer, Hpl.
    + simpl in Hin. destruct Hin as [<- | [<- | [<- | []]]]; simpl; tauto.
Qed.

Lemma execute_event_not_plan_failure ev : execute_event ev -> ~ is_plan_failure ev.
Proof. destruct ev as [T op | m | c]; simpl; [| destruct m |]; tauto. Qed.

Lemma scrape_event_not_plan_failure ev : scrape_event ev -> ~ is_plan_failure ev.
Proof. destruct ev as [T op | m | c]; simpl; [| destruct m |]; tauto. Qed.

Lemma plan_event_not_plan_failure ev : plan_event ev -> ~ is_plan_failure ev.
Proof. destruct ev as [T op | m | c]; simpl; [| destruct m |]; tauto. Qed.

(** X31: the key "error" of the plan decides, in a turn all of whose messages
    the standard output takes: whatever dict the Plan Resolver returns, with
    a key "error" the turn ends by [break] right after the planning-failure
    message, whatever else the dict holds, a valid [submit_url] included,
    and the loop ends with it; without the key no event of the turn is that
    message, and the turn goes on with the plan. *)
Theorem error_key_decides fuel email secret T0 url s0 page plan s3 r s' evs :
  truthy url = true ->
  plan_received T0 url s0 page plan s3 ->
  loop_body email secret T0 url s0 = (r, s') ->
  added s0 s' evs ->
  printable evs = true ->
  (forall err, plan !! lit "error" = Some err ->
     r = inr Break
     /\ s' = log [EvPrint (LogPlanFailed err)] s3
     /\ quiz_loop (S fuel) email secret T0 url s0 = (inr Finished, s'))
  /\ (plan !! lit "error" = None ->
      Forall (fun ev => ~ is_plan_failure ev) evs
      /\ exists rest,
           st_trace s'
           = st_trace s3
             ++ EvPrint (LogPlanReceived (dict_get plan (lit "question"))) :: rest).
Proof.
  intros Hu Hr Hl Hadd _. split.
  - intros err He.
    assert (Hb : loop_body email secret T0 url s0
                 = (inr Break, log [EvPrint (LogPlanFailed err)] s3)).
    { rewrite (loop_body_planned _ _ _ _ _ _ _ _ Hr), He. reflexivity. }
    rewrite Hb in Hl. injection Hl as <- <-.
    split; [reflexivity|]. split; [reflexivity|].
    apply quiz_loop_break; assumption.
  - intros He. rewrite (loop_body_planned _ _ _ _ _ _ _ _ Hr), He in Hl.
    set (rest_of_turn :=
           try_ (bind (bind (ret tt) (fun _ => ret tt))
                   (fun _ =>
                      let question := dict_get plan (lit "question") in
                      let data_url := dict_get plan (lit "data_url") in
                      let submit_url := dict_get plan (lit "submit_url") in
                      data_url <- lift (resolve_url url data_url);;
                      submit_url <- lift (resolve_url url submit_url);;
                      data_context <- acquire_data page data_url;;
                      answer_and_submit email secret url question submit_url
                        data_context))
             unexpected).
    assert (Heq : try_ (execute_plan email secret url page plan) unexpected s3
                  = rest_of_turn
                      (log [EvPrint (LogPlanReceived (dict_get plan (lit "question")))] s3))
      by reflexivity.
    rewrite Heq in Hl.
    assert (Hfp : footprint (fun ev => execute_event ev \/ In ev [EvPrint LogUnexpected]
                                       \/ exists e, ev = EvPrint (LogError e))
                    rest_of_turn).
    { unfold rest_of_turn, unexpected. apply footprint_try.
      - apply (footprint_weaken execute_event); [tauto|].
        unfold acquire_data, file_failed, answer_and_submit, submit_answer,
          process_result, extract_text, download_file, get_text_from_pdf,
          get_text_from_csv, get_answer_from_llm.
        footprint_auto.
      - intros e. footprint_auto; simpl; eauto. }
    destruct (Hfp (log [EvPrint (LogPlanReceived (dict_get plan (lit "question")))] s3))
      as (rest & Ht & Hall).
    rewrite Hl in Ht. simpl in Ht.
    destruct (plan_received_added _ _ _ _ _ _ Hr) as (evs0 & Ha & Hall0).
    unfold added in *.
    assert (Hevs : evs
                   = evs0 ++ EvPrint (LogPlanReceived (dict_get plan (lit "question")))
                             :: rest).
    { apply (app_inv_head (st_trace s0)). rewrite <- Hadd, Ht, Ha, <- !app_assoc.
      reflexivity. }
    split.
    + rewrite Hevs. apply Forall_app. split.
      * eapply Forall_impl; [exact Hall0|]. intros ev [Hs | [Hpl | Hin]].
        -- apply scrape_event_not_plan_failure, Hs.
        -- apply plan_event_not_plan_failure, Hpl.
        -- simpl in Hin. destruct Hin as [<- | [<- | [<- | []]]]; simpl; tauto.
      * constructor; [simpl; tauto|].
        eapply Forall_impl; [exact Hall|]. intros ev [Hx | [Hin | [e ->]]].
        -- apply execute_event_not_plan_failure, Hx.
        -- simpl in Hin. destruct Hin as [<- | []]. simpl. tauto.
        -- simpl. tauto.
    + exists rest. rewrite Ht, <- app_assoc. reflexivity.
Qed.

End Failures.

(** ** The scripted world at work *)

Ltac by_computation := vm_compute; reflexivity.

Lemma demo_started (sc : Demo.scenario) (t : Z) :
  nth 1 (Demo.sc_clock sc) (S754_zero false) = PyFloat.of_Z t ->
  @PyFloat.gt (PyFloat.sub (PyFloat.of_Z t) Demo.T1000) budget = false ->
  @task_started (Demo.outside sc) Demo.T1000 Demo.page_url
    (Demo.initial sc 1) (Demo.started sc).
Proof.
  intros Ht Hg. exists (PyFloat.of_Z t), (Demo.At 2 false). split; [|split].
  - simpl. rewrite Ht. reflexivity.
  - exact Hg.
  - reflexivity.
Qed.

Ltac demo_started := apply (demo_started _ 1001); by_computation.

Ltac demo_fetched :=
  exists (Demo.started _); split; [demo_started | split; by_computation].

Ltac demo_planned :=
  exists (Demo.fetched _); split; [demo_fetched | by_computation].

Lemma C4_scrape_error_stops_witness :
  let sc := Demo.with_goto (inl Demo.refused) Demo.secret_code in
  exists s',
    @quiz_loop Demo.checks (Demo.outside sc) 3 [] [] Demo.T1000 Demo.page_url
      (Demo.initial sc 1) = (inr Finished, s')
    /\ Forall (fun ev => ~ is_plan_call ev /\ ~ is_post ev) (st_trace s').
Proof.
  intros sc.
  destruct (@C4_scrape_error_stops Demo.checks (Demo.outside sc) 2 [] []
               Demo.T1000 Demo.page_url (Demo.initial sc 1) (Demo.started sc)
               (scrape_error_prefix ++ lit "connection refused") (Demo.fetched sc))
    as (_ & Hq & evs & Ha & Hall).
  - reflexivity.
  - demo_started.
  - by_computation.
  - by_computation.
  - eexists. split; [exact Hq|]. rewrite Ha. exact Hall.
Defined.

Lemma C3_missing_submit_url_witness :
  let sc := Demo.with_plan [kv "question" (PStr (lit "Q. Get the secret code"));
                            kv "submit_url" (PStr [])] Demo.secret_code in
  exists s',
    @quiz_loop Demo.checks (Demo.outside sc) 3 [] [] Demo.T1000 Demo.page_url
      (Demo.initial sc 1) = (inr Finished, s')
    /\ Forall (fun ev => ~ is_answer_call ev) (st_trace s').
Proof.
  intros sc.
  destruct (@C3_missing_submit_url Demo.checks (Demo.outside sc) 2 [] []
               Demo.T1000 Demo.page_url (Demo.initial sc 1) (Demo.sc_page sc)
               (Demo.fetched sc) (Demo.completion (PStr (lit "{...}"))) (Demo.At 2 true)
               (PStr (lit "{...}")) (Demo.the_plan sc))
    as (msg & s3 & _ & _ & Hq & evs & Ha & Hall).
  - reflexivity.
  - demo_fetched.
  - by_computation.
  - by_computation.
  - by_computation.
  - by_computation.
  - right. by_computation.
  - eexists. split; [exact Hq|]. rewrite Ha. exact Hall.
Defined.

Lemma error_key_decides_witness :
  let sc := Demo.with_plan [kv "question" (PStr (lit "Q. Get the secret code"));
                            kv "submit_url" (PStr (lit "/submit"));
                            kv "error" (PStr (lit "none"))] Demo.secret_code in
  @quiz_loop Demo.checks (Demo.outside sc) 3 [] [] Demo.T1000 Demo.page_url
    (Demo.initial sc 1)
  = (inr Finished,
     log [EvPrint (LogPlanFailed (PStr (lit "none")))] (Demo.planned sc)).
Proof.
  intros sc.
  set (s' := log [EvPrint (LogPlanFailed (PStr (lit "none")))] (Demo.planned sc)).
  destruct (@error_key_decides Demo.checks (Demo.outside sc) 2 [] []
               Demo.T1000 Demo.page_url (Demo.initial sc 1) (Demo.sc_page sc)
               (Demo.the_plan sc) (Demo.planned sc) (inr Break) s' (st_trace s'))
    as [Hyes _].
  - reflexivity.
  - demo_planned.
  - by_computation.
  - reflexivity.
  - by_computation.
  - destruct (Hyes (PStr (lit "none"))) as (_ & _ & Hq); [by_computation|].
    exact Hq.
Defined.

(** ** The File Retriever *)

Section Download.
Context `{Outside}.

(** C10: the File Retriever does not look at the status of the response.
    Whenever the directory can be made, the GET returns a response and the
    file can be written, the body of the response, whatever its status
    code, is written to the path derived from the URL and that path is
    returned.  In the agent loop the data step then goes on to extract from
    the saved file, so a failure can only come from the extraction. *)
Theorem C10_download_ignores_status u save_path s w1 resp w2 w3 :
  perform _ (Makedirs save_path) (st_world s) = (inr tt, w1) ->
  perform _ (HttpGet u) w1 = (inr resp, w2) ->
  perform _ (WriteFile (download_filepath u save_path) (content resp)) w2 = (inr tt, w3) ->
  let filepath := download_filepath u save_path in
  let events :=
    [EvCall (CallDownload (PStr u) save_path); EvPrint (LogDownloading (PStr u));
     EvIO (Makedirs save_path); EvIO (HttpGet u);
     EvIO (WriteFile filepath (content resp))] in
  download_file (PStr u) save_path s = (inr filepath, set_world w3 (log events s))
  /\ (forall page,
        save_path = lit "temp_data" -> u <> [] ->
        acquire_data page (PStr u) s
        = try_ (extract_text filepath) file_failed
            (set_world w3 (log (EvPrint (LogDataUrl (PStr u)) :: events) s))).
Proof.
  intros Hm Hg Hw filepath events.
  assert (Hd : forall pre,
             download_file (PStr u) save_path (log pre s)
             = (inr filepath, set_world w3 (log (pre ++ events) s))).
  { intros pre. unfold download_file, bind, mark, print, emit, call.
    cbn [st_world log set_world st_trace st_tasks]. rewrite Hm.
    cbn [st_world log set_world st_trace st_tasks]. rewrite Hg.
    cbn [st_world log set_world st_trace st_tasks]. rewrite Hw.
    unfold ret, filepath, events, set_world, log.
    cbn [st_world st_trace st_tasks]. rewrite <- !app_assoc. reflexivity. }
  split.
  - specialize (Hd []). unfold log at 1 in Hd. simpl in Hd.
    rewrite app_nil_r in Hd. destruct s. exact Hd.
  - intros page -> Hu. unfold acquire_data.
    destruct u as [|c u']; [congruence|].
    change (truthy (PStr (c :: u'))) with true. cbv iota.
    rewrite (bind_ok _ _ _ _ _ (print_run _ _)).
    unfold try_. rewrite (bind_ok _ _ _ _ _ (Hd [EvPrint (LogDataUrl (PStr (c :: u')))])).
    reflexivity.
Qed.

End Download.

Lemma C10_download_ignores_status_witness :
  let sc := Demo.with_download
              (inr (Response 404 (lit "Not Found") (inl Demo.refused)))
              (inr []) (inr []) Demo.secret_code in
  @download_file (Demo.outside sc) (PStr (lit "https://h/p/data.csv?x=1"))
    (lit "temp_data") (Demo.initial sc 1)
  = (inr (lit "temp_data/data.csv"),
     @State (Demo.outside sc) (Demo.At 1 false)
       [EvCall (CallDownload (PStr (lit "https://h/p/data.csv?x=1")) (lit "temp_data"));
        EvPrint (LogDownloading (PStr (lit "https://h/p/data.csv?x=1")));
        EvIO (Makedirs (lit "temp_data"));
        EvIO (HttpGet (lit "https://h/p/data.csv?x=1"));
        EvIO (WriteFile (lit "temp_data/data.csv") (lit "Not Found"))] []).
Proof.
  intros sc.
  exact (proj1 (@C10_download_ignores_status (Demo.outside sc)
                  (lit "https://h/p/data.csv?x=1") (lit "temp_data")
                  (Demo.initial sc 1) (Demo.At 1 false)
                  (Response 404 (lit "Not Found") (inl Demo.refused))
                  (Demo.At 1 false) (Demo.At 1 false) eq_refl eq_refl eq_refl)).
Defined.

(** ** The trigger endpoint *)

Section Trigger.
Context `{Outside}.

(** C8: the trigger endpoint.  A payload whose secret or email differs from
    the configured value is refused with an [HTTPException] of status 403:
    with the detail "Invalid secret provided." when the secret differs, and
    with the detail "Invalid email provided." when the secret is right and
    the email differs.  Nothing is then added to the background tasks and no
    request is made.  A payload with both values right has the agent loop
    added to the background tasks, with the payload's three fields, and gets
    at once the reply with the two entries "status": "accepted" and
    "message": "Quiz task accepted and is processing in the background.",
    the same for every payload and every state of the world: the loop has
    not run, no request has been made, and the reply holds nothing of a
    quiz. *)
Theorem C8_trigger_authorization (payload : QuizPayload) (s : state) :
  (Some (p_secret payload) <> MY_SECRET \/ Some (p_email payload) <> MY_EMAIL ->
   exists e m,
     start_quiz payload s = (inl e, log [EvPrint m] s)
     /\ exn_cls e = HTTPException 403)
  /\ (Some (p_secret payload) <> MY_SECRET ->
      start_quiz payload s
      = (inl (Exn (HTTPException 403) (lit "403: Invalid secret provided.")),
         log [EvPrint (LogInvalidSecret (p_secret payload))] s))
  /\ (Some (p_secret payload) = MY_SECRET -> Some (p_email payload) <> MY_EMAIL ->
      start_quiz payload s
      = (inl (Exn (HTTPException 403) (lit "403: Invalid email provided.")),
         log [EvPrint (LogInvalidEmail (p_email payload))] s))
  /\ (Some (p_secret payload) = MY_SECRET -> Some (p_email payload) = MY_EMAIL ->
      exists reply,
        start_quiz payload s
        = (inr reply,
           State (st_world s)
             (st_trace s ++ [EvPrint (LogAccepted (p_email payload) (p_url payload))])
             (st_tasks s ++ [RunQuizSolver (p_email payload) (p_secret payload)
                               (p_url payload)]))
        /\ reply !! lit "status" = Some (PStr (lit "accepted"))
        /\ reply !! lit "message"
           = Some (PStr (lit "Quiz task accepted and is processing in the background."))
        /\ size reply = 2%nat).
Proof.
  unfold start_quiz. split; [|split; [|split]].
  - intros Hbad.
    destruct (bool_decide (Some (p_secret payload) = MY_SECRET)) eqn:Hs; simpl.
    + destruct (bool_decide (Some (p_email payload) = MY_EMAIL)) eqn:He; simpl.
      * apply bool_decide_eq_true in Hs, He. tauto.
      * eexists _, _. split; reflexivity.
    + eexists _, _. split; reflexivity.
  - intros Hs. rewrite (bool_decide_eq_false_2 _ Hs). reflexivity.
  - intros Hs He.
    rewrite (bool_decide_eq_true_2 _ Hs), (bool_decide_eq_false_2 _ He). reflexivity.
  - intros Hs He.
    rewrite (bool_decide_eq_true_2 _ Hs), (bool_decide_eq_true_2 _ He).
    exists accepted. split; [reflexivity|]. repeat split; vm_compute; reflexivity.
Qed.

End Trigger.

Lemma C8_trigger_authorization_witness :
  let O := Demo.outside Demo.secret_code in
  let good := {| p_email := lit "me@example.org"; p_secret := lit "s3cret";
                 p_url := lit "https://h/p/q" |} in
  let bad := {| p_email := lit "me@example.org"; p_secret := lit "guess";
                p_url := lit "https://h/p/q" |} in
  let other := {| p_email := lit "you@example.org"; p_secret := lit "s3cret";
                  p_url := lit "https://h/p/q" |} in
  @start_quiz O bad (Demo.initial Demo.secret_code 0)
  = (inl (Exn (HTTPException 403) (lit "403: Invalid secret provided.")),
     @State O (Demo.At 0 false) [EvPrint (LogInvalidSecret (lit "guess"))] [])
  /\ @start_quiz O other (Demo.initial Demo.secret_code 0)
     = (inl (Exn (HTTPException 403) (lit "403: Invalid email provided.")),
        @State O (Demo.At 0 false) [EvPrint (LogInvalidEmail (lit "you@example.org"))] [])
  /\ exists reply,
       @start_quiz O good (Demo.initial Demo.secret_code 0)
       = (inr reply,
          @State O (Demo.At 0 false)
            [EvPrint (LogAccepted (lit "me@example.org") (lit "https://h/p/q"))]
            [RunQuizSolver (lit "me@example.org") (lit "s3cret") (lit "https://h/p/q")])
       /\ reply !! lit "status" = Some (PStr (lit "accepted")).
Proof.
  intros O good bad other. split; [|split].
  - apply (proj1 (proj2 (@C8_trigger_authorization O bad (Demo.initial Demo.secret_code 0)))).
    vm_compute. discriminate.
  - apply (proj1 (proj2 (proj2
             (@C8_trigger_authorization O other (Demo.initial Demo.secret_code 0))))).
    + vm_compute. reflexivity.
    + vm_compute. discriminate.
  - destruct (proj2 (proj2 (proj2
                (@C8_trigger_authorization O good (Demo.initial Demo.secret_code 0))))
                eq_refl eq_refl) as (reply & Hr & Hst & _).
    exists reply. split; [exact Hr | exact Hst].
Defined.

(** ** Data acquisition, answering and the way on *)

Section Rounds.
Context `{NetlocChecks} `{Outside}.
Variables (email secret : pystr) (T0 : PyFloat.float).

Lemma extract_text_pdf path :
  endswith (lit ".pdf") path = true -> extract_text path = get_text_from_pdf path.
Proof. unfold extract_text. intros ->. reflexivity. Qed.

Lemma extract_text_csv path :
  endswith (lit ".pdf") path = false -> endswith (lit ".csv") path = true ->
  extract_text path = get_text_from_csv path.
Proof. unfold extract_text. intros -> ->. reflexivity. Qed.

Lemma extract_text_other path :
  endswith (lit ".pdf") path = false -> endswith (lit ".csv") path = false ->
  extract_text path = ret (lit "File downloaded to: " ++ path).
Proof. unfold extract_text. intros -> ->. reflexivity. Qed.

(** The data step with a data URL never raises, and its result follows the
    download and the extraction. *)
Lemma acquire_data_cases page data_url s :
  truthy data_url = true ->
  let sa := log [EvPrint (LogDataUrl data_url)] s in
  exists ctx s4,
    acquire_data page data_url s = (inr ctx, s4)
    /\ (forall e sd,
          download_file data_url (lit "temp_data") sa = (inl e, sd) ->
          ctx = lit "Error processing file: " ++ exn_str e)
    /\ (forall path sd,
          download_file data_url (lit "temp_data") sa = (inr path, sd) ->
          (forall e se, extract_text path sd = (inl e, se) ->
                        ctx = lit "Error processing file: " ++ exn_str e)
          /\ (forall text se, extract_text path sd = (inr text, se) -> ctx = text)).
Proof.
  intros Ht sa. unfold acquire_data. rewrite Ht.
  rewrite (bind_ok _ _ _ _ _ (print_run _ _)). fold sa.
  unfold try_, bind.
  destruct (download_file data_url (lit "temp_data") sa) as [[e | path] sd] eqn:Hd.
  - eexists _, _. split; [reflexivity|]. split.
    + intros e' sd' [= <- <-]. reflexivity.
    + intros path sd' [=].
  - destruct (extract_text path sd) as [[e | text] se] eqn:He.
    + eexists _, _. split; [reflexivity|]. split.
      * intros e' sd' [=].
      * intros path' sd' [= <- <-]. rewrite He. split.
        -- intros e' se' [= <- <-]. reflexivity.
        -- intros text se' [=].
    + eexists _, _. split; [reflexivity|]. split.
      * intros e' sd' [=].
      * intros path' sd' [= <- <-]. rewrite He. split.
        -- intros e' se' [=].
        -- intros text' se' [= <- <-]. reflexivity.
Qed.

(** Step 4 begins with the call of the Answer Resolver. *)
Lemma answer_and_submit_marks url question submit_url ctx s :
  exists r s' rest,
    try_ (answer_and_submit email secret url question submit_url ctx) unexpected s
    = (r, s')
    /\ st_trace s' = st_trace s ++ EvCall (CallAnswer question ctx) :: rest.
Proof.
  assert (Hst : starts_with (EvCall (CallAnswer question ctx))
                  (try_ (answer_and_submit email secret url question submit_url ctx)
                     unexpected)).
  { apply starts_with_try; [|apply unexpected_footprint].
    unfold answer_and_submit. apply starts_with_bind; [apply answer_starts|].
    intros a. apply footprint_bind; [footprint_auto|].
    intros _. apply submit_answer_footprint. }
  destruct (Hst s) as (rest & Ht).
  destruct (try_ _ _ s) as [r s']. simpl in Ht.
  exists r, s', rest. split; [reflexivity | exact Ht].
Qed.

Lemma loop_body_acquiring url s0 page plan s3 data_url submit_url :
  plan_received T0 url s0 page plan s3 ->
  plan !! lit "error" = None ->
  resolve_url url (dict_get plan (lit "data_url")) = inr data_url ->
  resolve_url url (dict_get plan (lit "submit_url")) = inr submit_url ->
  loop_body email secret T0 url s0
  = try_ (data_context <- acquire_data page data_url;;
          answer_and_submit email secret url (dict_get plan (lit "question"))
            submit_url data_context)
      unexpected
      (log [EvPrint (LogPlanReceived (dict_get plan (lit "question")))] s3).
Proof.
  intros Hr He Hd Hs.
  rewrite (loop_body_planned _ _ _ _ _ _ _ _ Hr), He.
  unfold execute_plan, try_. rewrite (bind_ok _ _ _ _ _ (print_run _ _)).
  unfold bind at 1. unfold lift at 1. rewrite Hd.
  unfold bind at 1. unfold lift at 1. rewrite Hs. reflexivity.
Qed.

Lemma loop_body_acquired url s0 plan submit_url ctx s4 :
  data_acquired T0 url s0 plan submit_url ctx s4 ->
  loop_body email secret T0 url s0
  = try_ (answer_and_submit email secret url (dict_get plan (lit "question"))
            submit_url ctx) unexpected s4.
Proof.
  intros (page & s3 & data_url & Hr & He & Hd & Hs & Ha).
  rewrite (loop_body_acquiring _ _ _ _ _ _ _ Hr He Hd Hs).
  unfold try_. rewrite (bind_ok _ _ _ _ _ Ha). reflexivity.
Qed.

Lemma loop_body_answered url s0 submit_url final_answer s5 :
  answer_computed T0 url s0 submit_url final_answer s5 ->
  loop_body email secret T0 url s0
  = try_ (submit_answer email secret url submit_url final_answer) unexpected s5.
Proof.
  intros (plan & ctx & s4 & s & Hd & Ha & ->).
  rewrite (loop_body_acquired _ _ _ _ _ _ Hd).
  unfold try_, answer_and_submit. rewrite (bind_ok _ _ _ _ _ Ha).
  rewrite (bind_ok _ _ _ _ _ (print_run _ _)). reflexivity.
Qed.

(** X29: a failure of the data step does not end a turn all of whose
    messages the standard output takes.  For a plan with a data URL the data step
    returns a data context and the turn goes on to call the Answer Resolver
    with the plan's question and that context.  If the download or the
    extraction raises, the context is the text "Error processing file: "
    followed by the exception's text.  Otherwise the context is what the
    extractor for the saved path returns: the PDF reader for a path ending
    in ".pdf", the CSV reader for one ending in ".csv", and a text that names
    the saved path for any other. *)
Theorem data_failure_degrades url s0 page plan s3 data_url submit_url r s' evs :
  plan_received T0 url s0 page plan s3 ->
  plan !! lit "error" = None ->
  resolve_url url (dict_get plan (lit "data_url")) = inr data_url ->
  resolve_url url (dict_get plan (lit "submit_url")) = inr submit_url ->
  truthy data_url = true ->
  loop_body email secret T0 url s0 = (r, s') ->
  added s0 s' evs ->
  printable evs = true ->
  let question := dict_get plan (lit "question") in
  let sp := log [EvPrint (LogPlanReceived question)] s3 in
  let sa := log [EvPrint (LogDataUrl data_url)] sp in
  exists ctx s4 rest,
    acquire_data page data_url sp = (inr ctx, s4)
    /\ st_trace s' = st_trace s4 ++ EvCall (CallAnswer question ctx) :: rest
    /\ (forall e sd,
          download_file data_url (lit "temp_data") sa = (inl e, sd) ->
          ctx = lit "Error processing file: " ++ exn_str e)
    /\ (forall path sd,
          download_file data_url (lit "temp_data") sa = (inr path, sd) ->
          (forall e se, extract_text path sd = (inl e, se) ->
                        ctx = lit "Error processing file: " ++ exn_str e)
          /\ (forall text se, extract_text path sd = (inr text, se) -> ctx = text)
          /\ (endswith (lit ".pdf") path = true ->
              extract_text path = get_text_from_pdf path)
          /\ (endswith (lit ".pdf") path = false ->
              endswith (lit ".csv") path = true ->
              extract_text path = get_text_from_csv path)
          /\ (endswith (lit ".pdf") path = false ->
              endswith (lit ".csv") path = false ->
              extract_text path = ret (lit "File downloaded to: " ++ path))).
Proof.
  intros Hr He Hd Hs Ht Hl _ _ question sp sa.
  destruct (acquire_data_cases page data_url sp Ht) as (ctx & s4 & Ha & Hfail & Hok).
  assert (Hm : exists rest,
             st_trace s' = st_trace s4 ++ EvCall (CallAnswer question ctx) :: rest).
  { rewrite (loop_body_acquired url s0 plan submit_url ctx s4) in Hl.
    - destruct (answer_and_submit_marks url question submit_url ctx s4)
        as (r0 & s0' & rest & Hb & Htr).
      fold question in Hl. rewrite Hb in Hl. injection Hl as <- <-.
      exists rest. exact Htr.
    - exists page, s3, data_url. auto. }
  destruct Hm as (rest & Htr).
  exists ctx, s4, rest. split; [exact Ha|]. split; [exact Htr|]. split.
  - exact Hfail.
  - intros path sd Hdl. destruct (Hok path sd Hdl) as [H1 H2].
    repeat split; auto using extract_text_pdf, extract_text_csv, extract_text_other.
Qed.

Lemma process_result_dict d s :
  process_result (PDict d) s
  = (inr (Continue (dict_get d (lit "url"))), log (verdict_messages d) s).
Proof.
  unfold process_result, verdict_messages, bind, lift, print, emit, ret. simpl.
  destruct (py_eq_True (dict_get d (lit "correct")));
    destruct (truthy (dict_get d (lit "url"))); simpl;
    rewrite ?log_log; reflexivity.
Qed.

Lemma verdict_messages_normal d :
  Forall (fun ev => ~ is_unexpected_error ev) (verdict_messages d).
Proof.
  unfold verdict_messages.
  destruct (py_eq_True _); destruct (truthy _); repeat constructor; simpl; tauto.
Qed.

(** X30: the continuation rule, in a turn all of whose messages the
    standard output takes.  When the submission POST of the turn returns a success
    status and a JSON object, the turn ends with [current_url] set to the
    object's "url" entry, whatever its "correct" entry is, and the loop goes
    on from there.  When that URL is absent (no "url" entry, or [null]) or
    otherwise false, the loop ends there and the run finishes; the turn's
    messages after the POST are those of the verdict, none of them the
    message of an unexpected error. *)
Theorem continuation_rule fuel url s0 submit_url final_answer s5 resp w d :
  truthy url = true ->
  answer_computed T0 url s0 submit_url final_answer s5 ->
  perform _ (HttpPost submit_url ∅
               (submission_payload email secret url final_answer) 30) (st_world s5)
  = (inr resp, w) ->
  is_success resp = true ->
  json resp = inr (PDict d) ->
  let next_url := dict_get d (lit "url") in
  let s' := log (verdict_messages d)
              (set_world w
                 (log [EvPrint (LogSubmitting submit_url);
                       EvIO (HttpPost submit_url ∅
                               (submission_payload email secret url final_answer) 30)]
                    s5)) in
  forall evs,
    added s0 s' evs ->
    printable evs = true ->
    loop_body email secret T0 url s0 = (inr (Continue next_url), s')
    /\ quiz_loop (S fuel) email secret T0 url s0
       = quiz_loop fuel email secret T0 next_url s'
    /\ (truthy next_url = false ->
        quiz_loop (S fuel) email secret T0 url s0 = (inr Finished, s'))
    /\ (d !! lit "url" = None \/ d !! lit "url" = Some PNone ->
        truthy next_url = false)
    /\ Forall (fun ev => ~ is_unexpected_error ev) (verdict_messages d).
Proof.
  intros Hu Ha Hp Hok Hj next_url s' evs _ _.
  assert (Hb : loop_body email secret T0 url s0 = (inr (Continue next_url), s')).
  { rewrite (loop_body_answered _ _ _ _ _ Ha).
    unfold try_, submit_answer.
    rewrite (bind_ok _ _ _ _ _ (print_run _ _)).
    rewrite (bind_ok _ _ _ _ _
               (call_run _ (log [EvPrint (LogSubmitting submit_url)] s5) _ _ Hp)).
    unfold raise_for_status. rewrite Hok.
    unfold bind at 1. unfold lift at 1.
    unfold bind at 1. unfold lift at 1. rewrite Hj.
    rewrite process_result_dict. unfold s'. rewrite log_log. reflexivity. }
  split; [exact Hb|]. split; [|split; [|split]].
  - apply quiz_loop_continue; assumption.
  - intros Hn. rewrite (quiz_loop_continue _ _ _ fuel _ _ _ _ Hu Hb).
    apply quiz_loop_stop. exact Hn.
  - unfold next_url, dict_get. intros [-> | ->]; reflexivity.
  - apply verdict_messages_normal.
Qed.

End Rounds.

Lemma data_failure_degrades_witness :
  let sc := Demo.with_plan [kv "question" (PStr (lit "CSV file. Cutoff: 100"));
                            kv "data_url" (PStr (lit "data.csv"));
                            kv "submit_url" (PStr (lit "/submit"))] Demo.secret_code in
  exists (s4 : @state (Demo.outside sc)) r s' rest,
    @loop_body Demo.checks (Demo.outside sc) [] [] Demo.T1000 Demo.page_url
      (Demo.initial sc 1) = (r, s')
    /\ st_trace s'
       = st_trace s4
         ++ EvCall (CallAnswer (PStr (lit "CSV file. Cutoff: 100"))
                      (lit "Error processing file: connection refused")) :: rest.
Proof.
  intros sc.
  set (turn := @loop_body Demo.checks (Demo.outside sc) [] [] Demo.T1000 Demo.page_url
                 (Demo.initial sc 1)).
  destruct (@data_failure_degrades Demo.checks (Demo.outside sc) [] []
              Demo.T1000 Demo.page_url (Demo.initial sc 1) (Demo.sc_page sc)
              (Demo.the_plan sc) (Demo.planned sc)
              (PStr (lit "https://h/p/data.csv")) (PStr (lit "https://h/submit"))
              (fst turn) (snd turn) (st_trace (snd turn)))
    as (ctx & s4 & rest & _ & Ht & Hfail & _).
  - demo_planned.
  - by_computation.
  - by_computation.
  - by_computation.
  - reflexivity.
  - exact (surjective_pairing turn).
  - by_computation.
  - by_computation.
  - assert (Hctx : ctx = lit "Error processing file: connection refused").
    { refine (Hfail Demo.refused
                (snd (@download_file (Demo.outside sc)
                        (PStr (lit "https://h/p/data.csv")) (lit "temp_data")
                        (log [EvPrint (LogDataUrl (PStr (lit "https://h/p/data.csv")))]
                           (log [EvPrint (LogPlanReceived (Demo.the_question sc))]
                              (Demo.planned sc))))) _).
      by_computation. }
    exists s4, (fst turn), (snd turn), rest. split; [exact (surjective_pairing turn)|].
    rewrite Ht, Hctx. reflexivity.
Defined.

Ltac demo_answered sc :=
  exists (Demo.the_plan sc), (Demo.the_context sc), (snd (Demo.acquisition sc)),
    (snd (Demo.answering sc));
  split; [| split; [by_computation | reflexivity]];
  exists (Demo.sc_page sc), (Demo.planned sc), (Demo.resolved sc "data_url");
  split; [demo_planned | repeat split; by_computation].

Lemma continuation_rule_witness :
  (* the grader accepts the answer and names no next page *)
  (let sc := Demo.secret_code in
   exists s',
     @loop_body Demo.checks (Demo.outside sc) (lit "me@example.org") (lit "s3cret")
       Demo.T1000 Demo.page_url (Demo.initial sc 1) = (inr (Continue PNone), s')
     /\ @quiz_loop Demo.checks (Demo.outside sc) 3 (lit "me@example.org") (lit "s3cret")
          Demo.T1000 Demo.page_url (Demo.initial sc 1) = (inr Finished, s'))
  (* the grader rejects the answer and names a next page *)
  /\ (let sc := Demo.with_submit
                  (inr (Response 200 []
                     (inr (PDict (dict_of
                        [kv "correct" (PBool false);
                         kv "reason" (PStr (lit "too small"));
                         kv "url" (PStr (lit "https://h/next"))])))))
                  Demo.secret_code in
      exists s',
        @loop_body Demo.checks (Demo.outside sc) (lit "me@example.org") (lit "s3cret")
          Demo.T1000 Demo.page_url (Demo.initial sc 1)
        = (inr (Continue (PStr (lit "https://h/next"))), s')).
Proof.
  split; intros sc.
  - set (d := dict_of [kv "correct" (PBool true); kv "url" PNone]).
    set (post := HttpPost (PStr (lit "https://h/submit")) ∅
                   (@submission_payload (lit "me@example.org") (lit "s3cret")
                      Demo.page_url (PInt 29172)) 30).
    destruct (@continuation_rule Demo.checks (Demo.outside sc)
                (lit "me@example.org") (lit "s3cret") Demo.T1000 2 Demo.page_url
                (Demo.initial sc 1) (PStr (lit "https://h/submit")) (PInt 29172)
                (Demo.answered sc) (Response 200 [] (inr (PDict d))) (Demo.At 2 false) d
                ltac:(reflexivity) ltac:(demo_answered sc) ltac:(by_computation)
                ltac:(reflexivity) ltac:(reflexivity)
                (st_trace
                   (log (verdict_messages d)
                      (@set_world (Demo.outside sc) (Demo.At 2 false)
                         (log [EvPrint (LogSubmitting (PStr (lit "https://h/submit")));
                               EvIO post] (Demo.answered sc))))))
      as (Hb & _ & Hstop & _).
    + reflexivity.
    + by_computation.
    + eexists. split; [exact Hb | apply Hstop; by_computation].
  - set (d := dict_of [kv "correct" (PBool false);
                       kv "reason" (PStr (lit "too small"));
                       kv "url" (PStr (lit "https://h/next"))]).
    set (post := HttpPost (PStr (lit "https://h/submit")) ∅
                   (@submission_payload (lit "me@example.org") (lit "s3cret")
                      Demo.page_url (PInt 29172)) 30).
    destruct (@continuation_rule Demo.checks (Demo.outside sc)
                (lit "me@example.org") (lit "s3cret") Demo.T1000 2 Demo.page_url
                (Demo.initial sc 1) (PStr (lit "https://h/submit")) (PInt 29172)
                (Demo.answered sc) (Response 200 [] (inr (PDict d))) (Demo.At 2 false) d
                ltac:(reflexivity) ltac:(demo_answered sc) ltac:(by_computation)
                ltac:(reflexivity) ltac:(reflexivity)
                (st_trace
                   (log (verdict_messages d)
                      (@set_world (Demo.outside sc) (Demo.At 2 false)
                         (log [EvPrint (LogSubmitting (PStr (lit "https://h/submit")));
                               EvIO post] (Demo.answered sc))))))
      as (Hb & _).
    + reflexivity.
    + by_computation.
    + eexists. exact Hb.
Defined.

(** ** URL resolution *)

Section Cutting.

Lemma free_app c a b : free c (a ++ b) <-> free c a /\ free c b.
Proof. apply Forall_app. Qed.

Lemma free_cons c x s : free c (x :: s) <-> x <> c /\ free c s.
Proof.
  unfold free. split.
  - intros Hf. inversion Hf. auto.
  - intros [Hx Hs]. constructor; assumption.
Qed.

Lemma contains_false c s : contains c s = false <-> free c s.
Proof.
  unfold contains, free. induction s as [|x s IH]; simpl.
  - split; [constructor | reflexivity].
  - rewrite orb_false_iff, IH, N.eqb_neq. fold (free c s) (free c (x :: s)).
    rewrite free_cons. intuition congruence.
Qed.

Lemma contains_true c s : contains c s = true <-> In c s.
Proof.
  unfold contains. rewrite existsb_exists. split.
  - intros (x & Hin & Heq). apply N.eqb_eq in Heq. subst. exact Hin.
  - intros Hin. exists c. split; [exact Hin | apply N.eqb_refl].
Qed.

Lemma cut_found c s p r :
  cut c s = (p, Some r) -> s = p ++ c :: r /\ free c p.
Proof.
  revert p. induction s as [|a s IH]; intros p; simpl; [discriminate|].
  destruct (N.eqb_spec a c) as [-> | Hne].
  - intros [= <- <-]. split; [reflexivity | constructor].
  - destruct (cut c s) as [p' r'] eqn:Hc. intros [= <- ->].
    destruct (IH p' eq_refl) as [-> Hf]. split; [reflexivity|].
    constructor; assumption.
Qed.

Lemma cut_missing c s p : cut c s = (p, None) -> p = s /\ free c s.
Proof.
  revert p. induction s as [|a s IH]; intros p; simpl.
  - intros [= <-]. split; [reflexivity | constructor].
  - destruct (N.eqb_spec a c) as [-> | Hne]; [discriminate|].
    destruct (cut c s) as [p' r'] eqn:Hc. intros [= <- ->].
    destruct (IH p' eq_refl) as [-> Hf]. split; [reflexivity|].
    constructor; assumption.
Qed.

Lemma cut_app c p r : free c p -> cut c (p ++ c :: r) = (p, Some r).
Proof.
  induction 1 as [|x p Hx Hp IH]; simpl.
  - rewrite N.eqb_refl. reflexivity.
  - destruct (N.eqb_spec x c); [congruence|]. rewrite IH. reflexivity.
Qed.

Lemma cut_free c s : free c s -> cut c s = (s, None).
Proof.
  induction 1 as [|x s Hx Hs IH]; simpl; [reflexivity|].
  destruct (N.eqb_spec x c); [congruence|]. rewrite IH. reflexivity.
Qed.

(** Both parts of a cut keep what holds of every character. *)
Lemma cut_Forall (P : N -> Prop) c s p r :
  Forall P s -> cut c s = (p, r) ->
  Forall P p /\ match r with Some t => Forall P t | None => True end.
Proof.
  intros Hs Hc. destruct r as [t|].
  - apply cut_found in Hc as [-> _]. apply Forall_app in Hs as [Hp Ht].
    apply Forall_cons in Ht as [_ Ht]. auto.
  - apply cut_missing in Hc as [-> _]. auto.
Qed.

Lemma lstrip_by_Forall (P : N -> Prop) f s : Forall P s -> Forall P (lstrip_by f s).
Proof.
  induction 1 as [|x s Hx Hs IH]; simpl; [constructor|].
  destruct (f x); [exact IH | constructor; assumption].
Qed.

Lemma lstrip_by_head f x s : f x = false -> lstrip_by f (x :: s) = x :: s.
Proof. intros Hx. simpl. rewrite Hx. reflexivity. Qed.

Lemma lstrip_by_none f s : Forall (fun x => f x = false) s -> lstrip_by f s = s.
Proof. destruct 1 as [|x s Hx _]; simpl; [reflexivity | rewrite Hx; reflexivity]. Qed.

Lemma rstrip_by_none f s : Forall (fun x => f x = false) s -> rstrip_by f s = s.
Proof.
  intros Hs. unfold rstrip_by. rewrite lstrip_by_none; [apply rev_involutive|].
  apply Forall_rev. exact Hs.
Qed.

Lemma remove_unsafe_safe s : safe (Url.remove_unsafe s).
Proof.
  unfold safe, Url.remove_unsafe. apply List.Forall_forall. intros x Hx.
  apply filter_In in Hx as [_ Hx]. apply negb_true_iff. exact Hx.
Qed.

Lemma remove_unsafe_id s : safe s -> Url.remove_unsafe s = s.
Proof.
  unfold safe, Url.remove_unsafe. induction 1 as [|x s Hx Hs IH]; simpl; [reflexivity|].
  rewrite Hx. simpl. rewrite IH. reflexivity.
Qed.

End Cutting.

Section Characters.

(** Facts about single characters, by arithmetic on their code. *)
Ltac char_prop :=
  unfold Url.is_scheme_char, Url.is_ascii_alpha, Url.is_c0_or_space,
    Url.is_unsafe, Url.is_netloc_delim, is_digit in *;
  rewrite ?orb_true_iff, ?andb_true_iff, ?orb_false_iff, ?andb_false_iff,
    ?N.leb_le, ?N.eqb_eq, ?N.leb_gt, ?N.eqb_neq in *.

Lemma scheme_char_plain c :
  Url.is_scheme_char c = true ->
  c <> 58%N /\ c <> 47%N /\ Url.is_c0_or_space c = false /\ Url.is_unsafe c = false.
Proof. intros Hc. char_prop. lia. Qed.

Lemma lower_cases c :
  (Url.lower c = (c + 32)%N /\ (65 <= c <= 90)%N)
  \/ (Url.lower c = c /\ ~ (65 <= c <= 90)%N).
Proof.
  unfold Url.lower. destruct ((65 <=? c) && (c <=? 90))%N eqn:E.
  - left. rewrite andb_true_iff, !N.leb_le in E. auto.
  - right. rewrite andb_false_iff, !N.leb_gt in E. split; [reflexivity | lia].
Qed.

Lemma lower_scheme_char c :
  Url.is_scheme_char c = true ->
  Url.is_scheme_char (Url.lower c) = true /\ Url.lower (Url.lower c) = Url.lower c.
Proof.
  intros Hc.
  destruct (lower_cases c) as [[-> Hr] | [-> Hr]].
  - destruct (lower_cases (c + 32)) as [[_ Hr'] | [-> _]]; [lia|].
    split; [|reflexivity]. char_prop. lia.
  - destruct (lower_cases c) as [[_ Hr'] | [-> _]]; [lia|]. auto.
Qed.

Lemma lower_alpha c :
  Url.is_ascii_alpha c = true -> Url.is_ascii_alpha (Url.lower c) = true.
Proof.
  intros Hc. destruct (lower_cases c) as [[-> Hr] | [-> Hr]]; [|exact Hc].
  char_prop. lia.
Qed.

Lemma alpha_not_space c : Url.is_ascii_alpha c = true -> Url.is_c0_or_space c = false.
Proof. intros Hc. char_prop. lia. Qed.

End Characters.

Section Schemes.

Lemma valid_scheme_chars s :
  valid_scheme s ->
  free 58 s /\ safe s /\ Forall (fun c => Url.is_c0_or_space c = false) s
  /\ forallb Url.is_scheme_char s = true /\ List.map Url.lower s = s.
Proof.
  intros [_ Hs]. induction Hs as [|c s [Hc Hl] Hs IH].
  - repeat split; constructor.
  - destruct IH as (H1 & H2 & H3 & H4 & H5).
    destruct (scheme_char_plain c Hc) as (Ha & _ & Hb & Hd).
    repeat split; try (constructor; assumption).
    + simpl. rewrite Hc, H4. reflexivity.
    + simpl. rewrite Hl, H5. reflexivity.
Qed.

Lemma valid_scheme_nonempty s : valid_scheme s -> nonempty s = true.
Proof. intros [Hh _]. destruct s; [contradiction | reflexivity]. Qed.

(** A valid scheme before a colon is found again. *)
Lemma split_scheme_valid sch rest d :
  valid_scheme sch -> Url.split_scheme (sch ++ lit ":" ++ rest) d = (sch, rest).
Proof.
  intros Hv. destruct (valid_scheme_chars sch Hv) as (Hf & _ & _ & Hall & Hlow).
  unfold Url.split_scheme. change (lit ":" ++ rest) with (58%N :: rest).
  rewrite (cut_app 58 sch rest Hf).
  destruct Hv as [Hh _]. destruct sch as [|c pre]; [contradiction|].
  rewrite Hh, Hall, Hlow. reflexivity.
Qed.

(** A text that begins with a slash has no scheme. *)
Lemma split_scheme_slash s d : Url.split_scheme (47%N :: s) d = (d, 47%N :: s).
Proof.
  unfold Url.split_scheme. simpl. destruct (cut 58 s) as [p [r|]]; reflexivity.
Qed.

(** What [split_scheme] returns: the default and the whole text, or a valid
    scheme and the text after its colon. *)
Lemma split_scheme_spec url d sch rest :
  Url.split_scheme url d = (sch, rest) ->
  (sch = d /\ rest = url)
  \/ (valid_scheme sch /\ exists pre, url = pre ++ 58%N :: rest).
Proof.
  unfold Url.split_scheme. destruct (cut 58 url) as [p r] eqn:Hc.
  destruct p as [|c pre]; [intros [= <- <-]; auto|].
  destruct r as [t|]; [|intros [= <- <-]; auto].
  destruct (Url.is_ascii_alpha c) eqn:Ha; [|intros [= <- <-]; auto].
  destruct (forallb Url.is_scheme_char (c :: pre)) eqn:Hall; [|intros [= <- <-]; auto].
  simpl. intros [= <- <-]. right. split.
  - split; [simpl; apply lower_alpha, Ha|].
    rewrite forallb_forall in Hall. apply List.Forall_forall.
    intros x Hx. change (Url.lower c :: List.map Url.lower pre)
      with (List.map Url.lower (c :: pre)) in Hx.
    apply in_map_iff in Hx as (y & <- & Hy).
    apply lower_scheme_char, Hall, Hy.
  - apply cut_found in Hc as [-> _]. exists (c :: pre). reflexivity.
Qed.

End Schemes.

Section NetworkLocation.

Lemma splitnetloc_spec s n r :
  Url.splitnetloc s = (n, r) ->
  s = n ++ r
  /\ Forall (fun c => Url.is_netloc_delim c = false) n
  /\ match r with [] => True | c :: _ => Url.is_netloc_delim c = true end.
Proof.
  revert n. induction s as [|c s IH]; intros n; cbn -[Url.is_netloc_delim].
  - intros [= <- <-]. repeat split. constructor.
  - destruct (Url.is_netloc_delim c) eqn:Hd.
    + intros [= <- <-]. repeat split; [constructor | exact Hd].
    + destruct (Url.splitnetloc s) as [n' r'] eqn:Hs. intros [= <- <-].
      destruct (IH n' eq_refl) as (-> & Hn & Hr).
      repeat split; [constructor; assumption | exact Hr].
Qed.

Lemma splitnetloc_app n t :
  Forall (fun c => Url.is_netloc_delim c = false) n ->
  match t with [] => True | c :: _ => Url.is_netloc_delim c = true end ->
  Url.splitnetloc (n ++ t) = (n, t).
Proof.
  intros Hn Ht. induction Hn as [|c n Hc Hn IH]; cbn -[Url.is_netloc_delim].
  - destruct t as [|c t]; [reflexivity|]. cbn -[Url.is_netloc_delim].
    rewrite Ht. reflexivity.
  - rewrite Hc, IH. reflexivity.
Qed.

End NetworkLocation.

Section Writing.
Context `{NetlocChecks}.

Lemma lead_cases u :
  (u = [] /\ lead u = [])
  \/ (exists t, lead u = 47%N :: t /\ (u = 47%N :: t \/ (u <> [] /\ t = u))).
Proof.
  unfold lead. destruct u as [|c u]; [left; auto|]. right.
  change (nonempty (c :: u)) with true. change (take 1 (c :: u)) with [c].
  unfold eqb. case_bool_decide as He.
  - injection He as ->. exists u. auto.
  - exists (c :: u). split; [reflexivity|]. right. split; [discriminate | reflexivity].
Qed.

Lemma lead_Forall (P : N -> Prop) u : P 47%N -> Forall P u -> Forall P (lead u).
Proof.
  intros Hs Hu. destruct (lead_cases u) as [[-> ->] | (t & -> & [-> | [_ ->]])];
    [constructor | exact Hu | constructor; assumption].
Qed.

Lemma lead_idem u : lead (lead u) = lead u.
Proof.
  destruct (lead_cases u) as [[-> ->] | (t & -> & _)]; reflexivity.
Qed.

Lemma lead_head u :
  match lead u with [] => True | c :: _ => Url.is_netloc_delim c = true end.
Proof.
  destruct (lead_cases u) as [[_ ->] | (t & -> & _)]; [exact I | reflexivity].
Qed.

(** With a network location, [urlunsplit] writes the URL in the form
    [written]. *)
Lemma urlunsplit_written sch n u q f :
  nonempty n = true -> Url.urlunsplit sch n u q f = written sch n u q f.
Proof.
  intros Hn. unfold Url.urlunsplit, written. rewrite Hn. simpl orb. cbv iota.
  fold (lead u).
  destruct (nonempty sch), (nonempty q), (nonempty f);
    rewrite <- ?app_assoc, ?app_nil_r; reflexivity.
Qed.

Lemma netloc_passes_checks n :
  netloc_passes n = true ->
  (contains 91 n && negb (contains 93 n) || contains 93 n && negb (contains 91 n)) = false
  /\ (contains 91 n && contains 93 n && negb (bracketed_netloc_ok n)) = false
  /\ (nonempty n && negb (Url.is_ascii n) && negb (nfkc_netloc_ok n)) = false.
Proof.
  unfold netloc_passes. rewrite !andb_true_iff, !negb_true_iff. tauto.
Qed.

(** [urlsplit] reads a written URL back. *)
Lemma urlsplit_written sch n u q f :
  sch = [] \/ valid_scheme sch ->
  Forall (fun c => Url.is_netloc_delim c = false) n -> safe n ->
  netloc_passes n = true ->
  free 63 u -> free 35 u -> safe u ->
  free 35 q -> safe q -> safe f ->
  Url.urlsplit (written sch n u q f) sch
  = inr (Url.mkSplit sch n (lead u) q f).
Proof.
  intros Hsch Hn Hns Hnp Hu63 Hu35 Hus Hq35 Hqs Hfs.
  set (tail := lead u ++ (if nonempty q then lit "?" ++ q else [])
               ++ (if nonempty f then lit "#" ++ f else [])).
  assert (Hw : written sch n u q f
               = (if nonempty sch then sch ++ lit ":" else []) ++ lit "//" ++ n ++ tail)
    by reflexivity.
  assert (Hsafe_tail : safe tail).
  { unfold tail. apply Forall_app. split; [apply lead_Forall; [reflexivity | exact Hus]|].
    apply Forall_app. split.
    - destruct (nonempty q); [constructor; [reflexivity | exact Hqs] | constructor].
    - destruct (nonempty f); [constructor; [reflexivity | exact Hfs] | constructor]. }
  assert (Hsafe_rest : safe (lit "//" ++ n ++ tail)).
  { repeat (constructor; [reflexivity|]). apply Forall_app. auto. }
  assert (Htail_head :
            match tail with [] => True | c :: _ => Url.is_netloc_delim c = true end).
  { unfold tail. pose proof (lead_head u) as Hl.
    destruct (lead u) as [|c t]; [|exact Hl]. simpl.
    destruct (nonempty q); [reflexivity|]. simpl.
    destruct (nonempty f); [reflexivity | exact I]. }
  (* the default scheme is kept as it is *)
  assert (Hdflt : Url.remove_unsafe
                    (rstrip_by Url.is_c0_or_space (lstrip_by Url.is_c0_or_space sch))
                  = sch).
  { destruct Hsch as [-> | Hv]; [reflexivity|].
    destruct (valid_scheme_chars sch Hv) as (_ & Hs & Hc & _).
    rewrite (lstrip_by_none _ _ Hc), (rstrip_by_none _ _ Hc).
    apply remove_unsafe_id, Hs. }
  (* nothing is stripped from the written URL, and its scheme is found *)
  assert (Hhead : Url.split_scheme
                    (Url.remove_unsafe
                       (lstrip_by Url.is_c0_or_space (written sch n u q f))) sch
                  = (sch, lit "//" ++ n ++ tail)).
  { rewrite Hw. destruct Hsch as [-> | Hv].
    - simpl nonempty. cbv iota. rewrite app_nil_l.
      change (lit "//" ++ n ++ tail) with (47%N :: 47%N :: n ++ tail).
      rewrite lstrip_by_head by reflexivity.
      rewrite remove_unsafe_id by exact Hsafe_rest.
      apply split_scheme_slash.
    - rewrite (valid_scheme_nonempty _ Hv).
      destruct (valid_scheme_chars sch Hv) as (_ & Hs & Hc & _).
      assert (Hst : lstrip_by Url.is_c0_or_space ((sch ++ lit ":") ++ lit "//" ++ n ++ tail)
                    = (sch ++ lit ":") ++ lit "//" ++ n ++ tail).
      { destruct sch as [|c sch']; [destruct Hv as [[] _]|].
        inversion Hc; subst. simpl. rewrite H2. reflexivity. }
      rewrite Hst, remove_unsafe_id.
      + rewrite <- app_assoc. apply split_scheme_valid, Hv.
      + apply Forall_app. split; [|exact Hsafe_rest].
        apply Forall_app. split; [exact Hs | constructor; [reflexivity | constructor]]. }
  destruct (netloc_passes_checks n Hnp) as (Hc1 & Hc2 & Hc3).
  (* the fragment and the query are cut off where they were put *)
  assert (Hfrag : (match cut 35 tail with (x, Some y) => (x, y) | (x, None) => (x, []) end)
                  = (lead u ++ (if nonempty q then lit "?" ++ q else []), f)).
  { unfold tail. rewrite app_assoc.
    assert (Hfree : free 35 (lead u ++ (if nonempty q then lit "?" ++ q else []))).
    { apply free_app. split; [apply lead_Forall; [discriminate | exact Hu35]|].
      destruct (nonempty q); [constructor; [discriminate | exact Hq35] | constructor]. }
    destruct f as [|c f']; simpl nonempty; cbv iota.
    - rewrite app_nil_r, (cut_free _ _ Hfree). reflexivity.
    - change (lit "#" ++ c :: f') with (35%N :: c :: f').
      rewrite (cut_app _ _ _ Hfree). reflexivity. }
  assert (Hquery : (match cut 63 (lead u ++ (if nonempty q then lit "?" ++ q else []))
                    with (x, Some y) => (x, y) | (x, None) => (x, []) end)
                   = (lead u, q)).
  { assert (Hfree : free 63 (lead u)) by (apply lead_Forall; [discriminate | exact Hu63]).
    destruct q as [|c q']; simpl nonempty; cbv iota.
    - rewrite app_nil_r, (cut_free _ _ Hfree). reflexivity.
    - change (lit "?" ++ c :: q') with (63%N :: c :: q').
      rewrite (cut_app _ _ _ Hfree). reflexivity. }
  unfold Url.urlsplit. rewrite Hdflt, Hhead.
  change (eqb (take 2 (lit "//" ++ n ++ tail)) (lit "//")) with true.
  change (drop 2 (lit "//" ++ n ++ tail)) with (n ++ tail). cbv iota beta.
  rewrite (splitnetloc_app n tail Hn Htail_head).
  rewrite Hc1, Hc2, Hfrag, Hquery, Hc3. reflexivity.
Qed.

End Writing.

Section Segments.

Lemma cut_fst_app c s x : fst (cut c (s ++ c :: x)) = fst (cut c s).
Proof.
  induction s as [|a s IH]; simpl.
  - rewrite N.eqb_refl. reflexivity.
  - destruct (N.eqb a c); [reflexivity|].
    destruct (cut c (s ++ c :: x)), (cut c s). simpl in *. congruence.
Qed.

Lemma cut_fst_free c a s : free c a -> fst (cut c (a ++ s)) = a ++ fst (cut c s).
Proof.
  induction 1 as [|x a Hx Ha IH]; simpl; [reflexivity|].
  destruct (N.eqb_spec x c); [congruence|].
  destruct (cut c (a ++ s)). simpl in *. congruence.
Qed.

Lemma free_rev c s : free c s -> free c (rev s).
Proof. apply Forall_rev. Qed.

Lemma rcut_app c d seg : free c seg -> Url.rcut c (d ++ c :: seg) = (Some d, seg).
Proof.
  intros Hf. unfold Url.rcut. rewrite rev_app_distr. simpl. rewrite <- app_assoc. simpl.
  rewrite (cut_app c (rev seg) (rev d) (free_rev _ _ Hf)), !rev_involutive.
  reflexivity.
Qed.

Lemma rcut_free c s : free c s -> Url.rcut c s = (None, s).
Proof.
  intros Hf. unfold Url.rcut. rewrite (cut_free c (rev s) (free_rev _ _ Hf)), rev_involutive.
  reflexivity.
Qed.

Lemma rcut_found c s d seg :
  Url.rcut c s = (Some d, seg) -> s = d ++ c :: seg /\ free c seg.
Proof.
  unfold Url.rcut. destruct (cut c (rev s)) as [p [r|]] eqn:Hc; [|discriminate].
  intros [= <- <-]. apply cut_found in Hc as [Hs Hf]. split.
  - rewrite <- (rev_involutive s), Hs, rev_app_distr. simpl. rewrite <- app_assoc.
    reflexivity.
  - rewrite <- (rev_involutive p) in Hf. apply free_rev in Hf.
    rewrite rev_involutive in Hf. exact Hf.
Qed.

Lemma rcut_missing c s seg : Url.rcut c s = (None, seg) -> seg = s /\ free c s.
Proof.
  unfold Url.rcut. destruct (cut c (rev s)) as [p [r|]] eqn:Hc; [discriminate|].
  intros [= <-]. apply cut_missing in Hc as [-> Hf]. split; [apply rev_involutive|].
  rewrite <- (rev_involutive s). apply free_rev, Hf.
Qed.

(** The last segment of a text is what follows its last slash. *)
Lemma last_segment_after d s : last_segment (d ++ 47%N :: s) = last_segment s.
Proof.
  unfold last_segment, Url.rcut.
  rewrite rev_app_distr. simpl. rewrite <- app_assoc. simpl.
  pose proof (cut_fst_app 47 (rev s) (rev d)) as Hc.
  destruct (cut 47 (rev s ++ 47%N :: rev d)), (cut 47 (rev s)). simpl in *.
  congruence.
Qed.

Lemma last_segment_free s : free 47 s -> last_segment s = s.
Proof. intros Hf. unfold last_segment. rewrite (rcut_free _ _ Hf). reflexivity. Qed.

Lemma last_segment_app p t : free 47 t -> last_segment (p ++ t) = last_segment p ++ t.
Proof.
  intros Hf. unfold last_segment, Url.rcut. rewrite rev_app_distr.
  pose proof (cut_fst_free 47 (rev t) (rev p) (free_rev _ _ Hf)) as Hc.
  destruct (cut 47 (rev t ++ rev p)), (cut 47 (rev p)). simpl in *.
  rewrite Hc, rev_app_distr, rev_involutive. reflexivity.
Qed.

Lemma last_segment_Forall (P : N -> Prop) s : Forall P s -> Forall P (last_segment s).
Proof.
  intros Hs. unfold last_segment. destruct (Url.rcut 47 s) as [[d|] seg] eqn:Hr.
  - apply rcut_found in Hr as [-> _]. apply Forall_app in Hs as [_ Hs].
    inversion Hs. assumption.
  - apply rcut_missing in Hr as [-> _]. exact Hs.
Qed.

Lemma last_segment_lead u : last_segment (lead u) = last_segment u.
Proof.
  destruct (lead_cases u) as [[-> ->] | (t & -> & [-> | [_ ->]])]; [reflexivity .. |].
  apply (last_segment_after []).
Qed.

(** Where [urlparse] splits the parameters off, the path keeps no
    semicolon in its last segment and the parameters hold no slash. *)
Lemma splitparams_spec url p pa :
  contains 59 url = true ->
  Url.splitparams url = (p, pa) ->
  free 59 (last_segment p) /\ free 47 pa
  /\ (forall P : N -> Prop, Forall P url -> Forall P p /\ Forall P pa).
Proof.
  intros Hc. unfold Url.splitparams.
  destruct (Url.rcut 47 url) as [[d|] seg] eqn:Hr.
  - apply rcut_found in Hr as [-> Hseg].
    destruct (cut 59 seg) as [a [b|]] eqn:Hcut.
    + intros [= <- <-]. apply cut_found in Hcut as [-> Ha].
      apply free_app in Hseg as [Hsa Hsb]. apply free_cons in Hsb as [_ Hsb].
      split; [|split; [exact Hsb|]].
      * change (d ++ [47%N] ++ a) with (d ++ 47%N :: a).
        rewrite last_segment_after, (last_segment_free _ Hsa). exact Ha.
      * intros P HP. apply Forall_app in HP as [Hd HP]. inversion HP as [|? ? H47 HP']; subst.
        apply Forall_app in HP' as [Ha' Hb']. inversion Hb'; subst. split; [|assumption].
        apply Forall_app. split; [exact Hd | constructor; assumption].
    + intros [= <- <-]. apply cut_missing in Hcut as [_ Hf].
      rewrite last_segment_after, (last_segment_free _ Hseg).
      split; [exact Hf | split; [constructor|]]. intros P HP. split; [exact HP | constructor].
  - apply rcut_missing in Hr as [_ Hf].
    destruct (cut 59 url) as [a [b|]] eqn:Hcut.
    + intros [= <- <-]. apply cut_found in Hcut as [-> Ha].
      apply free_app in Hf as [Hfa Hfb]. apply free_cons in Hfb as [_ Hfb].
      split; [rewrite (last_segment_free _ Hfa); exact Ha | split; [exact Hfb|]].
      intros P HP. apply Forall_app in HP as [Ha' Hb']. inversion Hb'; subst. auto.
    + apply cut_missing in Hcut as [_ Hn]. apply contains_false in Hn. congruence.
Qed.

(** A text whose last segment does not end in its first semicolon is put
    together again from what [splitparams] makes of it. *)
Lemma splitparams_rejoin v p pa :
  contains 59 v = true ->
  match cut 59 (last_segment v) with (_, Some []) => False | _ => True end ->
  Url.splitparams v = (p, pa) -> rejoin p pa = v.
Proof.
  intros Hc Hst. unfold Url.splitparams, last_segment in *.
  destruct (Url.rcut 47 v) as [[d|] seg] eqn:Hr; simpl in Hst.
  - apply rcut_found in Hr as [-> Hseg].
    destruct (cut 59 seg) as [a [b|]] eqn:Hcut.
    + intros [= <- <-]. apply cut_found in Hcut as [-> Ha].
      destruct b as [|c b]; [contradiction|]. unfold rejoin. simpl nonempty. cbv iota.
      rewrite <- !app_assoc. reflexivity.
    + intros [= <- <-]. reflexivity.
  - apply rcut_missing in Hr as [-> Hf].
    destruct (cut 59 v) as [a [b|]] eqn:Hcut.
    + intros [= <- <-]. apply cut_found in Hcut as [-> Ha].
      destruct b as [|c b]; [contradiction|]. reflexivity.
    + apply cut_missing in Hcut as [_ Hn]. apply contains_false in Hn. congruence.
Qed.

(** Path and parameters of a parse, written after a network location, are
    stable in that sense. *)
Lemma rejoin_stable p pa :
  free 59 (last_segment p) -> free 47 pa ->
  match cut 59 (last_segment (lead (rejoin p pa))) with
  | (_, Some []) => False
  | _ => True
  end.
Proof.
  intros Hp Hpa. rewrite last_segment_lead. unfold rejoin.
  destruct pa as [|c pa]; simpl nonempty; cbv iota.
  - rewrite (cut_free _ _ Hp). exact I.
  - change (lit ";" ++ c :: pa) with (59%N :: c :: pa).
    rewrite last_segment_app.
    + rewrite (cut_app _ _ _ Hp). exact I.
    + constructor; [discriminate | exact Hpa].
Qed.

End Segments.

Section Parsing.
Context `{NetlocChecks}.

Lemma default_scheme_kept d :
  d = [] \/ valid_scheme d ->
  Url.remove_unsafe (rstrip_by Url.is_c0_or_space (lstrip_by Url.is_c0_or_space d)) = d.
Proof.
  intros [-> | Hv]; [reflexivity|].
  destruct (valid_scheme_chars d Hv) as (_ & Hs & Hc & _).
  rewrite (lstrip_by_none _ _ Hc), (rstrip_by_none _ _ Hc).
  apply remove_unsafe_id, Hs.
Qed.

Lemma netloc_part rest n rest2 :
  (if eqb (take 2 rest) (lit "//") then Url.splitnetloc (drop 2 rest) else ([], rest))
  = (n, rest2) ->
  Forall (fun c => Url.is_netloc_delim c = false) n
  /\ (forall P : N -> Prop, Forall P rest -> Forall P n /\ Forall P rest2).
Proof.
  destruct (eqb (take 2 rest) (lit "//")) eqn:He.
  - intros Hs. apply splitnetloc_spec in Hs as (Hd & Hn & _). split; [exact Hn|].
    intros P HP. apply Forall_app. rewrite <- Hd. apply Forall_drop, HP.
  - intros [= <- <-]. split; [constructor|]. intros P HP. split; [constructor | exact HP].
Qed.

(** What holds of the parts [urlsplit] returns. *)
Lemma urlsplit_spec url0 d r :
  d = [] \/ valid_scheme d ->
  Url.urlsplit url0 d = inr r ->
  (Url.s_scheme r = d \/ valid_scheme (Url.s_scheme r))
  /\ Forall (fun c => Url.is_netloc_delim c = false) (Url.s_netloc r)
  /\ safe (Url.s_netloc r) /\ netloc_passes (Url.s_netloc r) = true
  /\ free 63 (Url.s_path r) /\ free 35 (Url.s_path r) /\ safe (Url.s_path r)
  /\ free 35 (Url.s_query r) /\ safe (Url.s_query r)
  /\ safe (Url.s_fragment r).
Proof.
  intros Hd. unfold Url.urlsplit. rewrite (default_scheme_kept d Hd).
  pose proof (remove_unsafe_safe (lstrip_by Url.is_c0_or_space url0)) as Hsafe.
  destruct (Url.split_scheme _ d) as [sch rest] eqn:Hss.
  assert (Hrest : safe rest).
  { apply split_scheme_spec in Hss as [[_ ->] | (_ & pre & Hp)]; [exact Hsafe|].
    rewrite Hp in Hsafe. apply Forall_app in Hsafe as [_ Hs]. inversion Hs. assumption. }
  assert (Hsch : sch = d \/ valid_scheme sch).
  { apply split_scheme_spec in Hss as [[-> _] | [Hv _]]; auto. }
  destruct (if eqb (take 2 rest) (lit "//") then Url.splitnetloc (drop 2 rest)
            else ([], rest)) as [n rest2] eqn:Hn.
  apply netloc_part in Hn as [Hnd Hparts].
  destruct (Hparts _ Hrest) as [Hns Hr2].
  destruct (contains 91 n && negb (contains 93 n) || contains 93 n && negb (contains 91 n))
    eqn:Hc1; [discriminate|].
  destruct (contains 91 n && contains 93 n && negb (bracketed_netloc_ok n)) eqn:Hc2;
    [discriminate|].
  destruct (cut 35 rest2) as [x fr] eqn:Hcf.
  assert (Hx : free 35 x /\ safe x /\ safe (default [] fr)).
  { destruct (cut_Forall _ _ _ _ _ Hr2 Hcf) as [Hxs Hfs].
    destruct fr as [fr|].
    - apply cut_found in Hcf as [_ Hf]. auto.
    - apply cut_missing in Hcf as [-> Hf]. repeat split; [exact Hf | exact Hxs | constructor]. }
  destruct Hx as (Hx35 & Hxs & Hfrs).
  assert (Hrem : forall fr',
             safe fr' ->
             (let '(url, query) :=
                match cut 63 x with (u, Some q) => (u, q) | (u, None) => (u, []) end in
              if nonempty n && negb (Url.is_ascii n) && negb (nfkc_netloc_ok n)
              then inl (Exn ValueError
                          (lit "netloc '" ++ n
                           ++ lit "' contains invalid characters under NFKC normalization"))
              else inr (Url.mkSplit sch n url query fr')) = inr r ->
             (Url.s_scheme r = d \/ valid_scheme (Url.s_scheme r))
             /\ Forall (fun c => Url.is_netloc_delim c = false) (Url.s_netloc r)
             /\ safe (Url.s_netloc r) /\ netloc_passes (Url.s_netloc r) = true
             /\ free 63 (Url.s_path r) /\ free 35 (Url.s_path r) /\ safe (Url.s_path r)
             /\ free 35 (Url.s_query r) /\ safe (Url.s_query r)
             /\ safe (Url.s_fragment r)).
  { intros fr' Hfr'.
    destruct (cut 63 x) as [pth qr] eqn:Hcq.
    destruct (cut_Forall _ _ _ _ _ Hxs Hcq) as [Hps Hqs].
    destruct (cut_Forall _ _ _ _ _ Hx35 Hcq) as [Hp35 Hq35].
    assert (Hp63 : free 63 pth).
    { destruct qr as [qr|]; [apply cut_found in Hcq as [_ Hf]
                            | apply cut_missing in Hcq as [-> Hf]]; exact Hf. }
    destruct (nonempty n && negb (Url.is_ascii n) && negb (nfkc_netloc_ok n)) eqn:Hc3.
    { destruct qr; discriminate. }
    assert (Hnp : netloc_passes n = true).
    { unfold netloc_passes. rewrite Hc1, Hc2, Hc3. reflexivity. }
    destruct qr as [qr|]; intros [= <-]; simpl; repeat split; auto; constructor. }
  destruct fr as [fr|]; apply Hrem; exact Hfrs.
Qed.

Lemma last_segment_free59 s : free 59 s -> free 59 (last_segment s).
Proof. apply last_segment_Forall. Qed.

(** What holds of every result of [urlparse]. *)
Lemma urlparse_parsed url d r :
  d = [] \/ valid_scheme d ->
  Url.urlparse url d = inr r ->
  parsed r /\ (Url.scheme r = d \/ valid_scheme (Url.scheme r)).
Proof.
  intros Hd. unfold Url.urlparse. destruct (Url.urlsplit url d) as [e | sr] eqn:Hs;
    [discriminate|].
  destruct (urlsplit_spec url d sr Hd Hs)
    as (Hsch & Hnd & Hns & Hnp & Hp63 & Hp35 & Hps & Hq35 & Hqs & Hfs).
  assert (Hsch' : Url.s_scheme sr = [] \/ valid_scheme (Url.s_scheme sr)).
  { destruct Hsch as [-> | Hv]; auto. }
  destruct (Url.in_list (Url.s_scheme sr) Url.uses_params) eqn:Hup; simpl andb.
  - destruct (contains 59 (Url.s_path sr)) eqn:H59.
    + destruct (Url.splitparams (Url.s_path sr)) as [p pa] eqn:Hsp.
      intros [= <-]. split; [|exact Hsch].
      destruct (splitparams_spec _ _ _ H59 Hsp) as (Hl & Hpa47 & Hall).
      destruct (Hall _ Hp63) as [? ?]. destruct (Hall _ Hp35) as [? ?].
      destruct (Hall _ Hps) as [? ?].
      constructor;
        cbn [Url.scheme Url.netloc Url.path Url.params Url.query Url.fragment]; auto. rewrite Hup. exact Hl.
    + intros [= <-]. split; [|exact Hsch].
      constructor;
        cbn [Url.scheme Url.netloc Url.path Url.params Url.query Url.fragment]; auto.
      * repeat split; constructor.
      * rewrite Hup. apply last_segment_free59, contains_false, H59.
  - intros [= <-]. split; [|exact Hsch].
    constructor;
        cbn [Url.scheme Url.netloc Url.path Url.params Url.query Url.fragment]; auto.
    + repeat split; constructor.
    + rewrite Hup. reflexivity.
Qed.

End Parsing.

Section RoundTrip.
Context `{NetlocChecks}.

Lemma written_lead sch n u v q f : lead u = lead v -> written sch n u q f = written sch n v q f.
Proof. unfold written. intros ->. reflexivity. Qed.

Lemma urlunparse_written r :
  nonempty (Url.netloc r) = true ->
  Url.urlunparse r
  = written (Url.scheme r) (Url.netloc r) (rejoin (Url.path r) (Url.params r))
      (Url.query r) (Url.fragment r).
Proof. intros Hn. unfold Url.urlunparse. fold (rejoin (Url.path r) (Url.params r)).
  apply urlunsplit_written, Hn. Qed.

Lemma rejoin_Forall (P : N -> Prop) p pa :
  P 59%N -> Forall P p -> Forall P pa -> Forall P (rejoin p pa).
Proof.
  intros Hs Hp Hpa. unfold rejoin. destruct (nonempty pa); [|exact Hp].
  apply Forall_app. split; [exact Hp | constructor; assumption].
Qed.

(** A URL written from a parse with a network location is read back as a
    parse that writes the same URL. *)
Lemma urlparse_urlunparse r :
  parsed r -> nonempty (Url.netloc r) = true ->
  exists r',
    Url.urlparse (Url.urlunparse r) (Url.scheme r) = inr r'
    /\ Url.scheme r' = Url.scheme r
    /\ Url.netloc r' = Url.netloc r
    /\ Url.urlunparse r' = Url.urlunparse r.
Proof.
  intros [Hsch (Hnd & Hns & Hnp) (Hp63 & Hp35 & Hps) (Hpa47 & Hpa63 & Hpa35 & Hpas)
            (Hq35 & Hqs) Hfs Hsplit] Hn.
  rewrite (urlunparse_written r Hn).
  set (pp := rejoin (Url.path r) (Url.params r)).
  assert (Hpp63 : free 63 pp) by (apply rejoin_Forall; [discriminate | assumption ..]).
  assert (Hpp35 : free 35 pp) by (apply rejoin_Forall; [discriminate | assumption ..]).
  assert (Hpps : safe pp) by (apply rejoin_Forall; [reflexivity | assumption ..]).
  unfold Url.urlparse.
  rewrite (urlsplit_written _ _ pp _ _ Hsch Hnd Hns Hnp Hpp63 Hpp35 Hpps Hq35 Hqs Hfs).
  cbn [Url.s_scheme Url.s_netloc Url.s_path Url.s_query Url.s_fragment].
  destruct (Url.in_list (Url.scheme r) Url.uses_params && contains 59 (lead pp)) eqn:Hc.
  - apply andb_true_iff in Hc as [Hup H59]. rewrite Hup in Hsplit.
    destruct (Url.splitparams (lead pp)) as [a b] eqn:Hsp.
    eexists. split; [reflexivity|].
    cbn [Url.scheme Url.netloc]. repeat split.
    rewrite urlunparse_written by exact Hn.
    cbn [Url.scheme Url.netloc Url.path Url.params Url.query Url.fragment].
    apply written_lead.
    rewrite (splitparams_rejoin (lead pp) a b H59 (rejoin_stable _ _ Hsplit Hpa47) Hsp).
    apply lead_idem.
  - eexists. split; [reflexivity|].
    cbn [Url.scheme Url.netloc]. repeat split.
    rewrite urlunparse_written by exact Hn.
    cbn [Url.scheme Url.netloc Url.path Url.params Url.query Url.fragment].
    apply written_lead. unfold rejoin at 1. simpl nonempty. cbv iota. apply lead_idem.
Qed.

Lemma relative_uses_netloc s :
  Url.in_list s Url.uses_relative = true -> Url.in_list s Url.uses_netloc = true.
Proof.
  unfold Url.in_list at 1. intros Hin. apply existsb_exists in Hin as (x & Hx & He).
  apply eqb_true in He. subst s. simpl in Hx.
  repeat (destruct Hx as [<- | Hx]; [vm_compute; reflexivity|]). contradiction.
Qed.

Lemma written_nonempty sch n u q f : nonempty (written sch n u q f) = true.
Proof. unfold written. destruct sch; reflexivity. Qed.

(** Joining a URL written from a parse that has the scheme of the base,
    a scheme for relative URLs, and a network location gives that URL. *)
Lemma urljoin_written base b r :
  nonempty base = true ->
  Url.urlparse base [] = inr b ->
  parsed r -> nonempty (Url.netloc r) = true ->
  Url.scheme r = Url.scheme b ->
  Url.in_list (Url.scheme r) Url.uses_relative = true ->
  Url.urljoin base (Url.urlunparse r) = inr (Url.urlunparse r).
Proof.
  intros Hbase Hb Hr Hn Hs Hrel.
  destruct (urlparse_urlunparse r Hr Hn) as (r' & Hp & Hs' & Hn' & Hw).
  unfold Url.urljoin. rewrite Hbase. cbn [negb].
  assert (Hne : nonempty (Url.urlunparse r) = true).
  { rewrite (urlunparse_written r Hn). apply written_nonempty. }
  rewrite Hne. cbn [negb].
  rewrite Hb. cbv beta iota. rewrite <- Hs, Hp. cbv beta iota. rewrite Hs'.
  assert (He : eqb (Url.scheme r) (Url.scheme r) = true) by (apply eqb_true; reflexivity).
  rewrite He, Hrel, (relative_uses_netloc _ Hrel), Hn', Hn. cbn [negb orb andb].
  rewrite Hw. reflexivity.
Qed.

End RoundTrip.

Section Paths.

Lemma split_nonempty c s : split c s <> [].
Proof.
  destruct s as [|a s]; simpl; [discriminate|].
  destruct (N.eqb a c); [discriminate|]. destruct (split c s); discriminate.
Qed.

Lemma split_Forall (P : N -> Prop) c s : Forall P s -> Forall (Forall P) (split c s).
Proof.
  induction 1 as [|a s Ha Hs IH]; simpl; [repeat constructor|].
  destruct (N.eqb a c); [constructor; [constructor | exact IH]|].
  destruct (split c s) as [|p ps]; [repeat constructor; exact Ha|].
  inversion IH; subst. constructor; [constructor; assumption | assumption].
Qed.

Lemma split_free c s : Forall (free c) (split c s).
Proof.
  induction s as [|a s IH]; simpl; [repeat constructor|].
  destruct (N.eqb_spec a c); [constructor; [constructor | exact IH]|].
  destruct (split c s) as [|p ps]; [repeat constructor; exact n|].
  inversion IH; subst. constructor; [constructor; assumption | assumption].
Qed.

Lemma join_cons sep p q l : join sep (p :: q :: l) = p ++ sep ++ join sep (q :: l).
Proof. reflexivity. Qed.

Lemma join_split c s : join [c] (split c s) = s.
Proof.
  induction s as [|a s IH]; simpl split; [reflexivity|].
  pose proof (split_nonempty c s) as Hne.
  destruct (N.eqb_spec a c) as [-> | Hac].
  - destruct (split c s) as [|q l]; [congruence|]. rewrite join_cons, IH. reflexivity.
  - destruct (split c s) as [|p [|q l]]; [congruence | |].
    + simpl in *. congruence.
    + rewrite join_cons. rewrite join_cons in IH. simpl. simpl in IH. congruence.
Qed.

Lemma join_Forall (P : N -> Prop) sep l :
  Forall P sep -> Forall (Forall P) l -> Forall P (join sep l).
Proof.
  intros Hsep. induction 1 as [|p l Hp Hl IH]; [constructor|].
  destruct l as [|q l]; [exact Hp|]. rewrite join_cons.
  apply Forall_app. split; [exact Hp|]. apply Forall_app. split; [exact Hsep | exact IH].
Qed.

(** The last segment of joined segments is the last of them. *)
Lemma join_last_segment l :
  Forall (free 47) l -> l <> [] -> last_segment (join (lit "/") l) = List.last l [].
Proof.
  induction 1 as [|p l Hp Hl IH]; [congruence|]. intros _.
  destruct l as [|q l]; [apply last_segment_free, Hp|].
  rewrite join_cons. change (lit "/" ++ join (lit "/") (q :: l))
    with (47%N :: join (lit "/") (q :: l)).
  rewrite last_segment_after. apply IH. discriminate.
Qed.

Lemma split_last s : last_item (split 47 s) = last_segment s.
Proof.
  unfold last_item. rewrite <- join_last_segment.
  - change (lit "/") with [47%N]. rewrite join_split. reflexivity.
  - apply split_free.
  - apply split_nonempty.
Qed.

Lemma removelast_Forall {A} (P : A -> Prop) l : Forall P l -> Forall P (removelast l).
Proof.
  induction 1 as [|x l Hx Hl IH]; [constructor|].
  simpl. destruct l; [constructor | constructor; assumption].
Qed.

Lemma last_Forall {A} (P : A -> Prop) l d : Forall P l -> P d -> P (List.last l d).
Proof.
  intros Hl Hd. induction Hl as [|x l Hx Hl IH]; [exact Hd|].
  simpl. destruct l; [exact Hx | exact IH].
Qed.

Lemma filter_middle_Forall (P : pystr -> Prop) l :
  P [] -> Forall P l -> Forall P (Url.filter_middle l).
Proof.
  intros Hd Hl. destruct l as [|s0 [|s1 rest]]; [constructor | exact Hl |].
  inversion Hl as [|? ? H0 Hr]; subst. unfold Url.filter_middle.
  constructor; [exact H0|]. apply Forall_app. split.
  - apply List.Forall_forall. intros x Hx. apply filter_In in Hx as [Hx _].
    revert x Hx. apply List.Forall_forall. apply removelast_Forall, Hr.
  - constructor; [apply last_Forall; assumption | constructor].
Qed.

Lemma filter_middle_last l : List.last (Url.filter_middle l) [] = List.last l [].
Proof.
  destruct l as [|s0 [|s1 rest]]; [reflexivity .. |].
  unfold Url.filter_middle.
  change (s0 :: List.filter nonempty (removelast (s1 :: rest)) ++ [List.last (s1 :: rest) []])
    with ((s0 :: List.filter nonempty (removelast (s1 :: rest)))
          ++ [List.last (s1 :: rest) []]).
  rewrite last_last. reflexivity.
Qed.

Lemma filter_middle_nonempty l : l <> [] -> Url.filter_middle l <> [].
Proof. destruct l as [|s0 [|s1 rest]]; [congruence | discriminate | discriminate]. Qed.

Lemma resolve_step_Forall (P : pystr -> Prop) acc seg :
  Forall P acc -> P seg -> Forall P (Url.resolve_step acc seg).
Proof.
  intros Ha Hs. unfold Url.resolve_step.
  destruct (eqb seg (lit "..")); [apply removelast_Forall, Ha|].
  destruct (eqb seg (lit ".")); [exact Ha|].
  apply Forall_app. split; [exact Ha | constructor; [exact Hs | constructor]].
Qed.

Lemma resolve_fold_Forall (P : pystr -> Prop) segs acc :
  Forall P acc -> Forall P segs -> Forall P (fold_left Url.resolve_step segs acc).
Proof.
  intros Ha Hs. revert acc Ha. induction Hs as [|seg segs Hseg Hs IH]; intros acc Ha;
    [exact Ha|].
  simpl. apply IH, resolve_step_Forall; assumption.
Qed.

Lemma resolve_path_unfold bpath path :
  Url.resolve_path bpath path
  = let joined := join (lit "/") (resolved_of (segments_of bpath path)) in
    if nonempty joined then joined else lit "/".
Proof. reflexivity. Qed.

Lemma segments_of_Forall (P : pystr -> Prop) bpath path :
  P [] -> Forall P (split 47 bpath) -> Forall P (split 47 path) ->
  Forall P (segments_of bpath path).
Proof.
  intros Hd Hb Hp. unfold segments_of.
  destruct (eqb (take 1 path) (lit "/")); [exact Hp|].
  apply filter_middle_Forall; [exact Hd|]. apply Forall_app. split; [|exact Hp].
  destruct (nonempty _); [apply removelast_Forall|]; exact Hb.
Qed.

Lemma segments_of_last bpath path :
  segments_of bpath path <> []
  /\ List.last (segments_of bpath path) [] = last_segment path.
Proof.
  unfold segments_of. pose proof (split_nonempty 47 path) as Hne.
  destruct (eqb (take 1 path) (lit "/")).
  - split; [exact Hne | apply split_last].
  - split.
    + apply filter_middle_nonempty. intros Ha. apply app_eq_nil in Ha as [_ Ha]. congruence.
    + rewrite filter_middle_last.
      destruct (exists_last Hne) as (init & x & Hx). rewrite Hx, app_assoc, last_last.
      rewrite <- split_last. unfold last_item. rewrite Hx, last_last. reflexivity.
Qed.

Lemma resolved_of_Forall (P : pystr -> Prop) segs :
  P [] -> Forall P segs -> Forall P (resolved_of segs).
Proof.
  intros Hd Hs. unfold resolved_of.
  assert (Hf : Forall P (fold_left Url.resolve_step segs []))
    by (apply resolve_fold_Forall; [constructor | exact Hs]).
  destruct (_ || _); [|exact Hf].
  apply Forall_app. split; [exact Hf | repeat constructor; exact Hd].
Qed.

(** The last resolved segment is empty or the last segment given. *)
Lemma resolved_of_last segs :
  segs <> [] ->
  List.last (resolved_of segs) [] = [] \/ List.last (resolved_of segs) [] = List.last segs [].
Proof.
  intros Hne. unfold resolved_of, last_item.
  destruct (exists_last Hne) as (init & x & ->). rewrite last_last.
  destruct (eqb x (lit ".") || eqb x (lit "..")) eqn:Hd.
  - left. apply last_last.
  - right. apply orb_false_iff in Hd as [Hd1 Hd2].
    rewrite fold_left_app. simpl. unfold Url.resolve_step at 1. rewrite Hd2, Hd1.
    apply last_last.
Qed.

(** The characters of a resolved path are those of the two paths and the
    slash. *)
Lemma resolve_path_Forall (P : N -> Prop) bpath path :
  P 47%N -> Forall P bpath -> Forall P path -> Forall P (Url.resolve_path bpath path).
Proof.
  intros Hs Hb Hp. rewrite resolve_path_unfold. cbv zeta.
  destruct (nonempty _); [|repeat constructor; exact Hs].
  apply join_Forall; [repeat constructor; exact Hs|].
  apply resolved_of_Forall; [constructor|].
  apply segments_of_Forall; [constructor | apply split_Forall; assumption ..].
Qed.

(** The last segment of a resolved path has no semicolon if that of the
    reference has none. *)
Lemma resolve_path_last bpath path :
  free 59 (last_segment path) -> free 59 (last_segment (Url.resolve_path bpath path)).
Proof.
  intros Hl. rewrite resolve_path_unfold. cbv zeta.
  destruct (nonempty (join _ _)) eqn:Hj; [|vm_compute; constructor].
  destruct (segments_of_last bpath path) as [Hne Hlast].
  assert (Hres : resolved_of (segments_of bpath path) <> []).
  { intros He. rewrite He in Hj. discriminate. }
  rewrite join_last_segment; [| |exact Hres].
  - destruct (resolved_of_last _ Hne) as [-> | ->]; [constructor|].
    rewrite Hlast. exact Hl.
  - apply resolved_of_Forall; [constructor|].
    apply segments_of_Forall; [constructor | apply split_free ..].
Qed.

End Paths.

Section Idempotence.
Context `{NetlocChecks}.

Lemma urljoin_unchanged base url b u :
  nonempty base = true -> nonempty url = true ->
  Url.urlparse base [] = inr b ->
  Url.urlparse url (Url.scheme b) = inr u ->
  negb (eqb (Url.scheme u) (Url.scheme b))
  || negb (Url.in_list (Url.scheme u) Url.uses_relative) = true ->
  Url.urljoin base url = inr url.
Proof.
  intros Hbase Hurl Hb Hu Hc. unfold Url.urljoin.
  rewrite Hbase, Hurl. cbn [negb]. rewrite Hb. cbv beta iota. rewrite Hu. cbv beta iota.
  rewrite Hc. reflexivity.
Qed.

(** A reference with the scheme of the base and a network location of its
    own is written again from the parts [urlparse] cut it into. *)
Lemma urljoin_rewritten base url b u :
  nonempty base = true -> nonempty url = true ->
  Url.urlparse base [] = inr b ->
  Url.urlparse url (Url.scheme b) = inr u ->
  Url.scheme u = Url.scheme b ->
  Url.in_list (Url.scheme u) Url.uses_relative = true ->
  nonempty (Url.netloc u) = true ->
  Url.urljoin base url = inr (Url.urlunparse u).
Proof.
  intros Hbase Hurl Hb Hu Hs Hrel Hn. unfold Url.urljoin.
  rewrite Hbase, Hurl. cbn [negb]. rewrite Hb. cbv beta iota. rewrite Hu. cbv beta iota.
  assert (He : eqb (Url.scheme u) (Url.scheme b) = true) by (apply eqb_true; exact Hs).
  rewrite He, Hrel, (relative_uses_netloc _ Hrel), Hn. reflexivity.
Qed.

(** Resolving a resolved URL again changes nothing, for a base with a
    network location and for a base whose scheme takes no relative
    URLs. *)
Theorem urljoin_idempotent base url b r :
  url <> [] ->
  Url.urlparse base [] = inr b ->
  nonempty (Url.netloc b) = true
  \/ Url.in_list (Url.scheme b) Url.uses_relative = false ->
  Url.urljoin base url = inr r ->
  Url.urljoin base r = inr r.
Proof.
  intros Hurl Hb Hbase Hj.
  assert (Hne : nonempty url = true) by (destruct url; [congruence | reflexivity]).
  destruct (nonempty base) eqn:Hnb.
  2:{ unfold Url.urljoin in *. rewrite Hnb in *. cbn [negb] in *. exact (f_equal _ eq_refl). }
  destruct (urlparse_parsed base [] b (or_introl eq_refl) Hb) as [Hpb _].
  pose proof Hj as Hj0. unfold Url.urljoin in Hj.
  rewrite Hnb, Hne in Hj. cbn [negb] in Hj. rewrite Hb in Hj. cbv beta iota in Hj.
  destruct (Url.urlparse url (Url.scheme b)) as [e | u] eqn:Hu; [discriminate|].
  cbv beta iota in Hj.
  destruct (urlparse_parsed url (Url.scheme b) u (parsed_scheme b Hpb) Hu) as [Hpu _].
  destruct (negb (eqb (Url.scheme u) (Url.scheme b))
            || negb (Url.in_list (Url.scheme u) Url.uses_relative)) eqn:HA.
  { injection Hj as <-. exact Hj0. }
  apply orb_false_iff in HA as [Hs Hrel].
  apply negb_false_iff in Hs, Hrel. apply eqb_true in Hs.
  assert (Hnetb : nonempty (Url.netloc b) = true).
  { destruct Hbase as [Hn | Hn]; [exact Hn|]. rewrite Hs in Hrel. congruence. }
  rewrite (relative_uses_netloc _ Hrel) in Hj. cbn [andb] in Hj.
  destruct Hpu as [Husch Hunet (Hup63 & Hup35 & Hups) Huparams Huq Huf Husplit].
  destruct Hpb as [Hbsch Hbnet Hbpath Hbparams Hbq Hbf Hbsplit].
  destruct (nonempty (Url.netloc u)) eqn:Hnu.
  - injection Hj as <-. apply (urljoin_written base b u Hnb Hb); auto.
    constructor; auto.
  - destruct (negb (nonempty (Url.path u)) && negb (nonempty (Url.params u))) eqn:HC;
      injection Hj as <-.
    + apply (urljoin_written base b _ Hnb Hb); auto.
      constructor; cbn [Url.scheme Url.netloc Url.path Url.params Url.query Url.fragment];
        auto.
      * destruct (nonempty (Url.query u)); assumption.
      * rewrite Hs. exact Hbsplit.
    + apply (urljoin_written base b _ Hnb Hb); auto.
      constructor; cbn [Url.scheme Url.netloc Url.path Url.params Url.query Url.fragment];
        auto.
      * destruct Hbpath as (Hb63 & Hb35 & Hbs).
        repeat split; apply resolve_path_Forall; auto; discriminate.
      * destruct (Url.in_list (Url.scheme u) Url.uses_params); [|exact Husplit].
        apply resolve_path_last, Husplit.
Qed.

End Idempotence.

Section Resolution.
Context `{NetlocChecks} `{Outside}.

(** For two non-empty strings [resolve_url] is [urljoin]. *)
Lemma resolve_url_str cu u :
  cu <> [] -> u <> [] ->
  resolve_url (PStr cu) (PStr u)
  = match Url.urljoin cu u with inl e => inl e | inr r => inr (PStr r) end.
Proof.
  intros Hc Hu. destruct cu; [congruence|]. destruct u; [congruence|]. reflexivity.
Qed.

(** Downloads and submissions go to the resolved URLs only. *)
Lemma execute_plan_targets email secret current_url page plan s data_url submit_url :
  resolve_url current_url (dict_get plan (lit "data_url")) = inr data_url ->
  resolve_url current_url (dict_get plan (lit "submit_url")) = inr submit_url ->
  exists evs,
    st_trace (snd (execute_plan email secret current_url page plan s)) = st_trace s ++ evs
    /\ Forall (fun ev =>
                 (forall u, download_target ev = Some u -> u = data_url)
                 /\ (forall u, submission_target ev = Some u -> u = submit_url)) evs.
Proof.
  intros Hd Hs.
  set (P := fun ev =>
              (forall u, download_target ev = Some u -> u = data_url)
              /\ (forall u, submission_target ev = Some u -> u = submit_url)).
  set (rest := data_context <- acquire_data page data_url;;
               answer_and_submit email secret current_url
                 (dict_get plan (lit "question")) submit_url data_context).
  assert (Heq : execute_plan email secret current_url page plan s
                = rest (log [EvPrint (LogPlanReceived (dict_get plan (lit "question")))] s)).
  { unfold execute_plan. rewrite (bind_ok _ _ _ _ _ (print_run _ _)).
    unfold bind at 1. unfold lift at 1. rewrite Hd.
    unfold bind at 1. unfold lift at 1. rewrite Hs. reflexivity. }
  assert (Hfp : footprint P rest).
  { unfold rest, acquire_data, file_failed, answer_and_submit, submit_answer,
      process_result, extract_text, download_file, get_text_from_pdf,
      get_text_from_csv, get_answer_from_llm.
    repeat footprint_step;
      try solve [split; intros ? Hx; simpl in Hx; congruence]. }
  destruct (Hfp (log [EvPrint (LogPlanReceived (dict_get plan (lit "question")))] s))
    as (evs & Ht & Hall).
  rewrite Heq, Ht. eexists. split.
  - simpl. rewrite <- app_assoc. reflexivity.
  - constructor; [split; intros ? Hx; simpl in Hx; congruence | exact Hall].
Qed.

(** When the resolution of a URL raises, nothing is downloaded or
    submitted. *)
Lemma execute_plan_unresolved email secret current_url page plan s e :
  resolve_url current_url (dict_get plan (lit "data_url")) = inl e
  \/ (exists data_url,
        resolve_url current_url (dict_get plan (lit "data_url")) = inr data_url
        /\ resolve_url current_url (dict_get plan (lit "submit_url")) = inl e) ->
  execute_plan email secret current_url page plan s
  = (inl e, log [EvPrint (LogPlanReceived (dict_get plan (lit "question")))] s).
Proof.
  intros Hr. unfold execute_plan. rewrite (bind_ok _ _ _ _ _ (print_run _ _)).
  destruct Hr as [Hd | (data_url & Hd & Hs)].
  - unfold bind at 1. unfold lift at 1. rewrite Hd. reflexivity.
  - unfold bind at 1. unfold lift at 1. rewrite Hd.
    unfold bind at 1. unfold lift at 1. rewrite Hs. reflexivity.
Qed.

(** C5 (as amended): the resolution of the plan's URLs.  Against
    [https://h/p/q] the relative [data.csv] resolves to
    [https://h/p/data.csv] and the root-relative [/data.csv] to
    [https://h/data.csv].  An absolute URL whose scheme is not that of the
    current URL comes back unchanged.  One with the scheme of the current
    URL (a scheme that takes relative references, as [http] and [https] do)
    and a network location is written again from the parts [urlparse] cuts
    it into: scheme, [//] and network location, path with its parameters,
    query and fragment; that leaves [https://cdn.example/files/data.csv] as
    it is.  Against a current URL that has a network location, resolving a
    resolved URL again changes nothing.  The agent loop resolves both URLs
    of the plan before the data step: every download and every submission of
    the turn goes to the resolved URL, and when a resolution raises there is
    none. *)
Theorem C5_url_resolution :
  Url.urljoin (lit "https://h/p/q") (lit "data.csv") = inr (lit "https://h/p/data.csv")
  /\ Url.urljoin (lit "https://h/p/q") (lit "/data.csv") = inr (lit "https://h/data.csv")
  /\ Url.urljoin (lit "https://h/p/q") (lit "https://cdn.example/files/data.csv")
     = inr (lit "https://cdn.example/files/data.csv")
  /\ (forall base url b u,
        base <> [] -> url <> [] ->
        Url.urlparse base [] = inr b ->
        Url.urlparse url (Url.scheme b) = inr u ->
        Url.scheme u <> Url.scheme b ->
        Url.urljoin base url = inr url)
  /\ (forall base url b u,
        base <> [] -> url <> [] ->
        Url.urlparse base [] = inr b ->
        Url.urlparse url (Url.scheme b) = inr u ->
        Url.scheme u = Url.scheme b ->
        Url.in_list (Url.scheme b) Url.uses_relative = true ->
        Url.netloc u <> [] ->
        Url.urljoin base url = inr (Url.urlunparse u)
        /\ Url.urlunparse u
           = written (Url.scheme u) (Url.netloc u) (rejoin (Url.path u) (Url.params u))
               (Url.query u) (Url.fragment u))
  /\ (forall base url b r,
        url <> [] ->
        Url.urlparse base [] = inr b ->
        Url.netloc b <> [] ->
        Url.urljoin base url = inr r ->
        Url.urljoin base r = inr r)
  /\ (forall cu u,
        cu <> [] -> u <> [] ->
        resolve_url (PStr cu) (PStr u)
        = match Url.urljoin cu u with inl e => inl e | inr r => inr (PStr r) end)
  /\ (forall email secret current_url page plan s data_url submit_url,
        resolve_url current_url (dict_get plan (lit "data_url")) = inr data_url ->
        resolve_url current_url (dict_get plan (lit "submit_url")) = inr submit_url ->
        exists evs,
          st_trace (snd (execute_plan email secret current_url page plan s))
          = st_trace s ++ evs
          /\ Forall (fun ev =>
                       (forall u, download_target ev = Some u -> u = data_url)
                       /\ (forall u, submission_target ev = Some u -> u = submit_url))
               evs)
  /\ (forall email secret current_url page plan s e,
        resolve_url current_url (dict_get plan (lit "data_url")) = inl e
        \/ (exists data_url,
              resolve_url current_url (dict_get plan (lit "data_url")) = inr data_url
              /\ resolve_url current_url (dict_get plan (lit "submit_url")) = inl e) ->
        execute_plan email secret current_url page plan s
        = (inl e, log [EvPrint (LogPlanReceived (dict_get plan (lit "question")))] s)).
Proof.
  split; [vm_compute; reflexivity|].
  split; [vm_compute; reflexivity|].
  split; [vm_compute; reflexivity|].
  split.
  { intros base url b u Hb Hu Hpb Hpu Hs.
    apply (urljoin_unchanged base url b u); auto.
    - destruct base; [congruence | reflexivity].
    - destruct url; [congruence | reflexivity].
    - apply orb_true_iff. left. apply negb_true_iff, eqb_false, Hs. }
  split.
  { intros base url b u Hb Hu Hpb Hpu Hs Hrel Hn.
    assert (Hnu : nonempty (Url.netloc u) = true)
      by (destruct (Url.netloc u); [congruence | reflexivity]).
    split; [|apply urlunparse_written, Hnu].
    apply (urljoin_rewritten base url b u); auto.
    - destruct base; [congruence | reflexivity].
    - destruct url; [congruence | reflexivity].
    - rewrite Hs. exact Hrel. }
  split.
  { intros base url b r Hu Hpb Hn Hj.
    apply (urljoin_idempotent base url b r); auto.
    left. destruct (Url.netloc b); [congruence | reflexivity]. }
  split; [exact resolve_url_str|].
  split; [exact execute_plan_targets | exact execute_plan_unresolved].
Qed.

End Resolution.

Lemma C5_url_resolution_witness :
  let base := lit "https://h/p/q" in
  (* a reference with dot segments, a query and a fragment, resolved twice *)
  @Url.urljoin Demo.checks base (lit "../x/./data.csv;v=1?a=b#top")
  = inr (lit "https://h/x/data.csv;v=1?a=b#top")
  /\ @Url.urljoin Demo.checks base (lit "https://h/x/data.csv;v=1?a=b#top")
     = inr (lit "https://h/x/data.csv;v=1?a=b#top")
  (* an absolute URL with another scheme *)
  /\ @Url.urljoin Demo.checks base (lit "HTTP://H/Data.csv") = inr (lit "HTTP://H/Data.csv")
  (* an absolute URL with the same scheme, written again from its parts *)
  /\ @Url.urljoin Demo.checks base (lit "HTTPS://cdn.example/a;b?c#d")
     = inr (lit "https://cdn.example/a;b?c#d").
Proof.
  intros base.
  pose proof (@C5_url_resolution Demo.checks (Demo.outside Demo.secret_code))
    as (_ & _ & _ & Hother & Hsame & Hidem & _).
  assert (H1 : @Url.urljoin Demo.checks base (lit "../x/./data.csv;v=1?a=b#top")
               = inr (lit "https://h/x/data.csv;v=1?a=b#top"))
    by (vm_compute; reflexivity).
  split; [exact H1|]. split.
  - refine (Hidem base (lit "../x/./data.csv;v=1?a=b#top")
              (Url.mkParse (lit "https") (lit "h") (lit "/p/q") [] [] []) _ _ _ _ H1).
    + discriminate.
    + vm_compute. reflexivity.
    + discriminate.
  - split.
    + refine (Hother base (lit "HTTP://H/Data.csv")
                (Url.mkParse (lit "https") (lit "h") (lit "/p/q") [] [] [])
                (Url.mkParse (lit "http") (lit "H") (lit "/Data.csv") [] [] []) _ _ _ _ _).
      * discriminate.
      * discriminate.
      * vm_compute. reflexivity.
      * vm_compute. reflexivity.
      * discriminate.
    + refine (proj1 (Hsame base (lit "HTTPS://cdn.example/a;b?c#d")
                       (Url.mkParse (lit "https") (lit "h") (lit "/p/q") [] [] [])
                       (Url.mkParse (lit "https") (lit "cdn.example") (lit "/a") (lit "b")
                          (lit "c") (lit "d")) _ _ _ _ _ _ _)).
      * discriminate.
      * discriminate.
      * vm_compute. reflexivity.
      * vm_compute. reflexivity.
      * reflexivity.
      * vm_compute. reflexivity.
      * discriminate.
Defined.

(** C5 as stated fails in two places.  An absolute URL is not always
    returned unchanged: with the scheme of the current URL it is written
    again from its parts, here with the scheme in lower case.  And resolving
    twice is not always resolving once: against a current URL without a
    network location the second resolution gives another URL. *)
Lemma C5_not_always_unchanged :
  @Url.urljoin Demo.checks (lit "https://h/p/q") (lit "HTTPS://h/data.csv")
  = inr (lit "https://h/data.csv")
  /\ lit "https://h/data.csv" <> lit "HTTPS://h/data.csv"
  /\ @Url.urljoin Demo.checks (lit "file:///a/b") (lit "////") = inr (lit "file://")
  /\ @Url.urljoin Demo.checks (lit "file:///a/b") (lit "file://") = inr (lit "file:///a/b")
  /\ lit "file:///a/b" <> lit "file://".
Proof. vm_compute. repeat split; discriminate. Qed.

(** * Further properties of the code *)

(** ** Names of downloaded files *)

Lemma split_app c p t : split c (p ++ c :: t) = split c p ++ split c t.
Proof.
  induction p as [|a p IH]; simpl.
  - rewrite N.eqb_refl. reflexivity.
  - destruct (N.eqb a c); [rewrite IH; reflexivity|].
    rewrite IH. pose proof (split_nonempty c p) as Hne.
    destruct (split c p); [congruence | reflexivity].
Qed.

Lemma split_one c s : free c s -> split c s = [s].
Proof.
  induction 1 as [|a s Ha Hs IH]; simpl; [reflexivity|].
  destruct (N.eqb_spec a c); [congruence|]. rewrite IH. reflexivity.
Qed.

Lemma last_item_app l1 l2 : l2 <> [] -> last_item (l1 ++ l2) = last_item l2.
Proof.
  intros Hne. unfold last_item. induction l1 as [|x l1 IH]; [reflexivity|].
  simpl. destruct (l1 ++ l2) eqn:Hl; [|exact IH].
  apply app_eq_nil in Hl as [_ ->]. congruence.
Qed.

(** The last piece of a split is the text after the last separator. *)
Lemma split_last_piece c p t : free c t -> last_item (split c (p ++ c :: t)) = t.
Proof.
  intros Hf. rewrite split_app, last_item_app by apply split_nonempty.
  rewrite (split_one _ _ Hf). reflexivity.
Qed.

(** The first piece of a split is the text before the first separator. *)
Lemma split_first_piece c s : first_item (split c s) = fst (cut c s).
Proof.
  induction s as [|a s IH]; simpl; [reflexivity|].
  destruct (N.eqb a c); [reflexivity|].
  pose proof (split_nonempty c s) as Hne.
  destruct (split c s) as [|q l]; [congruence|].
  destruct (cut c s). simpl in *. congruence.
Qed.

Lemma first_item_Forall (P : pystr -> Prop) l : Forall P l -> P [] -> P (first_item l).
Proof. intros Hl Hd. destruct Hl; [exact Hd | assumption]. Qed.

(** The name before the fallback: the last segment up to its first
    question mark. *)
Lemma download_stem_free url :
  let stem := first_item (split 63 (last_item (split 47 url))) in
  free 47 stem /\ free 63 stem.
Proof.
  intros stem.
  assert (Hseg : free 47 (last_item (split 47 url))).
  { unfold last_item. apply last_Forall; [apply split_free | constructor]. }
  split.
  - apply first_item_Forall; [|constructor]. apply split_Forall, Hseg.
  - apply first_item_Forall; [apply split_free | constructor].
Qed.

Lemma download_filename_of_segment dir seg :
  free 47 seg -> download_filename (dir ++ 47%N :: seg) = download_filename seg.
Proof.
  intros Hf. unfold download_filename.
  rewrite (split_last_piece 47 dir seg Hf), (split_one 47 seg Hf). reflexivity.
Qed.

(** X1: the name under which a download is saved is never empty and holds
    neither a slash nor a question mark: the saved path is the directory, a
    slash and one more component.  The name has a dot in it, or it is
    "data_" followed by a text without dot and without hyphen.  A name with
    a dot can be all dots: a URL that ends in [/.] or [/..] is saved under
    the name [.] or [..], which is the directory itself or the one above
    it. *)
Theorem download_filename_shape (url : pystr) :
  let name := download_filename url in
  name <> []
  /\ free 47 name /\ free 63 name
  /\ (contains 46 name = true
      \/ exists t, name = lit "data_" ++ t /\ free 46 t /\ free 45 t)
  /\ (forall save_path, download_filepath url save_path = save_path ++ lit "/" ++ name)
  /\ (forall dir save_path,
        download_filepath (dir ++ lit "/.") save_path = save_path ++ lit "/."
        /\ download_filepath (dir ++ lit "/..") save_path = save_path ++ lit "/..").
Proof.
  intros name.
  assert (Hdots : forall dir save_path,
             download_filepath (dir ++ lit "/.") save_path = save_path ++ lit "/."
             /\ download_filepath (dir ++ lit "/..") save_path = save_path ++ lit "/..").
  { intros dir save_path. unfold download_filepath.
    change (dir ++ lit "/.") with (dir ++ 47%N :: lit ".").
    change (dir ++ lit "/..") with (dir ++ 47%N :: lit "..").
    rewrite !download_filename_of_segment by (repeat constructor; discriminate).
    split; reflexivity. }
  cut (name <> []
       /\ free 47 name /\ free 63 name
       /\ (contains 46 name = true
           \/ exists t, name = lit "data_" ++ t /\ free 46 t /\ free 45 t)).
  { intros (H1 & H2 & H3 & H4).
    split; [exact H1|]. split; [exact H2|]. split; [exact H3|]. split; [exact H4|].
    split; [reflexivity | exact Hdots]. }
  clear Hdots. unfold name, download_filename.
  destruct (download_stem_free url) as [H47 H63].
  set (stem := first_item (split 63 (last_item (split 47 url)))) in *.
  destruct (contains 46 stem) eqn:Hdot; cbn [negb].
  - split; [|auto]. apply contains_true in Hdot. destruct stem; [destruct Hdot | discriminate].
  - apply contains_false in Hdot.
    assert (Hp : forall c, free c stem -> free c (last_item (split 45 stem))).
    { intros c Hc. unfold last_item.
      apply last_Forall; [apply split_Forall, Hc | constructor]. }
    split; [discriminate|]. split; [|split].
    + apply free_app. split; [repeat constructor; discriminate | auto].
    + apply free_app. split; [repeat constructor; discriminate | auto].
    + right. eexists. split; [reflexivity|]. split; [auto|].
      unfold last_item. apply last_Forall; [apply split_free | constructor].
Qed.

(** X2: the saved name depends on nothing but the last segment of the URL,
    cut at its first question mark: host and directories play no part (two
    URLs that end in the same segment are saved to the same path), and a
    query without a slash is dropped. *)
Theorem download_filename_last_segment (dir dir' seg q save_path : pystr) :
  free 47 seg ->
  download_filename (dir ++ lit "/" ++ seg) = download_filename seg
  /\ download_filepath (dir ++ lit "/" ++ seg) save_path
     = download_filepath (dir' ++ lit "/" ++ seg) save_path
  /\ (free 63 seg -> free 47 q ->
      download_filename (dir ++ lit "/" ++ seg ++ lit "?" ++ q) = download_filename seg).
Proof.
  intros Hf. change (lit "/") with [47%N]. change (lit "?") with [63%N].
  cbn [app]. split; [|split].
  - apply download_filename_of_segment, Hf.
  - unfold download_filepath. rewrite !download_filename_of_segment by exact Hf.
    reflexivity.
  - intros H63 Hq. rewrite download_filename_of_segment.
    + unfold download_filename.
      rewrite (split_one 47 seg Hf).
      rewrite (split_one 47 (seg ++ 63%N :: q)).
      * change (last_item [seg]) with seg.
        change (last_item [seg ++ 63%N :: q]) with (seg ++ 63%N :: q).
        rewrite !split_first_piece.
        rewrite (cut_app 63 seg q H63), (cut_free 63 seg H63). reflexivity.
      * apply free_app. split; [exact Hf | constructor; [discriminate | exact Hq]].
    + apply free_app. split; [exact Hf | constructor; [discriminate | exact Hq]].
Qed.

Lemma download_filename_last_segment_witness :
  download_filename (lit "https://h/p/data.csv?x=1") = lit "data.csv"
  /\ download_filepath (lit "https://h/p/data.csv") (lit "temp_data")
     = download_filepath (lit "http://other/q/r/data.csv") (lit "temp_data").
Proof.
  destruct (download_filename_last_segment (lit "https://h/p") (lit "http://other/q/r")
              (lit "data.csv") (lit "x=1") (lit "temp_data")) as (_ & Hsame & Hq).
  - vm_compute. repeat constructor; discriminate.
  - split; [|exact Hsame].
    assert (H63 : free 63 (lit "data.csv")) by (vm_compute; repeat constructor; discriminate).
    assert (H47 : free 47 (lit "x=1")) by (vm_compute; repeat constructor; discriminate).
    exact (Hq H63 H47).
Defined.

(** X3: the fallback for a last segment without a dot.  The saved name is
    "data_" followed by the part of the segment after its last hyphen, or
    by the whole segment when it has no hyphen; a URL that ends in a slash
    is saved as "data_". *)
Theorem download_filename_fallback (dir pre t : pystr) :
  free 47 t -> free 63 t -> free 46 t -> free 45 t ->
  download_filename (dir ++ lit "/" ++ t) = lit "data_" ++ t
  /\ (free 47 pre -> free 63 pre -> free 46 pre ->
      download_filename (dir ++ lit "/" ++ pre ++ lit "-" ++ t) = lit "data_" ++ t)
  /\ download_filename (dir ++ lit "/") = lit "data_".
Proof.
  intros H47 H63 H46 H45.
  change (lit "/") with [47%N]. change (lit "-") with [45%N]. cbn [app].
  assert (Hname : forall seg,
             free 47 seg -> free 63 seg -> free 46 seg ->
             download_filename (dir ++ 47%N :: seg)
             = lit "data_" ++ last_item (split 45 seg)).
  { intros seg Hs47 Hs63 Hs46. rewrite download_filename_of_segment by exact Hs47.
    unfold download_filename. rewrite (split_one 47 seg Hs47).
    change (last_item [seg]) with seg.
    rewrite (split_one 63 seg Hs63). change (first_item [seg]) with seg.
    apply contains_false in Hs46. rewrite Hs46. reflexivity. }
  split; [|split].
  - rewrite Hname by assumption. rewrite (split_one 45 t H45). reflexivity.
  - intros Hp47 Hp63 Hp46. rewrite Hname.
    + rewrite (split_last_piece 45 pre t H45). reflexivity.
    + apply free_app. split; [assumption | constructor; [discriminate | assumption]].
    + apply free_app. split; [assumption | constructor; [discriminate | assumption]].
    + apply free_app. split; [assumption | constructor; [discriminate | assumption]].
  - rewrite <- (app_nil_r (dir ++ [47%N])), <- app_assoc. cbn [app].
    rewrite Hname by constructor. reflexivity.
Qed.

Lemma download_filename_fallback_witness :
  download_filename (lit "https://h/files/demo-audio-data") = lit "data_data"
  /\ download_filename (lit "https://h/files/") = lit "data_".
Proof.
  assert (Hfree : forall c, In c [47; 63; 46; 45]%N -> free c (lit "data")).
  { intros c Hc. vm_compute in Hc.
    destruct Hc as [<- | [<- | [<- | [<- | []]]]];
      vm_compute; repeat constructor; discriminate. }
  destruct (download_filename_fallback (lit "https://h/files") (lit "demo-audio") (lit "data"))
    as (_ & Hh & Hs); [apply Hfree; simpl; tauto ..|].
  split; [|exact Hs].
  assert (H47 : free 47 (lit "demo-audio")) by (vm_compute; repeat constructor; discriminate).
  assert (H63 : free 63 (lit "demo-audio")) by (vm_compute; repeat constructor; discriminate).
  assert (H46 : free 46 (lit "demo-audio")) by (vm_compute; repeat constructor; discriminate).
  exact (Hh H47 H63 H46).
Defined.

(** ** Files that are kept but not read *)

Lemma endswith_after_underscore (ext pre t : pystr) :
  free 95 ext -> free 46 t ->
  endswith (46%N :: ext) (pre ++ 95%N :: t) = false.
Proof.
  intros He Ht. unfold endswith.
  rewrite rev_app_distr. cbn [rev]. rewrite <- !app_assoc. cbn [app].
  apply free_rev in He, Ht. revert Ht.
  generalize (rev t). generalize dependent (rev ext). clear ext t.
  intros e He. induction He as [|a e Ha He IH]; intros t Ht.
  - destruct Ht as [|x t Hx Ht]; cbn [app startswith].
    + reflexivity.
    + destruct (N.eqb_spec 46 x); [congruence | reflexivity].
  - destruct Ht as [|x t Hx Ht]; cbn [app startswith].
    + destruct (N.eqb_spec a 95); [congruence | reflexivity].
    + rewrite (IH t Ht). apply andb_false_r.
Qed.

Section Unread.
Context `{Outside}.

(** X4: a download whose name has no dot is kept but never read.  When
    the last segment of the URL, cut at its first question mark, has no
    dot, the saved path ends neither in ".pdf" nor in ".csv", whatever the
    directory, and the data step returns the text that names the path. *)
Theorem extensionless_download_not_read (url save_path : pystr) :
  contains 46 (first_item (split 63 (last_item (split 47 url)))) = false ->
  let path := download_filepath url save_path in
  endswith (lit ".pdf") path = false
  /\ endswith (lit ".csv") path = false
  /\ extract_text path = ret (lit "File downloaded to: " ++ path).
Proof.
  intros Hdot path.
  assert (Hshape : exists t, path = (save_path ++ lit "/" ++ lit "data") ++ 95%N :: t
                             /\ free 46 t).
  { unfold path, download_filepath, download_filename. rewrite Hdot. cbn [negb].
    eexists. split.
    - change (lit "data_") with (lit "data" ++ [95%N]).
      rewrite <- !app_assoc. reflexivity.
    - unfold last_item. apply last_Forall; [|constructor].
      apply split_Forall, contains_false, Hdot. }
  destruct Hshape as (t & Hp & Ht).
  assert (Hpdf : endswith (lit ".pdf") path = false)
    by (rewrite Hp; apply (endswith_after_underscore (lit "pdf"));
        [repeat constructor; discriminate | exact Ht]).
  assert (Hcsv : endswith (lit ".csv") path = false)
    by (rewrite Hp; apply (endswith_after_underscore (lit "csv"));
        [repeat constructor; discriminate | exact Ht]).
  split; [exact Hpdf|]. split; [exact Hcsv|].
  unfold extract_text. rewrite Hpdf, Hcsv. reflexivity.
Qed.

End Unread.

Lemma extensionless_download_not_read_witness :
  let path := download_filepath (lit "https://h/export/table?format=csv") (lit "temp_data") in
  path = lit "temp_data/data_table"
  /\ @extract_text (Demo.outside Demo.secret_code) path
     = ret (lit "File downloaded to: " ++ path).
Proof.
  intros path. split; [vm_compute; reflexivity|].
  apply (@extensionless_download_not_read (Demo.outside Demo.secret_code)
           (lit "https://h/export/table?format=csv") (lit "temp_data")).
  vm_compute. reflexivity.
Defined.

(** ** The text of a PDF *)

Lemma pdf_text_app i ps qs :
  pdf_text i (ps ++ qs) = pdf_text i ps ++ pdf_text (i + N.of_nat (length ps)) qs.
Proof.
  revert i. induction ps as [|p ps IH]; intros i.
  - simpl. rewrite N.add_0_r. reflexivity.
  - cbn [app pdf_text length]. rewrite IH.
    replace (i + 1 + N.of_nat (length ps))%N with (i + N.of_nat (S (length ps)))%N by lia.
    repeat first [rewrite <- app_assoc | progress cbn [app]]. reflexivity.
Qed.

Lemma decimal_aux_value fuel n acc :
  (n < 2 ^ N.of_nat fuel)%N ->
  fold_left (fun a c => (10 * a + (c - 48))%N) (decimal_aux fuel n acc) 0%N
  = fold_left (fun a c => (10 * a + (c - 48))%N) acc n.
Proof.
  revert n acc. induction fuel as [|fuel IH]; intros n acc Hn.
  - simpl in Hn. assert (n = 0%N) by lia. subst. reflexivity.
  - cbn [decimal_aux]. destruct (N.ltb_spec n 10) as [Hlt | Hge].
    + cbn [fold_left]. f_equal. rewrite N.mod_small by exact Hlt. clear. lia.
    + rewrite IH.
      * cbn [fold_left]. f_equal.
        rewrite (N.add_comm 48), N.add_sub. symmetry. apply N.div_mod. discriminate.
      * rewrite Nat2N.inj_succ, N.pow_succ_r' in Hn.
        apply N.Div0.div_lt_upper_bound.
        apply (N.lt_le_trans _ _ _ Hn), N.mul_le_mono_r. discriminate.
Qed.

(** [decimal] writes the numeral of its argument. *)
Lemma decimal_value n : PyFloat.digits_value (decimal n) = n.
Proof.
  unfold PyFloat.digits_value, decimal. rewrite decimal_aux_value; [reflexivity|].
  destruct n as [|p]; [reflexivity|].
  rewrite Nat2N.inj_succ, N2Nat.id.
  apply N.log2_spec. reflexivity.
Qed.

(** X5: the text of a PDF is that of its pages in order, each under a
    header that carries the number of the page, counted from one, and
    followed by an empty line; a PDF without pages gives the empty text. *)
Theorem pdf_text_pages (pages : list pystr) (text : pystr) :
  let k := (N.of_nat (length pages) + 1)%N in
  pdf_text 0 [] = []
  /\ pdf_text 0 (pages ++ [text])
     = pdf_text 0 pages
       ++ lit "--- PDF Page " ++ decimal k ++ lit " ---" ++ [10%N]
       ++ text ++ [10%N; 10%N]
  /\ PyFloat.digits_value (decimal k) = k.
Proof.
  intros k. split; [reflexivity|]. split; [|apply decimal_value].
  rewrite pdf_text_app. cbn [pdf_text]. rewrite N.add_0_l, app_nil_r.
  repeat first [rewrite <- app_assoc | progress cbn [app]]. reflexivity.
Qed.

(** ** The Content Fetcher *)

Section Scrape.
Context `{Outside}.

(** X6: the Content Fetcher with a browser that starts and closes, on a
    standard output that takes its messages.  It returns a text and raises
    nothing: the exception of loading the page or, when that went well, of
    reading its content comes back as the text "Error: Could not scrape
    page. " followed by the exception's text, which begins with "Error:";
    when both went well the text is the content read in this very run.  On
    every way through, the browser is closed exactly once. *)
Theorem scrape_never_raises (url : pyval) (s : state) w1 w2 w3 r s' evs :
  perform _ PwStart (st_world s) = (inr tt, w1) ->
  perform _ PwLaunch w1 = (inr tt, w2) ->
  perform _ PwNewPage w2 = (inr tt, w3) ->
  reliable PwClose -> reliable PwStop ->
  scrape_page_content url s = (r, s') ->
  added s s' evs ->
  printable evs = true ->
  let loaded := perform _ (PwGoto url) w3 in
  let read := perform _ PwContent (snd loaded) in
  (forall e,
     fst loaded = inl e \/ (fst loaded = inr tt /\ fst read = inl e) ->
     r = inr (scrape_error_prefix ++ exn_str e)
     /\ startswith (lit "Error:") (scrape_error_prefix ++ exn_str e) = true)
  /\ (forall page, fst loaded = inr tt -> fst read = inr page -> r = inr page)
  /\ length (List.filter is_close evs) = 1%nat.
Proof.
  intros Hstart Hlaunch Hnew Hclose Hstop Hrun Hadd _ loaded read.
  revert Hrun Hadd.
  unfold scrape_page_content, with_, try_, bind, mark, print, emit, call, ret, added.
  cbn [st_world log set_world st_trace st_tasks]. rewrite Hstart.
  cbn [st_world log set_world st_trace st_tasks]. rewrite Hlaunch.
  cbn [st_world log set_world st_trace st_tasks]. rewrite Hnew.
  cbn [st_world log set_world st_trace st_tasks].
  unfold read, loaded.
  destruct (perform unit (PwGoto url) w3) as [[e | []] w4];
    cbn [st_world log set_world st_trace st_tasks fst snd].
  - destruct (Hclose w4) as ([] & w5 & ->).
    cbn [st_world log set_world st_trace st_tasks].
    destruct (Hstop w5) as ([] & w6 & ->).
    intros [= <- <-]. cbn [st_world log set_world st_trace st_tasks].
    rewrite <- !app_assoc. intros Hevs. apply app_inv_head in Hevs. subst evs.
    split; [|split; [|reflexivity]].
    + intros e' [[= <-] | [[=] _]]. split; reflexivity.
    + intros page [=].
  - destruct (perform _ PwContent w4) as [[e | page] w5];
      cbn [st_world log set_world st_trace st_tasks fst snd];
      destruct (Hclose w5) as ([] & w6 & ->);
      cbn [st_world log set_world st_trace st_tasks];
      destruct (Hstop w6) as ([] & w7 & ->);
      intros [= <- <-]; cbn [st_world log set_world st_trace st_tasks];
      rewrite <- !app_assoc; intros Hevs; apply app_inv_head in Hevs; subst evs;
      (split; [|split; [|reflexivity]]).
    + intros e' [[=] | [_ [= <-]]]. split; reflexivity.
    + intros page _ [=].
    + intros e' [[=] | [_ [=]]].
    + intros page' _ [= <-]. reflexivity.
Qed.

End Scrape.

(** ** A browser that does not start *)

Section Launch.
Context `{NetlocChecks} `{Outside}.

(** X7: a browser that fails to start is not a scrape failure.  The
    launch lies outside of the Content Fetcher's handler: its exception
    leaves the Fetcher, no page is opened and nothing closed, and the turn
    ends with the messages of an unexpected error, not with the
    scrape-failure message; the loop stops. *)
Theorem launch_failure_escapes fuel email secret T0 url s0 s1 w1 e w2 w3 :
  truthy url = true ->
  task_started T0 url s0 s1 ->
  perform _ PwStart (st_world s1) = (inr tt, w1) ->
  perform _ PwLaunch w1 = (inl e, w2) ->
  perform _ PwStop w2 = (inr tt, w3) ->
  let s2 := set_world w3
              (log [EvCall (CallScrape url); EvPrint (LogScraping url);
                    EvIO PwStart; EvIO PwLaunch; EvIO PwStop] s1) in
  let s' := log [EvPrint LogUnexpected; EvPrint (LogError e)] s2 in
  scrape_page_content url s1 = (inl e, s2)
  /\ loop_body email secret T0 url s0 = (inr (Continue PNone), s')
  /\ quiz_loop (S fuel) email secret T0 url s0 = (inr Finished, s').
Proof.
  intros Hu Hs Hstart Hlaunch Hstop s2 s'.
  assert (Hscrape : scrape_page_content url s1 = (inl e, s2)).
  { unfold scrape_page_content, with_, bind, mark, print, emit, call.
    cbn [st_world log set_world st_trace st_tasks]. rewrite Hstart.
    cbn [st_world log set_world st_trace st_tasks]. rewrite Hlaunch.
    cbn [st_world log set_world st_trace st_tasks]. rewrite Hstop.
    unfold s2, log, set_world. cbn [st_world st_trace st_tasks].
    rewrite <- !app_assoc. reflexivity. }
  assert (Hb : loop_body email secret T0 url s0 = (inr (Continue PNone), s')).
  { rewrite (loop_body_started email secret T0 url s0 s1 Hs).
    unfold try_, attempt_task. rewrite (bind_raise _ _ _ _ _ Hscrape).
    unfold unexpected, bind, print, emit, ret, s'. rewrite !log_log. reflexivity. }
  split; [exact Hscrape|]. split; [exact Hb|].
  rewrite (quiz_loop_continue email secret T0 fuel url s0 PNone s' Hu Hb).
  apply quiz_loop_stop. reflexivity.
Qed.

End Launch.

(** ** The chart *)

Lemma startswith_app p s : startswith p s = true -> exists rest, s = p ++ rest.
Proof.
  revert s. induction p as [|a p IH]; intros s; simpl.
  - exists s. reflexivity.
  - destruct s as [|b s]; [discriminate|].
    intros Hs. apply andb_true_iff in Hs as [Hab Hs]. apply N.eqb_eq in Hab. subst b.
    destruct (IH s Hs) as (rest & ->). exists rest. reflexivity.
Qed.

Lemma digit_not_colon n : Base64.digit n <> 58%N.
Proof.
  unfold Base64.digit.
  destruct (N.ltb_spec n 26); [lia|].
  destruct (N.ltb_spec n 52); [lia|].
  destruct (N.ltb_spec n 62); [lia|].
  destruct (n =? 62)%N; discriminate.
Qed.

(** Base64 text holds no colon. *)
Lemma encode_no_colon data : free 58 (Base64.encode data).
Proof.
  assert (H : forall n data, (length data <= n)%nat -> free 58 (Base64.encode data)).
  { clear data. induction n as [|n IH]; intros data Hn.
    - destruct data; [constructor | simpl in Hn; lia].
    - destruct data as [|a [|b [|c rest]]]; cbn [Base64.encode].
      + constructor.
      + repeat constructor; try apply digit_not_colon; discriminate.
      + repeat constructor; try apply digit_not_colon; discriminate.
      + apply free_app. split.
        * repeat constructor; apply digit_not_colon.
        * apply IH. simpl in Hn. lia. }
  apply (H (length data)). lia.
Qed.

Lemma encode_not_error data : startswith (lit "Error:") (Base64.encode data) = false.
Proof.
  destruct (startswith _ _) eqn:Hs; [|reflexivity].
  apply startswith_app in Hs as (rest & Heq).
  pose proof (encode_no_colon data) as Hf. rewrite Heq in Hf.
  apply free_app in Hf as [Hf _].
  apply contains_false in Hf. vm_compute in Hf. discriminate.
Qed.

Section Chart.
Context `{Plotting}.

(** X8: the chart of a dict that the plotting library draws and saves.
    When the six requests of the chart return, the text that comes back is
    the Base64 of the very bytes the picture was saved as in this run, the
    figure has been closed, and nothing but the opening message was
    printed.  Such a text never begins with "Error:", and is never the text
    of a failure, "Error: " followed by an exception's text: Base64 text
    holds no colon. *)
Theorem chart_is_saved_picture (data_dict : list (pyval * pyval)) (s : Plot.state)
    c1 c2 c3 c4 png c5 c6 :
  let keys := List.map fst data_dict in
  let values := List.map snd data_dict in
  plot _ PltSubplots (Plot.st_canvas s) = (inr tt, c1) ->
  plot _ (AxBar keys values) c1 = (inr tt, c2) ->
  plot _ (AxSetTitle (lit "Analysis Result")) c2 = (inr tt, c3) ->
  plot _ (AxSetYlabel (lit "Value")) c3 = (inr tt, c4) ->
  plot _ PltSavefigPng c4 = (inr png, c5) ->
  plot _ PltClose c5 = (inr tt, c6) ->
  generate_visualization data_dict s
  = (inr (Base64.encode png),
     Plot.State c6
       (Plot.st_trace s
        ++ [PlotPrint LogGenerating; PlotIO PltSubplots; PlotIO (AxBar keys values);
            PlotIO (AxSetTitle (lit "Analysis Result"));
            PlotIO (AxSetYlabel (lit "Value")); PlotIO PltSavefigPng;
            PlotIO PltClose]))
  /\ startswith (lit "Error:") (Base64.encode png) = false
  /\ (forall e data, Base64.encode data <> lit "Error: " ++ exn_str e).
Proof.
  intros keys values H1 H2 H3 H4 H5 H6. split; [|split].
  - unfold generate_visualization, Plot.try_, Plot.bind, Plot.print, Plot.call, Plot.ret.
    fold keys values.
    cbn [Plot.st_canvas Plot.st_trace]. rewrite H1.
    cbn [Plot.st_canvas Plot.st_trace]. rewrite H2.
    cbn [Plot.st_canvas Plot.st_trace]. rewrite H3.
    cbn [Plot.st_canvas Plot.st_trace]. rewrite H4.
    cbn [Plot.st_canvas Plot.st_trace]. rewrite H5.
    cbn [Plot.st_canvas Plot.st_trace]. rewrite H6.
    cbn [Plot.st_canvas Plot.st_trace]. rewrite <- !app_assoc. reflexivity.
  - apply encode_not_error.
  - intros e data Heq. pose proof (encode_not_error data) as Hn.
    rewrite Heq in Hn. discriminate.
Qed.

(** X9: the figure is closed only after the picture has been saved.  When
    saving the picture fails, the chart returns the error text and no
    request to close the figure is made: the figure stays open. *)
Theorem chart_left_open (data_dict : list (pyval * pyval)) (s : Plot.state) :
  (forall c, exists e c', plot _ PltSavefigPng c = (inl e, c')) ->
  exists e s' evs,
    generate_visualization data_dict s = (inr (lit "Error: " ++ exn_str e), s')
    /\ Plot.st_trace s' = Plot.st_trace s ++ evs
    /\ Forall (fun ev => ~ is_plot_close ev) evs.
Proof.
  intros Hfail.
  unfold generate_visualization, Plot.try_, Plot.bind, Plot.print, Plot.call, Plot.ret.
  cbn [Plot.st_canvas Plot.st_trace].
  repeat match goal with
         | |- context [plot _ PltSavefigPng ?c] =>
             destruct (Hfail c) as (? & ? & ->);
             cbn [Plot.st_canvas Plot.st_trace]
         | |- context [plot ?T ?op ?c] =>
             destruct (plot T op c) as [[? | ?] ?];
             cbn [Plot.st_canvas Plot.st_trace]
         end;
    eexists _, _, _;
    (split; [reflexivity|]);
    cbn [Plot.st_canvas Plot.st_trace];
    (split; [rewrite <- ?app_assoc; cbn [app]; reflexivity|]);
    repeat constructor; simpl; tauto.
Qed.

End Chart.

Lemma chart_is_saved_picture_witness :
  let sp := {| DemoPlot.sp_bar := inr tt;
               DemoPlot.sp_png := inr [Byte.x89; Byte.x50; Byte.x4e; Byte.x47] |} in
  fst (@generate_visualization (DemoPlot.plotting sp)
         [(PStr (lit "a"), PInt 1); (PStr (lit "b"), PInt 2)]
         (@Plot.State (DemoPlot.plotting sp) tt []))
  = inr (lit "iVBORw==").
Proof.
  intros sp.
  rewrite (proj1 (@chart_is_saved_picture (DemoPlot.plotting sp)
                    [(PStr (lit "a"), PInt 1); (PStr (lit "b"), PInt 2)]
                    (@Plot.State (DemoPlot.plotting sp) tt [])
                    tt tt tt tt [Byte.x89; Byte.x50; Byte.x4e; Byte.x47] tt tt
                    eq_refl eq_refl eq_refl eq_refl eq_refl eq_refl)).
  vm_compute. reflexivity.
Defined.

Lemma chart_left_open_witness :
  let sp := {| DemoPlot.sp_bar := inr tt; DemoPlot.sp_png := inl Demo.refused |} in
  exists e s' evs,
    @generate_visualization (DemoPlot.plotting sp)
      [(PStr (lit "a"), PInt 1); (PStr (lit "b"), PInt 2)]
      (@Plot.State (DemoPlot.plotting sp) tt [])
    = (inr (lit "Error: " ++ exn_str e), s')
    /\ Plot.st_trace s' = evs
    /\ Forall (fun ev => ~ is_plot_close ev) evs.
Proof.
  intros sp.
  apply (@chart_left_open (DemoPlot.plotting sp)).
  intros c. eexists _, _. reflexivity.
Defined.

(** ** What the two resolvers return *)

Section Resolvers.
Context `{Outside}.

(** X10: the Plan Resolver makes exactly one request, the POST to the
    completion service, and returns a dict.  Either nothing more is printed
    and the dict is the plan itself: the completion service answered this
    POST with a success status, the content of its first choice is a text
    that [json.loads] reads as this dict, and the dict's [submit_url] is
    true.  Or the planner-error message is printed for an exception and the
    dict has the single key "error" with the exception's text.  A reply
    that parses to a dict with a true [submit_url] is always returned as
    the plan. *)
Theorem plan_result_shape (page : pystr) (s : state) :
  let post := HttpPost (PStr AIPIPE_URL) llm_headers (plan_payload page) 60 in
  let reply := perform _ post (st_world s) in
  exists plan s' tail,
    get_plan_from_llm page s = (inr plan, s')
    /\ st_world s' = snd reply
    /\ st_trace s'
       = st_trace s ++ [EvCall (CallPlan page); EvPrint LogCallingPlanner; EvIO post]
         ++ tail
    /\ ((tail = []
         /\ truthy (dict_get plan (lit "submit_url")) = true
         /\ exists resp text,
              fst reply = inr resp
              /\ is_success resp = true
              /\ completion_content resp = inr text
              /\ py_json_loads text = inr (PDict plan))
        \/ exists e, tail = [EvPrint (LogPlannerError e)]
                     /\ plan = {[ lit "error" := PStr (exn_str e) ]})
    /\ (forall resp text d,
          fst reply = inr resp ->
          is_success resp = true ->
          completion_content resp = inr text ->
          py_json_loads text = inr (PDict d) ->
          truthy (dict_get d (lit "submit_url")) = true ->
          plan = d /\ tail = []).
Proof.
  intros post reply.
  unfold get_plan_from_llm, plan_attempt, try_, bind, call, lift, raise, ret, mark,
    print, emit.
  cbn [st_world log set_world st_trace st_tasks].
  fold post. fold reply.
  destruct reply as [[e | resp] w] eqn:Hreply; cbn [fst snd].
  { eexists _, _, _. split; [reflexivity|].
    cbn [st_world log set_world st_trace st_tasks]. split; [reflexivity|].
    split; [rewrite <- !app_assoc; reflexivity|].
    split; [right; eauto | intros ? ? ? [=]]. }
  unfold raise_for_status.
  destruct (is_success resp) eqn:Hok.
  2:{ eexists _, _, _. split; [reflexivity|].
      cbn [st_world log set_world st_trace st_tasks]. split; [reflexivity|].
      split; [rewrite <- !app_assoc; reflexivity|].
      split; [right; eauto | intros ? ? ? [= <-]; congruence]. }
  destruct (completion_content resp) as [e | text] eqn:Hc.
  { eexists _, _, _. split; [reflexivity|].
    cbn [st_world log set_world st_trace st_tasks]. split; [reflexivity|].
    split; [rewrite <- !app_assoc; reflexivity|].
    split; [right; eauto | intros ? ? ? [= <-]; congruence]. }
  destruct (py_json_loads text) as [e | plan_dict] eqn:Hl.
  { eexists _, _, _. split; [reflexivity|].
    cbn [st_world log set_world st_trace st_tasks]. split; [reflexivity|].
    split; [rewrite <- !app_assoc; reflexivity|].
    split; [right; eauto | intros ? ? ? [= <-] _ Hc'; congruence]. }
  destruct (py_get plan_dict (lit "submit_url")) as [e | submit_url] eqn:Hget.
  { eexists _, _, _. split; [reflexivity|].
    cbn [st_world log set_world st_trace st_tasks]. split; [reflexivity|].
    split; [rewrite <- !app_assoc; reflexivity|].
    split; [right; eauto|].
    intros ? ? ? [= <-] _ Hc' Hl'. rewrite Hc in Hc'. injection Hc' as <-.
    rewrite Hl in Hl'. injection Hl' as ->. discriminate Hget. }
  destruct (truthy submit_url) eqn:Ht; cbn [negb].
  2:{ eexists _, _, _. split; [reflexivity|].
      cbn [st_world log set_world st_trace st_tasks]. split; [reflexivity|].
      split; [rewrite <- !app_assoc; reflexivity|].
      split; [right; eauto|].
      intros ? ? ? [= <-] _ Hc' Hl'. rewrite Hc in Hc'. injection Hc' as <-.
      rewrite Hl in Hl'. injection Hl' as ->. injection Hget as <-. congruence. }
  destruct plan_dict as [| | | | | |d]; try discriminate Hget.
  injection Hget as <-.
  eexists _, _, _. split; [reflexivity|].
  cbn [st_world log set_world st_trace st_tasks]. split; [reflexivity|].
  split; [rewrite <- !app_assoc; reflexivity|].
  split.
  - left. split; [reflexivity|]. split; [exact Ht|].
    exists resp, text. auto.
  - intros ? ? ? [= <-] _ Hc' Hl' _. rewrite Hc in Hc'. injection Hc' as <-.
    rewrite Hl in Hl'. injection Hl' as <-. split; reflexivity.
Qed.

Lemma round_sign sx mx ex lx :
  match binary_round_aux PyFloat.prec PyFloat.emax sx mx ex lx with
  | S754_finite s _ _ => s = sx
  | _ => True
  end.
Proof.
  unfold binary_round_aux.
  destruct (shr_fexp _ _ mx ex lx) as [mrs e'].
  destruct (shr_fexp _ _ _ e' loc_Exact) as [mrs' e''].
  destruct (shr_m mrs'); [exact I | | exact I].
  destruct (_ <=? _); [reflexivity | exact I].
Qed.

(** The float of a text of digits and dots is not negative. *)
Lemma of_decimal_sign s f :
  PyFloat.of_decimal s = inr f ->
  match f with S754_finite sg _ _ => sg = false | _ => True end.
Proof.
  unfold PyFloat.of_decimal. destruct (cut 46 s) as [ip r].
  destruct (_ && _); [|discriminate]. intros [= <-].
  unfold PyFloat.of_ratio. destruct (PyFloat.digits_value _); [exact I|].
  unfold SFdiv. destruct (SFdiv_core_binary _ _ _ _ _ _) as [[mz ez] lz].
  apply round_sign.
Qed.

Lemma to_int_nonneg m e z :
  PyFloat.to_int (S754_finite false m e) = inr z -> 0 <= z.
Proof.
  simpl. intros [= <-]. destruct e as [|p|p].
  - lia.
  - apply Z.mul_nonneg_nonneg; [lia | apply Z.pow_nonneg; lia].
  - apply Z.div_pos; [lia | apply Z.pow_pos_nonneg; lia].
Qed.

(** What the normalisation can give: a text that is not empty, or an
    integer that is not negative. *)
Lemma normalize_answer_result raw v :
  normalize_answer raw = inr v ->
  (exists t, v = PStr t /\ t <> []) \/ (exists z, v = PInt z /\ 0 <= z).
Proof.
  unfold normalize_answer. destruct (py_strip raw) as [e | answer]; [discriminate|].
  destruct (negb (nonempty answer) || eqb answer SENTINEL) eqn:Hg.
  { intros [= <-]. left. eexists. split; [reflexivity | discriminate]. }
  apply orb_false_iff in Hg as [Hne _]. apply negb_false_iff in Hne.
  assert (Ha : answer <> []) by (destruct answer; [discriminate | congruence]).
  destruct (nonempty (clean_answer answer)); [|intros [= <-]; left; eauto].
  destruct (PyFloat.of_decimal _) as [e | f] eqn:Hf.
  { destruct (is_ValueError e); [intros [= <-]; left; eauto | discriminate]. }
  destruct (PyFloat.to_int f) as [e | z] eqn:Hz.
  { destruct (is_ValueError e); [intros [= <-]; left; eauto | discriminate]. }
  intros [= <-]. right. exists z. split; [reflexivity|].
  pose proof (of_decimal_sign _ _ Hf) as Hs.
  destruct f as [sg | sg | | sg m e]; simpl in Hz; try discriminate.
  - injection Hz as <-. lia.
  - subst sg. apply (to_int_nonneg m e). exact Hz.
Qed.

(** X11: the Answer Resolver on a question that can be sliced and a
    standard output that takes its messages: it raises nothing, and what it
    returns is a text that is not empty or an integer that is not negative,
    never a boolean, a dict or [None]. *)
Theorem answer_result_shape (question : pyval) (data_context : pystr) (s : state) q30
    r s' evs :
  py_slice_to 30 question = inr q30 ->
  get_answer_from_llm question data_context s = (r, s') ->
  added s s' evs ->
  printable evs = true ->
  exists a,
    r = inr a
    /\ ((exists t, a = PStr t /\ t <> []) \/ (exists z, a = PInt z /\ 0 <= z)).
Proof.
  intros Hq Hrun _ _. revert Hrun.
  unfold get_answer_from_llm, try_, bind, call, lift, ret, mark, print, emit.
  rewrite Hq. cbn [st_world log set_world st_trace st_tasks].
  destruct (perform _ _ (st_world s)) as [[e | resp] w].
  { intros [= <- <-]. eexists. split; [reflexivity|].
    left. eexists. split; [reflexivity | discriminate]. }
  destruct (raise_for_status resp) as [e | []].
  { intros [= <- <-]. eexists. split; [reflexivity|].
    left. eexists. split; [reflexivity | discriminate]. }
  destruct (completion_content resp) as [e | raw].
  { intros [= <- <-]. eexists. split; [reflexivity|].
    left. eexists. split; [reflexivity | discriminate]. }
  destruct (normalize_answer raw) as [e | v] eqn:Hn.
  { intros [= <- <-]. eexists. split; [reflexivity|].
    left. eexists. split; [reflexivity | discriminate]. }
  intros [= <- <-]. eexists. split; [reflexivity|].
  exact (normalize_answer_result raw v Hn).
Qed.

End Resolvers.

Lemma answer_result_shape_witness :
  let sc := Demo.secret_code in
  let run := @get_answer_from_llm (Demo.outside sc)
               (PStr (lit "Q. Get the secret code from this page.")) (Demo.sc_page sc)
               (@State (Demo.outside sc) (Demo.At 2 true) [] []) in
  exists a,
    fst run = inr a
    /\ ((exists t, a = PStr t /\ t <> []) \/ (exists z, a = PInt z /\ 0 <= z)).
Proof.
  intros sc run.
  apply (@answer_result_shape (Demo.outside sc)
           (PStr (lit "Q. Get the secret code from this page.")) (Demo.sc_page sc)
           (@State (Demo.outside sc) (Demo.At 2 true) [] [])
           (PStr (lit "Q. Get the secret code from th"))
           (fst run) (snd run) (st_trace (snd run))).
  - by_computation.
  - exact (surjective_pairing run).
  - by_computation.
  - by_computation.
Defined.

(** ** The integer of an answer *)

Lemma clean_answer_chars s :
  Forall (fun c => is_digit c || (c =? 46)%N = true) (clean_answer s).
Proof.
  unfold clean_answer. induction s as [|c s IH]; simpl; [constructor|].
  destruct (is_digit c || (c =? 46)%N) eqn:Hc; [constructor; assumption | exact IH].
Qed.

Lemma answer_char_not_space c : is_digit c || (c =? 46)%N = true -> isspace c = false.
Proof.
  unfold is_digit, isspace. intros Hc.
  destruct (N.eqb_spec c 46) as [Heq | Hne]; [rewrite Heq; reflexivity|].
  rewrite orb_false_r in Hc. apply andb_true_iff in Hc as [H1 H2].
  apply N.leb_le in H1, H2.
  repeat match goal with
         | |- context [(?a <=? ?b)%N] => destruct (N.leb_spec a b); try lia
         | |- context [(?a =? ?b)%N] => destruct (N.eqb_spec a b); try lia
         end; reflexivity.
Qed.

(** A text cleaned from everything but digits and dots goes through the
    normalisation as it is. *)
Lemma cleaned_text_stable s :
  let c := clean_answer s in
  strip c = c /\ clean_answer c = c /\ (c <> [] -> eqb c SENTINEL = false).
Proof.
  intros c. pose proof (clean_answer_chars s) as Hc. fold c in Hc.
  assert (Hsp : Forall (fun x => isspace x = false) c).
  { eapply Forall_impl; [exact Hc | apply answer_char_not_space]. }
  split; [|split].
  - unfold strip. rewrite (lstrip_by_none _ _ Hsp). apply rstrip_by_none, Hsp.
  - unfold clean_answer. clear Hsp. induction Hc as [|x l Hx Hl IH]; simpl; [reflexivity|].
    rewrite Hx. f_equal. exact IH.
  - intros Hne. apply eqb_false. intros Heq. rewrite Heq in Hc.
    inversion Hc as [|x l Hx Hl]. vm_compute in Hx. discriminate.
Qed.

(** The steps of the normalisation that lead to an integer. *)
Lemma normalize_answer_int raw z :
  normalize_answer (PStr raw) = inr (PInt z)
  <-> clean_answer (strip raw) <> []
      /\ exists f, PyFloat.of_decimal (clean_answer (strip raw)) = inr f
                   /\ PyFloat.to_int f = inr z.
Proof.
  rewrite normalize_answer_str. cbv zeta.
  set (answer := strip raw). set (c := clean_answer answer).
  split.
  - destruct (negb (nonempty answer) || eqb answer SENTINEL); [discriminate|].
    destruct (nonempty c) eqn:Hc; [|discriminate].
    destruct (PyFloat.of_decimal c) as [e | f]; [destruct (is_ValueError e); discriminate|].
    destruct (PyFloat.to_int f) as [e | z'] eqn:Hz; [destruct (is_ValueError e); discriminate|].
    intros [= ->]. split; [destruct c; [discriminate | congruence] | eauto].
  - intros (Hne & f & Hf & Hz).
    assert (Hg : negb (nonempty answer) || eqb answer SENTINEL = false).
    { apply orb_false_iff. split.
      - apply negb_false_iff. destruct answer; [|reflexivity]. exfalso. apply Hne. reflexivity.
      - apply eqb_false. intros Heq. apply Hne. unfold c. rewrite Heq. reflexivity. }
    rewrite Hg. destruct c; [congruence|]. cbn [nonempty]. rewrite Hf, Hz. reflexivity.
Qed.

(** X12: the integer of an answer depends on nothing but the digits and
    dots of the trimmed text.  Two texts with the same digits and dots give
    the same integer, which is the integer of the digits and dots alone: a
    sign, an exponent letter or any text between two groups of digits is
    dropped, and the groups run together. *)
Theorem answer_digits_only (a b : pystr) (z : Z) :
  clean_answer (strip a) = clean_answer (strip b) ->
  normalize_answer (PStr b) = inr (PInt z) ->
  normalize_answer (PStr a) = inr (PInt z)
  /\ normalize_answer (PStr (clean_answer (strip a))) = inr (PInt z).
Proof.
  intros Hab Hb. apply normalize_answer_int in Hb. rewrite <- Hab in Hb.
  split; [apply normalize_answer_int; exact Hb|].
  apply normalize_answer_int.
  destruct (cleaned_text_stable (strip a)) as (Hs & Hc & _).
  rewrite Hs, Hc. exact Hb.
Qed.

Lemma answer_digits_only_witness :
  normalize_answer (PStr (lit "between 10 and 20")) = inr (PInt 1020)
  /\ normalize_answer (PStr (lit "-42")) = inr (PInt 42).
Proof.
  split.
  - refine (proj1 (answer_digits_only (lit "between 10 and 20") (lit "1020") 1020 _ _));
      vm_compute; reflexivity.
  - refine (proj1 (answer_digits_only (lit "-42") (lit "42") 42 _ _));
      vm_compute; reflexivity.
Defined.

(** ** Turns and runs *)

Section Turns.
Context `{NetlocChecks} `{Outside}.
Variables (email secret : pystr) (T0 : PyFloat.float).


(** The events of a turn after the reading of the clock. *)
Lemma attempt_footprint url :
  footprint (turn_event email secret url)
    (try_ (attempt_task email secret url) unexpected).
Proof.
  unfold attempt_task, plan_and_execute, get_plan_from_llm, plan_attempt, execute_plan,
    acquire_data, file_failed, answer_and_submit, submit_answer, process_result,
    extract_text, download_file, get_text_from_pdf, get_text_from_csv,
    get_answer_from_llm, scrape_page_content, unexpected.
  repeat footprint_step; try exact I; simpl; eauto 7.
Qed.

Lemma loop_body_footprint url :
  footprint (run_event email secret) (loop_body email secret T0 url).
Proof.
  unfold loop_body. apply footprint_bind; [apply footprint_call; left; exact I|].
  intros now. destruct (PyFloat.gt _ _).
  - repeat footprint_step; right; exists url; exact I.
  - apply footprint_bind; [apply footprint_emit; right; exists url; exact I|]. intros _.
    apply footprint_bind; [apply footprint_emit; right; exists url; exact I|]. intros _.
    apply (footprint_weaken (turn_event email secret url)); [|apply attempt_footprint].
    intros ev Hev. right. exists url. exact Hev.
Qed.

Lemma quiz_loop_footprint fuel url :
  footprint (run_event email secret) (quiz_loop fuel email secret T0 url).
Proof.
  revert url. induction fuel as [|fuel IH]; intros url; simpl.
  - destruct (truthy url); apply footprint_ret.
  - destruct (truthy url); [|apply footprint_ret].
    apply footprint_bind; [apply loop_body_footprint|].
    intros [|next]; [apply footprint_ret | apply IH].
Qed.

End Turns.

Section Runs.
Context `{NetlocChecks} `{Outside}.

Lemma run_footprint fuel email secret url :
  footprint (run_event email secret) (run_quiz_solver_background fuel email secret url).
Proof.
  unfold run_quiz_solver_background.
  apply footprint_bind; [apply footprint_call; left; exact I|]. intros T0.
  apply footprint_bind; [apply quiz_loop_footprint|].
  intros [|]; repeat footprint_step; right; exists PNone; exact I.
Qed.

(** The submissions of a run carry the email and the secret of the run. *)
Lemma run_submissions fuel email secret initial_url :
  footprint (fun ev => forall body,
                 submission_body ev = Some body ->
                 exists url answer, body = submission_payload email secret url answer)
    (run_quiz_solver_background fuel email secret initial_url).
Proof.
  apply (footprint_weaken (run_event email secret)); [|apply run_footprint].
  intros [T op | m | c] Hev body Hb; try discriminate Hb.
  destruct op; try discriminate Hb. simpl in Hb.
  destruct Hev as [[] | (cu & [(_ & _ & ->) | (_ & _ & a & Hbody)])]; [discriminate|].
  destruct (timeout =? 30); [|discriminate]. injection Hb as <-. eauto.
Qed.

(** X17: a turn reads the clock once, before anything else, and never
    again: the budget is checked between turns only, and a turn that has
    begun runs to its end. *)
Theorem clock_read_once_per_turn email secret T0 url s :
  exists r s' rest,
    loop_body email secret T0 url s = (r, s')
    /\ st_trace s' = st_trace s ++ EvIO Time :: rest
    /\ Forall (fun ev => ~ is_clock_reading ev) rest.
Proof.
  unfold loop_body, bind at 1, call.
  destruct (perform _ Time (st_world s)) as [[e | now] w].
  { exists (inl e), (set_world w (log [EvIO Time] s)), []. repeat split. constructor. }
  set (s1 := set_world w (log [EvIO Time] s)).
  destruct (PyFloat.gt _ _).
  { eexists _, _, [EvPrint LogTimeout]. split; [reflexivity|]. split.
    - simpl. rewrite <- app_assoc. reflexivity.
    - repeat constructor. simpl. tauto. }
  rewrite (bind_ok _ _ _ _ _ (print_run _ _)), (bind_ok _ _ _ _ _ (print_run _ _)).
  destruct (attempt_footprint email secret url
              (log [EvPrint (LogProcessing url)] (log [EvPrint LogNewTask] s1)))
    as (evs & Ht & Hall).
  destruct (try_ _ _ _) as [r s']. simpl in Ht.
  exists r, s', ([EvPrint LogNewTask; EvPrint (LogProcessing url)] ++ evs).
  split; [reflexivity|]. split.
  - rewrite Ht. rewrite <- !app_assoc. reflexivity.
  - apply Forall_app. split; [repeat constructor; simpl; tauto|].
    eapply Forall_impl; [exact Hall|].
    intros [T op | m | c] Hev; simpl; [destruct op; simpl in *; tauto | tauto ..].
Qed.

(** X18: in a run, a POST that carries any header goes to the completion
    service and carries the bearer header: the token is sent nowhere else,
    and the submissions to the URL the plan names carry no header. *)
Theorem token_goes_to_completion_service_only fuel email secret initial_url :
  footprint (fun ev => forall url headers,
                 post_headers ev = Some (url, headers) ->
                 headers <> ∅ -> url = PStr AIPIPE_URL /\ headers = llm_headers)
    (run_quiz_solver_background fuel email secret initial_url).
Proof.
  apply (footprint_weaken (run_event email secret)); [|apply run_footprint].
  intros [T op | m | c] Hev url headers Hp Hne; try discriminate Hp.
  destruct op; try discriminate Hp. injection Hp as <- <-.
  destruct Hev as [[] | (cu & [(-> & -> & _) | (-> & _)])]; [auto | congruence].
Qed.

(** X19: the body of every submission of a turn is the dict of the four
    entries "email", "secret", "url" and "answer", with the email and the
    secret the run was given and, as "url", the URL of the page of the turn
    (not the URL submitted to); so every submission of a run carries the
    email and the secret of the run. *)
Theorem submission_payload_shape fuel email secret T0 current_url initial_url :
  footprint (fun ev => forall body,
                 submission_body ev = Some body ->
                 exists answer,
                   body = submission_payload email secret current_url answer)
    (loop_body email secret T0 current_url)
  /\ footprint (fun ev => forall body,
                    submission_body ev = Some body ->
                    exists url answer, body = submission_payload email secret url answer)
       (run_quiz_solver_background fuel email secret initial_url).
Proof.
  split.
  - unfold loop_body. apply footprint_bind; [apply footprint_call; discriminate|].
    intros now. destruct (PyFloat.gt _ _); [repeat footprint_step; discriminate|].
    apply footprint_bind; [apply footprint_emit; discriminate|]. intros _.
    apply footprint_bind; [apply footprint_emit; discriminate|]. intros _.
    apply (footprint_weaken (turn_event email secret current_url));
      [|apply attempt_footprint].
    intros [T op | m | c] Hev body Hb; try discriminate Hb.
    destruct op; try discriminate Hb. simpl in Hb.
    destruct Hev as [(_ & _ & ->) | (_ & _ & Hbody)]; [discriminate|].
    destruct (timeout =? 30); [|discriminate]. injection Hb as <-. exact Hbody.
  - apply run_submissions.
Qed.

(** No exception leaves a turn but one of the clock. *)
(** X21: a run on the empty URL does nothing: the loop is not entered,
    whatever the number of turns allowed; the run reads the clock and
    prints the finish message. *)
Theorem empty_url_runs_nothing fuel email secret s now w :
  perform _ Time (st_world s) = (inr now, w) ->
  run_quiz_solver_background fuel email secret [] s
  = (inr Finished, log [EvIO Time; EvPrint LogFinished] (set_world w s)).
Proof.
  intros Hp. unfold run_quiz_solver_background.
  rewrite (bind_ok _ _ _ _ _ (call_run Time s _ _ Hp)).
  rewrite (bind_ok _ _ _ _ _ (quiz_loop_stop _ _ _ fuel (PStr []) _ eq_refl)).
  unfold bind, print, emit, ret, log, set_world. simpl.
  rewrite <- app_assoc. reflexivity.
Qed.

End Runs.

(** ** More ways through a turn *)

Section Ways.
Context `{NetlocChecks} `{Outside}.
Variables (email secret : pystr) (T0 : PyFloat.float).



(** X13: a plan whose question cannot be sliced, as one without a
    question, ends the run.  The Answer Resolver raises before it asks the
    completion service, outside of its own handler; the turn ends with the
    messages of an unexpected error right after the call, nothing is
    submitted, and the loop stops. *)
Theorem unsliceable_question_ends_run fuel url s0 plan submit_url ctx s4 e :
  truthy url = true ->
  data_acquired T0 url s0 plan submit_url ctx s4 ->
  let question := dict_get plan (lit "question") in
  py_slice_to 30 question = inl e ->
  let s' := log [EvCall (CallAnswer question ctx); EvPrint LogUnexpected;
                 EvPrint (LogError e)] s4 in
  loop_body email secret T0 url s0 = (inr (Continue PNone), s')
  /\ quiz_loop (S fuel) email secret T0 url s0 = (inr Finished, s')
  /\ (plan !! lit "question" = None ->
      e = Exn TypeError (lit "'NoneType' object is not subscriptable")).
Proof.
  intros Hu Ha question Hq s'.
  assert (Hb : loop_body email secret T0 url s0 = (inr (Continue PNone), s')).
  { rewrite (loop_body_acquired email secret T0 url s0 plan submit_url ctx s4 Ha).
    unfold try_, answer_and_submit, get_answer_from_llm.
    fold question.
    unfold bind, mark, emit, lift. rewrite Hq.
    unfold unexpected, bind, print, emit, ret, s'. rewrite !log_log. reflexivity. }
  split; [exact Hb|]. split.
  - rewrite (quiz_loop_continue email secret T0 fuel url s0 PNone s' Hu Hb).
    apply quiz_loop_stop. reflexivity.
  - intros Hnone. unfold question, dict_get in Hq. rewrite Hnone in Hq.
    cbn [default py_slice_to] in Hq. injection Hq as <-. reflexivity.
Qed.


(** X16: a failed submission ends the run.  When the submission POST
    raises, returns an error status, returns a body that is no JSON, or
    returns JSON that is no object, the turn ends with the two messages of
    an unexpected error and [current_url] set to [None]; the loop stops
    there and nothing is tried again. *)
Theorem submission_failure_ends_run fuel url s0 submit_url final_answer s5 r w :
  truthy url = true ->
  answer_computed T0 url s0 submit_url final_answer s5 ->
  let post := HttpPost submit_url ∅
                (submission_payload email secret url final_answer) 30 in
  perform _ post (st_world s5) = (r, w) ->
  let ends_with e :=
    let s' := log [EvPrint LogUnexpected; EvPrint (LogError e)]
                (set_world w (log [EvPrint (LogSubmitting submit_url); EvIO post] s5)) in
    loop_body email secret T0 url s0 = (inr (Continue PNone), s')
    /\ quiz_loop (S fuel) email secret T0 url s0 = (inr Finished, s') in
  (forall e, r = inl e -> ends_with e)
  /\ (forall resp e, r = inr resp -> raise_for_status resp = inl e -> ends_with e)
  /\ (forall resp e, r = inr resp -> is_success resp = true -> json resp = inl e ->
      ends_with e)
  /\ (forall resp v, r = inr resp -> is_success resp = true -> json resp = inr v ->
      (forall d, v <> PDict d) -> ends_with (no_attribute v "get")).
Proof.
  intros Hu Ha post Hp ends_with.
  assert (Hstop : forall s',
             loop_body email secret T0 url s0 = (inr (Continue PNone), s') ->
             quiz_loop (S fuel) email secret T0 url s0 = (inr Finished, s')).
  { intros s' Hb.
    rewrite (quiz_loop_continue email secret T0 fuel url s0 PNone s' Hu Hb).
    apply quiz_loop_stop. reflexivity. }
  assert (Hbody : forall e,
             try_ (submit_answer email secret url submit_url final_answer) unexpected s5
             = unexpected e (set_world w (log [EvPrint (LogSubmitting submit_url);
                                               EvIO post] s5)) ->
             ends_with e).
  { intros e Hfail. unfold ends_with. cbv zeta.
    rewrite (loop_body_answered email secret T0 url s0 submit_url final_answer s5 Ha).
    match goal with |- ?A /\ _ => assert (Hb : A) end.
    { rewrite Hfail. unfold unexpected, bind, print, emit, ret.
      rewrite !log_log. reflexivity. }
    split; [exact Hb|]. apply Hstop.
    rewrite (loop_body_answered email secret T0 url s0 submit_url final_answer s5 Ha).
    exact Hb. }
  assert (Hpost : call post (log [EvPrint (LogSubmitting submit_url)] s5)
                  = (r, set_world w (log [EvPrint (LogSubmitting submit_url);
                                           EvIO post] s5))).
  { rewrite (call_run post (log [EvPrint (LogSubmitting submit_url)] s5) r w Hp).
    rewrite log_log. reflexivity. }
  assert (Hsub : forall h s,
             try_ (submit_answer email secret url submit_url final_answer) h s
             = try_ (submit_response <- call post;;
                     lift (raise_for_status submit_response);;
                     result_data <- lift (json submit_response);;
                     process_result result_data) h
                 (log [EvPrint (LogSubmitting submit_url)] s)) by reflexivity.
  split; [|split; [|split]].
  - intros e ->. apply Hbody. rewrite Hsub. unfold try_, bind at 1.
    rewrite Hpost. reflexivity.
  - intros resp e -> Hs. apply Hbody. rewrite Hsub. unfold try_, bind at 1.
    rewrite Hpost. unfold bind, lift. rewrite Hs. reflexivity.
  - intros resp e -> Hok Hj. apply Hbody. rewrite Hsub. unfold try_, bind at 1.
    rewrite Hpost. unfold bind, lift, raise_for_status. rewrite Hok, Hj. reflexivity.
  - intros resp v -> Hok Hj Hnd. apply Hbody. rewrite Hsub. unfold try_, bind at 1.
    rewrite Hpost. unfold bind, lift, raise_for_status. rewrite Hok, Hj.
    unfold process_result, bind, lift.
    destruct v; try reflexivity. exfalso. exact (Hnd _ eq_refl).
Qed.

End Ways.

(** ** The trigger endpoint and the task it schedules *)

Section Config.
Context `{NetlocChecks} `{Outside}.

(** X22: without a configured secret or a configured email the endpoint
    refuses every payload with status 403, and schedules nothing. *)
Theorem unconfigured_refuses_all (payload : QuizPayload) (s : state) :
  MY_SECRET = None \/ MY_EMAIL = None ->
  exists e m,
    start_quiz payload s = (inl e, log [EvPrint m] s)
    /\ exn_cls e = HTTPException 403
    /\ st_tasks (log [EvPrint m] s) = st_tasks s.
Proof.
  intros Hnone. unfold start_quiz.
  destruct (bool_decide (Some (p_secret payload) = MY_SECRET)) eqn:Hs; cbn [negb].
  - destruct (bool_decide (Some (p_email payload) = MY_EMAIL)) eqn:He; cbn [negb].
    + apply bool_decide_eq_true in Hs, He. destruct Hnone; congruence.
    + eexists _, _. repeat split.
  - eexists _, _. repeat split.
Qed.

(** X23: what the endpoint schedules runs with the configuration.
    Whenever a payload is accepted, the secret and the email are
    configured, the task added is the agent loop on the payload's URL with
    them, and every submission that task makes carries them. *)
Theorem scheduled_task_uses_configuration (payload : QuizPayload) (s : state) r s' fuel :
  start_quiz payload s = (inr r, s') ->
  exists email secret,
    MY_EMAIL = Some email /\ MY_SECRET = Some secret
    /\ st_tasks s' = st_tasks s ++ [RunQuizSolver email secret (p_url payload)]
    /\ footprint (fun ev => forall body,
                      submission_body ev = Some body ->
                      exists url answer,
                        body = submission_payload email secret url answer)
         (run_task fuel (RunQuizSolver email secret (p_url payload))).
Proof.
  unfold start_quiz.
  destruct (bool_decide (Some (p_secret payload) = MY_SECRET)) eqn:Hs; cbn [negb];
    [|discriminate].
  destruct (bool_decide (Some (p_email payload) = MY_EMAIL)) eqn:He; cbn [negb];
    [|discriminate].
  apply bool_decide_eq_true in Hs, He. intros [= <- <-].
  exists (p_email payload), (p_secret payload).
  split; [auto|]. split; [auto|]. split; [reflexivity|].
  apply run_submissions.
Qed.

End Config.

(** ** Where a relative reference leads *)

Section SameHost.
Context `{NetlocChecks}.

(** X24: a relative reference stays on the host of the page.  Against a
    current URL with a network location and a scheme for relative URLs, a
    reference that names no scheme of its own and no network location
    resolves, without raising, to a URL with the scheme and the network
    location of the current URL. *)
Theorem relative_reference_same_host base url b u :
  base <> [] -> url <> [] ->
  Url.urlparse base [] = inr b ->
  Url.netloc b <> [] ->
  Url.in_list (Url.scheme b) Url.uses_relative = true ->
  Url.urlparse url (Url.scheme b) = inr u ->
  Url.scheme u = Url.scheme b ->
  Url.netloc u = [] ->
  exists r r',
    resolve_url (PStr base) (PStr url) = inr (PStr r)
    /\ Url.urlparse r (Url.scheme b) = inr r'
    /\ Url.scheme r' = Url.scheme b
    /\ Url.netloc r' = Url.netloc b.
Proof.
  intros Hbase Hurl Hb Hnet Hrel Hu Hs Hnu.
  assert (Hnb : nonempty base = true) by (destruct base; [congruence | reflexivity]).
  assert (Hne : nonempty url = true) by (destruct url; [congruence | reflexivity]).
  assert (Hnetb : nonempty (Url.netloc b) = true)
    by (destruct (Url.netloc b); [congruence | reflexivity]).
  destruct (urlparse_parsed base [] b (or_introl eq_refl) Hb) as [Hpb _].
  destruct (urlparse_parsed url (Url.scheme b) u (parsed_scheme b Hpb) Hu) as [Hpu _].
  rewrite (resolve_url_str base url Hbase Hurl).
  unfold Url.urljoin. rewrite Hnb, Hne. cbn [negb]. rewrite Hb. cbv beta iota.
  rewrite Hu. cbv beta iota.
  rewrite Hs.
  assert (He : eqb (Url.scheme b) (Url.scheme b) = true) by (apply eqb_true; reflexivity).
  rewrite He, Hrel. cbn [negb orb].
  rewrite (relative_uses_netloc _ Hrel). cbn [andb].
  rewrite Hnu. cbn [nonempty].
  destruct Hpu as [Husch Hunet (Hup63 & Hup35 & Hups) Huparams Huq Huf Husplit].
  destruct Hpb as [Hbsch Hbnet Hbpath Hbparams Hbq Hbf Hbsplit].
  rewrite Hs in Husplit.
  match goal with
  | |- exists r r', match (if ?c then inr (Url.urlunparse ?R1) else inr (Url.urlunparse ?R2))
                    with _ => _ end = _ /\ _ =>
      assert (HR : exists R, (if c then R1 else R2) = R /\ parsed R
                             /\ Url.scheme R = Url.scheme b
                             /\ Url.netloc R = Url.netloc b)
  end.
  { destruct (negb (nonempty (Url.path u)) && negb (nonempty (Url.params u)));
      eexists; (split; [reflexivity|]); (split; [|split; reflexivity]);
      constructor;
      cbn [Url.scheme Url.netloc Url.path Url.params Url.query Url.fragment]; auto.
    - destruct (nonempty (Url.query u)); assumption.
    - destruct Hbpath as (Hb63 & Hb35 & Hbs).
      repeat split; apply resolve_path_Forall; auto; discriminate.
    - destruct (Url.in_list (Url.scheme b) Url.uses_params); [|exact Husplit].
      apply resolve_path_last, Husplit. }
  destruct HR as (R & HR & HpR & HsR & HnR).
  assert (HnR' : nonempty (Url.netloc R) = true) by (rewrite HnR; exact Hnetb).
  destruct (urlparse_urlunparse R HpR HnR') as (r' & Hp' & Hs' & Hn' & _).
  exists (Url.urlunparse R), r'.
  split.
  - destruct (negb (nonempty (Url.path u)) && negb (nonempty (Url.params u)));
      rewrite <- HR; reflexivity.
  - rewrite <- HsR. split; [exact Hp'|]. split; [exact Hs' | congruence].
Qed.

End SameHost.

Lemma relative_reference_same_host_witness :
  exists r',
    @resolve_url Demo.checks (PStr (lit "https://h/p/q")) (PStr (lit "/submit"))
    = inr (PStr (lit "https://h/submit"))
    /\ @Url.urlparse Demo.checks (lit "https://h/submit") (lit "https") = inr r'
    /\ Url.scheme r' = lit "https" /\ Url.netloc r' = lit "h".
Proof.
  destruct (@relative_reference_same_host Demo.checks (lit "https://h/p/q") (lit "/submit")
              (Url.mkParse (lit "https") (lit "h") (lit "/p/q") [] [] [])
              (Url.mkParse (lit "https") [] (lit "/submit") [] [] []))
    as (r & r' & Hr & Hp & Hs & Hn);
    [discriminate | discriminate | vm_compute; reflexivity | discriminate
    | vm_compute; reflexivity | vm_compute; reflexivity | reflexivity | reflexivity |].
  assert (Heq : r = lit "https://h/submit").
  { assert (Hc : @resolve_url Demo.checks (PStr (lit "https://h/p/q")) (PStr (lit "/submit"))
                 = inr (PStr (lit "https://h/submit"))) by (vm_compute; reflexivity).
    rewrite Hc in Hr. congruence. }
  subst r. exists r'. auto.
Defined.

(** ** How much a turn asks of the world *)

Section Counting.
Context `{Outside}.
Variable Q : event -> bool.

Lemma at_most_ret {A} n (a : A) : at_most Q n (ret a).
Proof. intros s. exists []. simpl. rewrite app_nil_r. split; [reflexivity | lia]. Qed.

Lemma at_most_raise {A} n e : at_most Q n (raise (A:=A) e).
Proof. intros s. exists []. simpl. rewrite app_nil_r. split; [reflexivity | lia]. Qed.

Lemma at_most_lift {A} n (r : exn + A) : at_most Q n (lift r).
Proof. intros s. exists []. simpl. rewrite app_nil_r. split; [reflexivity | lia]. Qed.

Lemma at_most_emit_free n ev : Q ev = false -> at_most Q n (emit ev).
Proof.
  intros Hq s. exists [ev]. split; [reflexivity|]. simpl. rewrite Hq. simpl. lia.
Qed.

Lemma at_most_call_free {T} n (op : io T) : Q (EvIO op) = false -> at_most Q n (call op).
Proof.
  intros Hq s. exists [EvIO op]. unfold call.
  destruct (perform T op (st_world s)). split; [reflexivity|].
  simpl. rewrite Hq. simpl. lia.
Qed.

Lemma at_most_call_one {T} n (op : io T) : at_most Q (S n) (call op).
Proof.
  intros s. exists [EvIO op]. unfold call.
  destruct (perform T op (st_world s)). split; [reflexivity|].
  simpl. destruct (Q (EvIO op)); simpl; lia.
Qed.

Lemma at_most_bind {A B} n m (c : M A) (k : A -> M B) :
  at_most Q n c -> (forall a, at_most Q m (k a)) -> at_most Q (n + m) (bind c k).
Proof.
  intros Hc Hk s. unfold bind.
  destruct (Hc s) as (e1 & Ht1 & Hn1).
  destruct (c s) as [[e | a] s1]; simpl in *.
  - exists e1. split; [exact Ht1 | lia].
  - destruct (Hk a s1) as (e2 & Ht2 & Hn2).
    exists (e1 ++ e2). rewrite Ht2, Ht1, app_assoc. split; [reflexivity|].
    rewrite List.filter_app, length_app. lia.
Qed.

Lemma at_most_try {A} n m (c : M A) h :
  at_most Q n c -> (forall e, at_most Q m (h e)) -> at_most Q (n + m) (try_ c h).
Proof.
  intros Hc Hh s. unfold try_.
  destruct (Hc s) as (e1 & Ht1 & Hn1).
  destruct (c s) as [[e | a] s1]; simpl in *.
  - destruct (Hh e s1) as (e2 & Ht2 & Hn2).
    exists (e1 ++ e2). rewrite Ht2, Ht1, app_assoc. split; [reflexivity|].
    rewrite List.filter_app, length_app. lia.
  - exists e1. split; [exact Ht1 | lia].
Qed.

Lemma at_most_with {A} n enter leave (body : M A) :
  at_most Q 0 enter -> at_most Q 0 leave -> at_most Q n body ->
  at_most Q n (with_ enter leave body).
Proof.
  intros He Hl Hb s. unfold with_.
  destruct (He s) as (e1 & Ht1 & Hn1).
  destruct (enter s) as [[e | []] s1]; simpl in *.
  - exists e1. split; [exact Ht1 | lia].
  - destruct (Hb s1) as (e2 & Ht2 & Hn2).
    destruct (body s1) as [r s2]; simpl in *.
    destruct (Hl s2) as (e3 & Ht3 & Hn3).
    exists (e1 ++ e2 ++ e3). split.
    + destruct (leave s2) as [[e | []] s3]; simpl in *;
        rewrite Ht3, Ht2, Ht1, <- !app_assoc; reflexivity.
    + rewrite !List.filter_app, !length_app. lia.
Qed.

End Counting.

(** The budget of a sequence goes to its first part as far as that needs
    it, and the rest to what follows. *)
Ltac at_most_step :=
  lazymatch goal with
  | |- at_most _ _ (ret _) => apply at_most_ret
  | |- at_most _ _ (raise _) => apply at_most_raise
  | |- at_most _ _ (lift _) => apply at_most_lift
  | |- at_most _ _ (print _) => apply at_most_emit_free; reflexivity
  | |- at_most _ _ (mark _) => apply at_most_emit_free; reflexivity
  | |- at_most _ _ (call _) =>
      first [apply at_most_call_free; reflexivity | apply at_most_call_one]
  | |- at_most ?Q ?n (bind _ _) =>
      first [ apply (at_most_bind Q 0 n); [solve [at_most_step] | intros; at_most_step]
            | lazymatch n with
              | S ?m => apply (at_most_bind Q 1 m);
                        [solve [at_most_step] | intros; at_most_step]
              end ]
  | |- at_most ?Q ?n (try_ _ _) =>
      apply (at_most_try Q n 0); [at_most_step | intros; at_most_step]
  | |- at_most ?Q ?n (with_ _ _ _) => apply (at_most_with Q n); at_most_step
  | |- at_most _ _ (if ?b then _ else _) => destruct b; at_most_step
  | |- at_most _ _ (match ?x with _ => _ end) => destruct x; at_most_step
  end.

Section Bounds.
Context `{NetlocChecks} `{Outside}.

Ltac unfold_turn :=
  unfold loop_body, attempt_task, plan_and_execute, get_plan_from_llm, plan_attempt,
    execute_plan, acquire_data, file_failed, answer_and_submit, submit_answer,
    process_result, extract_text, download_file, get_text_from_pdf, get_text_from_csv,
    get_answer_from_llm, scrape_page_content, unexpected.

(** X25: what one turn asks of the world is bounded: it loads at most one
    page, asks the completion service at most twice, downloads at most one
    file and submits at most once. *)
Theorem turn_request_bounds email secret T0 url :
  at_most is_page_load 1 (loop_body email secret T0 url)
  /\ at_most is_completion 2 (loop_body email secret T0 url)
  /\ at_most is_download 1 (loop_body email secret T0 url)
  /\ at_most is_submission 1 (loop_body email secret T0 url).
Proof.
  repeat split; unfold_turn; at_most_step.
Qed.

End Bounds.

(** ** From the endpoint to the first page *)

Section FirstPage.
Context `{NetlocChecks} `{Outside}.

(** X26: from the endpoint to the first page.  The task an accepted
    payload schedules, once it runs with a clock within the budget, reads
    the clock twice (the start of the run, the check of the first turn) and
    then calls the Content Fetcher on the URL of the payload. *)
Theorem scheduled_task_fetches_payload_url (payload : QuizPayload) (s : state) r s'
    fuel (s1 : state) T0 w1 now w2 :
  start_quiz payload s = (inr r, s') ->
  p_url payload <> [] ->
  perform _ Time (st_world s1) = (inr T0, w1) ->
  perform _ Time w1 = (inr now, w2) ->
  PyFloat.gt (PyFloat.sub now T0) budget = false ->
  let url := PStr (p_url payload) in
  exists t res s1' rest,
    st_tasks s' = st_tasks s ++ [t]
    /\ run_task (S fuel) t s1 = (res, s1')
    /\ st_trace s1'
       = st_trace s1
         ++ [EvIO Time; EvIO Time; EvPrint LogNewTask; EvPrint (LogProcessing url);
             EvCall (CallScrape url)] ++ rest.
Proof.
  intros Hq Hne Hp0 Hp1 Hg url.
  unfold start_quiz in Hq.
  destruct (bool_decide (Some (p_secret payload) = MY_SECRET)); cbn [negb] in Hq;
    [|discriminate].
  destruct (bool_decide (Some (p_email payload) = MY_EMAIL)); cbn [negb] in Hq;
    [|discriminate].
  injection Hq as <- <-.
  exists (RunQuizSolver (p_email payload) (p_secret payload) (p_url payload)).
  cbn [run_task]. unfold run_quiz_solver_background.
  rewrite (bind_ok _ _ _ _ _ (call_run Time s1 _ _ Hp0)).
  set (s2 := set_world w1 (log [EvIO Time] s1)).
  assert (Hu : truthy url = true)
    by (unfold url; destruct (p_url payload); [congruence | reflexivity]).
  destruct (proceeds_within_budget (p_email payload) (p_secret payload) T0 url s2 now w2
              Hp1 Hg) as (rb & sb & rest & Hb & Ha).
  unfold added in Ha.
  cbn [quiz_loop]. fold url. rewrite Hu.
  assert (Hrest : forall (k : M loop_end),
             footprint (fun _ => True) k ->
             exists res s1' more,
               (r0 <- k;; match r0 with
                          | Finished => print LogFinished;; ret Finished
                          | OutOfFuel => ret OutOfFuel
                          end) sb = (res, s1')
               /\ st_trace s1' = st_trace sb ++ more).
  { intros k Hk.
    assert (Hf : footprint (fun _ => True)
                   (r0 <- k;; match r0 with
                              | Finished => print LogFinished;; ret Finished
                              | OutOfFuel => ret OutOfFuel
                              end)).
    { apply footprint_bind; [exact Hk|]. intros [|]; footprint_auto. }
    destruct (Hf sb) as (more & Ht & _).
    destruct (bind k _ sb) as [res s1']. exists res, s1', more. split; [reflexivity | exact Ht]. }
  destruct rb as [e | [|next]].
  - exists (inl e), sb, rest. split; [reflexivity|].
    split; [unfold bind; rewrite Hb; reflexivity|].
    rewrite Ha. unfold s2. simpl. rewrite <- !app_assoc. reflexivity.
  - destruct (Hrest (ret Finished) (footprint_ret _ _)) as (res & s1' & more & Hr & Ht).
    exists res, s1', (rest ++ more). split; [reflexivity|].
    split; [unfold bind in Hr |- *; rewrite Hb; exact Hr|].
    rewrite Ht, Ha. unfold s2. simpl. rewrite <- !app_assoc. reflexivity.
  - destruct (Hrest (quiz_loop fuel (p_email payload) (p_secret payload) T0 next))
      as (res & s1' & more & Hr & Ht).
    { apply (footprint_weaken (run_event (p_email payload) (p_secret payload)));
        [auto | apply quiz_loop_footprint]. }
    exists res, s1', (rest ++ more). split; [reflexivity|].
    split; [unfold bind in Hr |- *; rewrite Hb; exact Hr|].
    rewrite Ht, Ha. unfold s2. simpl. rewrite <- !app_assoc. reflexivity.
Qed.

End FirstPage.

(** ** The edge of the budget *)

Section Edge.
Context `{NetlocChecks} `{Outside}.


End Edge.

(** ** URLs that are no strings *)

Section Types.
Context `{NetlocChecks} `{Outside}.

Lemma resolve_url_non_string cu v :
  cu <> [] -> truthy v = true -> (forall t, v <> PStr t) ->
  resolve_url (PStr cu) v
  = inl (Exn TypeError (lit "Cannot mix str and non-str arguments")).
Proof.
  intros Hcu Hv Hns. unfold resolve_url, py_urljoin. rewrite Hv. cbn [negb].
  destruct cu as [|c cu]; [congruence|]. cbn [truthy negb].
  destruct v; try reflexivity. exfalso. exact (Hns _ eq_refl).
Qed.

(** X28: a URL of the plan that is true but no string (a list of URLs, a
    number) ends the run: a [data_url] of that kind, or a [submit_url] of
    that kind next to a [data_url] that resolves (one that is absent or
    empty, or a string that [urljoin] joins).  [urljoin] refuses to mix it
    with the current URL; the turn ends right after the plan-received
    message with the messages of an unexpected error, nothing is downloaded
    or submitted, and the loop stops. *)
Theorem non_string_url_ends_run fuel email secret T0 cu s0 page plan s3 v :
  cu <> [] ->
  plan_received T0 (PStr cu) s0 page plan s3 ->
  plan !! lit "error" = None ->
  truthy v = true -> (forall t, v <> PStr t) ->
  dict_get plan (lit "data_url") = v
  \/ ((truthy (dict_get plan (lit "data_url")) = false
       \/ exists t r, dict_get plan (lit "data_url") = PStr t
                      /\ Url.urljoin cu t = inr r)
      /\ dict_get plan (lit "submit_url") = v) ->
  let e := Exn TypeError (lit "Cannot mix str and non-str arguments") in
  let s' := log [EvPrint (LogPlanReceived (dict_get plan (lit "question")));
                 EvPrint LogUnexpected; EvPrint (LogError e)] s3 in
  loop_body email secret T0 (PStr cu) s0 = (inr (Continue PNone), s')
  /\ quiz_loop (S fuel) email secret T0 (PStr cu) s0 = (inr Finished, s').
Proof.
  intros Hcu Hr He Hv Hns Hwhich e s'.
  assert (Hx : execute_plan email secret (PStr cu) page plan s3
               = (inl e, log [EvPrint (LogPlanReceived (dict_get plan (lit "question")))] s3)).
  { apply execute_plan_unresolved. destruct Hwhich as [Hd | [Hd Hs]].
    - left. rewrite Hd. apply resolve_url_non_string; assumption.
    - right. destruct Hd as [Hd | (t & r & Hd & Hj)].
      + exists (dict_get plan (lit "data_url")). split.
        * unfold resolve_url. rewrite Hd. reflexivity.
        * rewrite Hs. apply resolve_url_non_string; assumption.
      + exists (if truthy (PStr t) then PStr r else PStr t). split.
        * rewrite Hd. unfold resolve_url, py_urljoin.
          destruct t as [|c t]; [reflexivity|].
          destruct cu as [|c' cu']; [congruence|].
          cbn [truthy negb]. rewrite Hj. reflexivity.
        * rewrite Hs. apply resolve_url_non_string; assumption. }
  assert (Hb : loop_body email secret T0 (PStr cu) s0 = (inr (Continue PNone), s')).
  { rewrite (loop_body_planned email secret T0 (PStr cu) s0 page plan s3 Hr), He.
    unfold try_. rewrite Hx.
    unfold unexpected, bind, print, emit, ret, s'. rewrite !log_log. reflexivity. }
  split; [exact Hb|].
  rewrite (quiz_loop_continue email secret T0 fuel (PStr cu) s0 PNone s'); [|
    destruct cu; [congruence | reflexivity] | exact Hb].
  apply quiz_loop_stop. reflexivity.
Qed.

End Types.

(** ** The further properties in the scripted world *)

Ltac demo_acquired sc :=
  exists (Demo.sc_page sc), (Demo.planned sc), (Demo.resolved sc "data_url");
  split; [demo_planned | repeat split; by_computation].

Lemma scrape_never_raises_witness :
  let sc := Demo.with_goto (inl Demo.refused) Demo.secret_code in
  let run := @scrape_page_content (Demo.outside sc) Demo.page_url (Demo.initial sc 1) in
  fst run = inr (lit "Error: Could not scrape page. connection refused")
  /\ length (List.filter is_close (st_trace (snd run))) = 1%nat.
Proof.
  intros sc run.
  destruct (@scrape_never_raises (Demo.outside sc) Demo.page_url (Demo.initial sc 1)
              (Demo.At 1 false) (Demo.At 1 false) (Demo.At 1 false)
              (fst run) (snd run) (st_trace (snd run)))
    as (Hr & _ & Hc).
  - reflexivity.
  - reflexivity.
  - reflexivity.
  - intros w; exists tt, w; reflexivity.
  - intros w; exists tt, w; reflexivity.
  - exact (surjective_pairing run).
  - by_computation.
  - by_computation.
  - split; [|exact Hc].
    apply (Hr Demo.refused). left. reflexivity.
Defined.

Lemma empty_url_runs_nothing_witness :
  let sc := Demo.secret_code in
  @run_quiz_solver_background Demo.checks (Demo.outside sc) 0
    (lit "me@example.org") (lit "s3cret") [] (Demo.initial sc 0)
  = (inr Finished,
     @State (Demo.outside sc) (Demo.At 1 false) [EvIO Time; EvPrint LogFinished] []).
Proof.
  intros sc.
  exact (@empty_url_runs_nothing Demo.checks (Demo.outside sc) 0
           (lit "me@example.org") (lit "s3cret") (Demo.initial sc 0)
           (PyFloat.of_Z 1000) (Demo.At 1 false) eq_refl).
Defined.


Lemma unsliceable_question_ends_run_witness :
  let sc := Demo.with_plan [kv "submit_url" (PStr (lit "/submit"))] Demo.secret_code in
  @quiz_loop Demo.checks (Demo.outside sc) 3 [] [] Demo.T1000 Demo.page_url
    (Demo.initial sc 1)
  = (inr Finished,
     log [EvCall (CallAnswer PNone (Demo.sc_page sc)); EvPrint LogUnexpected;
          EvPrint (LogError (Exn TypeError (lit "'NoneType' object is not subscriptable")))]
       (snd (Demo.acquisition sc))).
Proof.
  intros sc.
  destruct (@unsliceable_question_ends_run Demo.checks (Demo.outside sc) [] [] Demo.T1000
              2 Demo.page_url (Demo.initial sc 1) (Demo.the_plan sc)
              (PStr (lit "https://h/submit")) (Demo.sc_page sc) (snd (Demo.acquisition sc))
              (Exn TypeError (lit "'NoneType' object is not subscriptable")))
    as (_ & Hq & _).
  - reflexivity.
  - demo_acquired sc.
  - by_computation.
  - exact Hq.
Defined.


Lemma submission_failure_ends_run_witness :
  let sc := Demo.with_submit (inl Demo.refused) Demo.secret_code in
  exists s',
    @quiz_loop Demo.checks (Demo.outside sc) 3 (lit "me@example.org") (lit "s3cret")
      Demo.T1000 Demo.page_url (Demo.initial sc 1) = (inr Finished, s')
    /\ exists pre, st_trace s' = pre ++ [EvPrint LogUnexpected; EvPrint (LogError Demo.refused)].
Proof.
  intros sc.
  destruct (@submission_failure_ends_run Demo.checks (Demo.outside sc)
              (lit "me@example.org") (lit "s3cret") Demo.T1000 2 Demo.page_url
              (Demo.initial sc 1) (PStr (lit "https://h/submit")) (PInt 29172)
              (Demo.answered sc) (inl Demo.refused) (Demo.At 2 false))
    as (Hraise & _).
  - reflexivity.
  - demo_answered sc.
  - by_computation.
  - destruct (Hraise Demo.refused eq_refl) as [_ Hq].
    eexists. split; [exact Hq|]. eexists. reflexivity.
Defined.

Lemma unconfigured_refuses_all_witness :
  let payload := {| p_email := lit "me@example.org"; p_secret := lit "s3cret";
                    p_url := lit "https://h/p/q" |} in
  exists e m,
    @start_quiz (Demo.outside unconfigured) payload (Demo.initial unconfigured 0)
    = (inl e, log [EvPrint m] (Demo.initial unconfigured 0))
    /\ exn_cls e = HTTPException 403
    /\ st_tasks (log [EvPrint m] (Demo.initial unconfigured 0)) = [].
Proof.
  intros payload.
  apply (@unconfigured_refuses_all (Demo.outside unconfigured) payload
           (Demo.initial unconfigured 0)).
  left. reflexivity.
Defined.

Lemma scheduled_task_uses_configuration_witness :
  let sc := Demo.secret_code in
  let payload := {| p_email := lit "me@example.org"; p_secret := lit "s3cret";
                    p_url := lit "https://h/p/q" |} in
  exists email secret,
    @MY_EMAIL (Demo.outside sc) = Some email /\ @MY_SECRET (Demo.outside sc) = Some secret
    /\ @footprint (Demo.outside sc) _
         (fun ev => forall body,
              submission_body ev = Some body ->
              exists url answer, body = submission_payload email secret url answer)
         (@run_task Demo.checks (Demo.outside sc) 3
            (RunQuizSolver email secret (lit "https://h/p/q"))).
Proof.
  intros sc payload.
  destruct (@scheduled_task_uses_configuration Demo.checks (Demo.outside sc) payload
              (Demo.initial sc 0) accepted
              (snd (@start_quiz (Demo.outside sc) payload (Demo.initial sc 0))) 3)
    as (email & secret & He & Hs & _ & Hf).
  - by_computation.
  - exists email, secret. auto.
Defined.

Lemma launch_failure_escapes_witness :
  let sc := Demo.secret_code in
  let O := no_browser sc in
  exists s',
    @quiz_loop Demo.checks O 3 [] [] Demo.T1000 Demo.page_url
      (@State O (Demo.At 1 false) [] [])
    = (inr Finished, s')
    /\ st_trace s'
       = [EvIO Time; EvPrint LogNewTask; EvPrint (LogProcessing Demo.page_url);
          EvCall (CallScrape Demo.page_url); EvPrint (LogScraping Demo.page_url);
          EvIO PwStart; EvIO PwLaunch; EvIO PwStop;
          EvPrint LogUnexpected; EvPrint (LogError Demo.refused)].
Proof.
  intros sc O.
  destruct (@launch_failure_escapes Demo.checks O 2 [] [] Demo.T1000 Demo.page_url
              (@State O (Demo.At 1 false) [] [])
              (@State O (Demo.At 2 false)
                 [EvIO Time; EvPrint LogNewTask; EvPrint (LogProcessing Demo.page_url)] [])
              (Demo.At 2 false) Demo.refused (Demo.At 2 false) (Demo.At 2 false))
    as (_ & _ & Hq).
  - reflexivity.
  - exists (PyFloat.of_Z 1001), (Demo.At 2 false). repeat split; by_computation.
  - reflexivity.
  - reflexivity.
  - reflexivity.
  - eexists. split; [exact Hq | reflexivity].
Defined.

Lemma scheduled_task_fetches_payload_url_witness :
  let sc := Demo.secret_code in
  let payload := {| p_email := lit "me@example.org"; p_secret := lit "s3cret";
                    p_url := lit "https://h/p/q" |} in
  exists t res s1' rest,
    st_tasks (snd (@start_quiz (Demo.outside sc) payload (Demo.initial sc 0))) = [t]
    /\ @run_task Demo.checks (Demo.outside sc) 3 t (Demo.initial sc 0) = (res, s1')
    /\ st_trace s1'
       = [EvIO Time; EvIO Time; EvPrint LogNewTask; EvPrint (LogProcessing Demo.page_url);
          EvCall (CallScrape Demo.page_url)] ++ rest.
Proof.
  intros sc payload.
  apply (@scheduled_task_fetches_payload_url Demo.checks (Demo.outside sc) payload
           (Demo.initial sc 0) accepted
           (snd (@start_quiz (Demo.outside sc) payload (Demo.initial sc 0)))
           2 (Demo.initial sc 0) (PyFloat.of_Z 1000) (Demo.At 1 false)
           (PyFloat.of_Z 1001) (Demo.At 2 false)).
  - by_computation.
  - discriminate.
  - reflexivity.
  - reflexivity.
  - by_computation.
Defined.


Lemma non_string_url_ends_run_witness :
  let sc := Demo.with_plan [kv "question" (PStr (lit "Q. Get the secret code"));
                            kv "data_url" (PStr (lit "data.csv"));
                            kv "submit_url" (PList [PStr (lit "/a"); PStr (lit "/b")])]
              Demo.secret_code in
  exists s',
    @quiz_loop Demo.checks (Demo.outside sc) 3 [] [] Demo.T1000 Demo.page_url
      (Demo.initial sc 1) = (inr Finished, s')
    /\ st_trace s'
       = st_trace (Demo.planned sc)
         ++ [EvPrint (LogPlanReceived (PStr (lit "Q. Get the secret code")));
             EvPrint LogUnexpected;
             EvPrint (LogError (Exn TypeError (lit "Cannot mix str and non-str arguments")))].
Proof.
  intros sc.
  destruct (@non_string_url_ends_run Demo.checks (Demo.outside sc) 2 [] [] Demo.T1000
              (lit "https://h/p/q") (Demo.initial sc 1) (Demo.sc_page sc)
              (Demo.the_plan sc) (Demo.planned sc)
              (PList [PStr (lit "/a"); PStr (lit "/b")]))
    as [_ Hq].
  - discriminate.
  - demo_planned.
  - by_computation.
  - reflexivity.
  - discriminate.
  - right. split; [|by_computation].
    right. exists (lit "data.csv"), (lit "https://h/p/data.csv").
    split; by_computation.
  - eexists. split; [exact Hq | reflexivity].
Defined.
